(** * Peer-connection signalling and lifecycle coordinator

    A shallow embedding of [src/lib/webrtc.ts] (class [WebRTCManager]).

    - The manager's private fields are the fields of the record
      [WebRTCManager]; the objects it only holds references to
      ([RTCPeerConnection]s, timers, media tracks, the two realtime channels)
      live in the same record as a small store, so that a connection that was
      closed and dropped from the registry is still there to be looked at.
    - A method is a [Step]: it maps the state to the next state and the list
      of [Action]s it performed on its collaborators (messages published,
      timers armed, tracks substituted, observers notified).
    - Everything the browser decides (whether [createOffer] succeeds, what a
      description does to the signalling state, ...) is a field of [Browser];
      [jsep] is the instance following the offer/answer state machine of
      RFC 8829.
    - A handler runs to completion: the interleavings that the [await]s inside
      one handler allow are not part of this model, except for
      [createPeerConnection], which is split at its first suspension point.
    - A string holds the UTF-8 bytes of the JavaScript string it stands for;
      where the manager compares two ids with [<], [js_lt] compares their
      UTF-16 code units.
    - Diagnostic [timestamp] fields and [console] output are left out.
    - The three observers that the meeting room registers with the manager
      ([MeetingRoom.tsx], in [initializeMeeting]) are the functions of
      [Room]. *)

From stdpp Require Import base strings list gmap.
From Stdlib Require Import ZArith.

(** ** Browser-side data *)

Inductive RTCSignalingState :=
  | stable
  | have_local_offer
  | have_remote_offer
  | have_local_pranswer
  | have_remote_pranswer
  | sig_closed.

Inductive RTCPeerConnectionState :=
  | conn_new | connecting | connected | disconnected | failed | conn_closed.

Inductive RTCIceConnectionState :=
  | ice_new | ice_checking | ice_connected | ice_completed
  | ice_failed | ice_disconnected | ice_closed.

Inductive RTCSdpType := sdp_offer | sdp_pranswer | sdp_answer | sdp_rollback.

Record RTCSessionDescriptionInit := mkSdp {
  sdp_type : RTCSdpType;
  sdp : string
}.

Inductive TrackKind := Audio | Video.

(** A track is known by its identity and kind; its mutable [enabled] flag and
    its stopped state are kept in the manager's store, keyed by [track_id]. *)
Record MediaStreamTrack := mkTrack {
  track_id : nat;
  kind : TrackKind
}.

Record RTCRtpSender := mkSender {
  sender_track : option MediaStreamTrack;
  maxBitrate : option Z;
  maxFramerate : option Z
}.

Record RTCStatsReport := mkReport { report_entries : list (string * string) }.

(** One [RTCPeerConnection] object.  [cb_peerId] and [cb_name] are the
    variables captured by the handlers that [createPeerConnection] installs
    on it. *)
Record RTCPeerConnection := mkConn {
  signalingState : RTCSignalingState;
  connectionState : RTCPeerConnectionState;
  iceConnectionState : RTCIceConnectionState;
  localDescription : option RTCSessionDescriptionInit;
  remoteDescription : option RTCSessionDescriptionInit;
  senders : list RTCRtpSender;
  remoteCandidates : list string;
  iceRestarts : nat;
  cb_peerId : string;
  cb_name : string
}.

#[global] Instance RTCSignalingState_eq_dec : EqDecision RTCSignalingState.
Proof. solve_decision. Defined.
#[global] Instance RTCPeerConnectionState_eq_dec : EqDecision RTCPeerConnectionState.
Proof. solve_decision. Defined.
#[global] Instance RTCIceConnectionState_eq_dec : EqDecision RTCIceConnectionState.
Proof. solve_decision. Defined.
#[global] Instance RTCSdpType_eq_dec : EqDecision RTCSdpType.
Proof. solve_decision. Defined.
#[global] Instance TrackKind_eq_dec : EqDecision TrackKind.
Proof. solve_decision. Defined.
#[global] Instance MediaStreamTrack_eq_dec : EqDecision MediaStreamTrack.
Proof. solve_decision. Defined.

(** What the browser decides.  [None] is a rejected promise (a thrown
    error). *)
Record Browser := mkBrowser {
  createOffer : RTCPeerConnection → option RTCSessionDescriptionInit;
  createAnswer : RTCPeerConnection → option RTCSessionDescriptionInit;
  setLocalDescription :
    RTCPeerConnection → RTCSessionDescriptionInit → option RTCPeerConnection;
  setRemoteDescription :
    RTCPeerConnection → RTCSessionDescriptionInit → option RTCPeerConnection;
  addIceCandidate : RTCPeerConnection → string → option RTCPeerConnection;
  getStats : nat → RTCPeerConnection → option RTCStatsReport;
  (** [params.encodings && params.encodings.length > 0] *)
  hasEncodings : bool;
  (** ['MediaStreamTrackProcessor' in window] *)
  hasTrackProcessor : bool
}.

(** [new RTCPeerConnection(configuration)] with the two captured variables. *)
Definition newRTCPeerConnection (peerId name : string) : RTCPeerConnection :=
  {| signalingState := stable;
     connectionState := conn_new;
     iceConnectionState := ice_new;
     localDescription := None;
     remoteDescription := None;
     senders := [];
     remoteCandidates := [];
     iceRestarts := 0;
     cb_peerId := peerId;
     cb_name := name |}.

Definition with_signaling (st : RTCSignalingState) (c : RTCPeerConnection)
  : RTCPeerConnection :=
  {| signalingState := st;
     connectionState := connectionState c;
     iceConnectionState := iceConnectionState c;
     localDescription := localDescription c;
     remoteDescription := remoteDescription c;
     senders := senders c;
     remoteCandidates := remoteCandidates c;
     iceRestarts := iceRestarts c;
     cb_peerId := cb_peerId c;
     cb_name := cb_name c |}.

Definition with_local (d : RTCSessionDescriptionInit) (c : RTCPeerConnection)
  : RTCPeerConnection :=
  {| signalingState := signalingState c;
     connectionState := connectionState c;
     iceConnectionState := iceConnectionState c;
     localDescription := Some d;
     remoteDescription := remoteDescription c;
     senders := senders c;
     remoteCandidates := remoteCandidates c;
     iceRestarts := iceRestarts c;
     cb_peerId := cb_peerId c;
     cb_name := cb_name c |}.

Definition with_remote (d : RTCSessionDescriptionInit) (c : RTCPeerConnection)
  : RTCPeerConnection :=
  {| signalingState := signalingState c;
     connectionState := connectionState c;
     iceConnectionState := iceConnectionState c;
     localDescription := localDescription c;
     remoteDescription := Some d;
     senders := senders c;
     remoteCandidates := remoteCandidates c;
     iceRestarts := iceRestarts c;
     cb_peerId := cb_peerId c;
     cb_name := cb_name c |}.

Definition with_senders (l : list RTCRtpSender) (c : RTCPeerConnection)
  : RTCPeerConnection :=
  {| signalingState := signalingState c;
     connectionState := connectionState c;
     iceConnectionState := iceConnectionState c;
     localDescription := localDescription c;
     remoteDescription := remoteDescription c;
     senders := l;
     remoteCandidates := remoteCandidates c;
     iceRestarts := iceRestarts c;
     cb_peerId := cb_peerId c;
     cb_name := cb_name c |}.

Definition with_connectionState (st : RTCPeerConnectionState)
  (c : RTCPeerConnection) : RTCPeerConnection :=
  {| signalingState := signalingState c;
     connectionState := st;
     iceConnectionState := iceConnectionState c;
     localDescription := localDescription c;
     remoteDescription := remoteDescription c;
     senders := senders c;
     remoteCandidates := remoteCandidates c;
     iceRestarts := iceRestarts c;
     cb_peerId := cb_peerId c;
     cb_name := cb_name c |}.

Definition with_iceConnectionState (st : RTCIceConnectionState)
  (c : RTCPeerConnection) : RTCPeerConnection :=
  {| signalingState := signalingState c;
     connectionState := connectionState c;
     iceConnectionState := st;
     localDescription := localDescription c;
     remoteDescription := remoteDescription c;
     senders := senders c;
     remoteCandidates := remoteCandidates c;
     iceRestarts := iceRestarts c;
     cb_peerId := cb_peerId c;
     cb_name := cb_name c |}.

(** [peer.close()]: never throws, and is a no-op on a closed connection. *)
Definition close (c : RTCPeerConnection) : RTCPeerConnection :=
  with_signaling sig_closed
    (with_connectionState conn_closed (with_iceConnectionState ice_closed c)).

(** [peer.restartIce()] *)
Definition restartIce (c : RTCPeerConnection) : RTCPeerConnection :=
  {| signalingState := signalingState c;
     connectionState := connectionState c;
     iceConnectionState := iceConnectionState c;
     localDescription := localDescription c;
     remoteDescription := remoteDescription c;
     senders := senders c;
     remoteCandidates := remoteCandidates c;
     iceRestarts := S (iceRestarts c);
     cb_peerId := cb_peerId c;
     cb_name := cb_name c |}.

Definition is_video_sender (s : RTCRtpSender) : bool :=
  match sender_track s with
  | Some t => bool_decide (kind t = Video)
  | None => false
  end.

(** [peer.getSenders().find(s => s.track && s.track.kind === 'video')]:
    the position of the first sender carrying a video track. *)
Fixpoint find_video_sender (l : list RTCRtpSender) : option nat :=
  match l with
  | [] => None
  | s :: l' => if is_video_sender s then Some 0
               else S <$> find_video_sender l'
  end.

(** [sender.replaceTrack(t)]: swaps the track of one sender and touches
    nothing else; on a closed connection the returned promise rejects (nobody
    awaits it) and the sender keeps its track. *)
Definition replaceTrack (i : nat) (t : option MediaStreamTrack)
  (c : RTCPeerConnection) : RTCPeerConnection :=
  if decide (signalingState c = sig_closed) then c
  else with_senders
         (alter (λ s, mkSender t (maxBitrate s) (maxFramerate s)) i (senders c))
         c.

(** ** The offer/answer state machine of RFC 8829 as a [Browser] *)

Section JSEP.
(** the text of a generated description is the browser's business *)
Variable gen : RTCSdpType → RTCPeerConnection → string.

Definition jsep_createOffer (c : RTCPeerConnection)
  : option RTCSessionDescriptionInit :=
  match signalingState c with
  | stable | have_local_offer => Some (mkSdp sdp_offer (gen sdp_offer c))
  | _ => None
  end.

Definition jsep_createAnswer (c : RTCPeerConnection)
  : option RTCSessionDescriptionInit :=
  match signalingState c with
  | have_remote_offer | have_local_pranswer =>
      Some (mkSdp sdp_answer (gen sdp_answer c))
  | _ => None
  end.

Definition jsep_local_next (st : RTCSignalingState) (t : RTCSdpType)
  : option RTCSignalingState :=
  match t, st with
  | sdp_offer, (stable | have_local_offer) => Some have_local_offer
  | sdp_answer, (have_remote_offer | have_local_pranswer) => Some stable
  | sdp_pranswer, (have_remote_offer | have_local_pranswer) =>
      Some have_local_pranswer
  | sdp_rollback, have_local_offer => Some stable
  | _, _ => None
  end.

Definition jsep_remote_next (st : RTCSignalingState) (t : RTCSdpType)
  : option RTCSignalingState :=
  match t, st with
  | sdp_offer, (stable | have_remote_offer) => Some have_remote_offer
  | sdp_answer, (have_local_offer | have_remote_pranswer) => Some stable
  | sdp_pranswer, (have_local_offer | have_remote_pranswer) =>
      Some have_remote_pranswer
  | sdp_rollback, have_remote_offer => Some stable
  | _, _ => None
  end.

Definition jsep_setLocalDescription (c : RTCPeerConnection)
  (d : RTCSessionDescriptionInit) : option RTCPeerConnection :=
  st ← jsep_local_next (signalingState c) (sdp_type d);
  Some (with_signaling st (with_local d c)).

Definition jsep_setRemoteDescription (c : RTCPeerConnection)
  (d : RTCSessionDescriptionInit) : option RTCPeerConnection :=
  st ← jsep_remote_next (signalingState c) (sdp_type d);
  Some (with_signaling st (with_remote d c)).

(** a candidate needs a remote description and an open connection *)
Definition jsep_addIceCandidate (c : RTCPeerConnection) (cand : string)
  : option RTCPeerConnection :=
  if decide (signalingState c = sig_closed) then None
  else match remoteDescription c with
       | None => None
       | Some _ =>
           Some {| signalingState := signalingState c;
                   connectionState := connectionState c;
                   iceConnectionState := iceConnectionState c;
                   localDescription := localDescription c;
                   remoteDescription := remoteDescription c;
                   senders := senders c;
                   remoteCandidates := remoteCandidates c ++ [cand];
                   iceRestarts := iceRestarts c;
                   cb_peerId := cb_peerId c;
                   cb_name := cb_name c |}
       end.

Definition jsep : Browser :=
  {| createOffer := jsep_createOffer;
     createAnswer := jsep_createAnswer;
     setLocalDescription := jsep_setLocalDescription;
     setRemoteDescription := jsep_setRemoteDescription;
     addIceCandidate := jsep_addIceCandidate;
     getStats := λ _ _, Some (mkReport []);
     hasEncodings := true;
     hasTrackProcessor := true |}.
End JSEP.

(** ** The manager's state *)

(** [interface PeerConnection]; [peer] is the reference to the connection
    object, an index into [conns].  The optional [stream] field is never
    written by the manager and is left out. *)
Record PeerConnection := mkPeer {
  peerId : string;
  peer : nat;
  name : string
}.

Record WebRTCManager := mkManager {
  localStream : option (list MediaStreamTrack);
  peers : gmap string PeerConnection;
  meetingId : string;
  participantId : string;
  participantName : string;
  (** whether an observer was registered *)
  onStreamCallback : bool;
  onPeerLeftCallback : bool;
  onHandRaisedCallback : bool;
  isInitialized : bool;
  reconnectAttempts : nat;
  heartbeatInterval : option nat;
  participantCheckInterval : option nat;
  backgroundBlurEnabled : bool;
  (** the objects behind the references *)
  conns : list RTCPeerConnection;
  signalingSubscribed : bool;
  presenceSubscribed : bool;
  activeIntervals : gset nat;
  disabledTracks : gset nat;
  stoppedTracks : gset nat;
  (** screen tracks carrying the [onended] handler of [startScreenShare] *)
  screenTracks : gset nat
}.

(** [private maxReconnectAttempts = 5], never assigned again *)
Definition maxReconnectAttempts : nat := 5.

Definition set_localStream (v : option (list MediaStreamTrack))
  (s : WebRTCManager) : WebRTCManager :=
  mkManager v (peers s) (meetingId s) (participantId s) (participantName s)
    (onStreamCallback s) (onPeerLeftCallback s) (onHandRaisedCallback s)
    (isInitialized s) (reconnectAttempts s) (heartbeatInterval s)
    (participantCheckInterval s) (backgroundBlurEnabled s) (conns s)
    (signalingSubscribed s) (presenceSubscribed s) (activeIntervals s)
    (disabledTracks s) (stoppedTracks s) (screenTracks s).

Definition set_peers (f : gmap string PeerConnection → gmap string PeerConnection)
  (s : WebRTCManager) : WebRTCManager :=
  mkManager (localStream s) (f (peers s)) (meetingId s) (participantId s)
    (participantName s)
    (onStreamCallback s) (onPeerLeftCallback s) (onHandRaisedCallback s)
    (isInitialized s) (reconnectAttempts s) (heartbeatInterval s)
    (participantCheckInterval s) (backgroundBlurEnabled s) (conns s)
    (signalingSubscribed s) (presenceSubscribed s) (activeIntervals s)
    (disabledTracks s) (stoppedTracks s) (screenTracks s).

Definition set_callbacks (a b c : bool) (s : WebRTCManager) : WebRTCManager :=
  mkManager (localStream s) (peers s) (meetingId s) (participantId s)
    (participantName s) a b c
    (isInitialized s) (reconnectAttempts s) (heartbeatInterval s)
    (participantCheckInterval s) (backgroundBlurEnabled s) (conns s)
    (signalingSubscribed s) (presenceSubscribed s) (activeIntervals s)
    (disabledTracks s) (stoppedTracks s) (screenTracks s).

Definition set_isInitialized (v : bool) (s : WebRTCManager) : WebRTCManager :=
  mkManager (localStream s) (peers s) (meetingId s) (participantId s)
    (participantName s)
    (onStreamCallback s) (onPeerLeftCallback s) (onHandRaisedCallback s)
    v (reconnectAttempts s) (heartbeatInterval s)
    (participantCheckInterval s) (backgroundBlurEnabled s) (conns s)
    (signalingSubscribed s) (presenceSubscribed s) (activeIntervals s)
    (disabledTracks s) (stoppedTracks s) (screenTracks s).

Definition set_reconnectAttempts (v : nat) (s : WebRTCManager) : WebRTCManager :=
  mkManager (localStream s) (peers s) (meetingId s) (participantId s)
    (participantName s)
    (onStreamCallback s) (onPeerLeftCallback s) (onHandRaisedCallback s)
    (isInitialized s) v (heartbeatInterval s)
    (participantCheckInterval s) (backgroundBlurEnabled s) (conns s)
    (signalingSubscribed s) (presenceSubscribed s) (activeIntervals s)
    (disabledTracks s) (stoppedTracks s) (screenTracks s).

Definition set_backgroundBlurEnabled (v : bool) (s : WebRTCManager)
  : WebRTCManager :=
  mkManager (localStream s) (peers s) (meetingId s) (participantId s)
    (participantName s)
    (onStreamCallback s) (onPeerLeftCallback s) (onHandRaisedCallback s)
    (isInitialized s) (reconnectAttempts s) (heartbeatInterval s)
    (participantCheckInterval s) v (conns s)
    (signalingSubscribed s) (presenceSubscribed s) (activeIntervals s)
    (disabledTracks s) (stoppedTracks s) (screenTracks s).

Definition set_conns (f : list RTCPeerConnection → list RTCPeerConnection)
  (s : WebRTCManager) : WebRTCManager :=
  mkManager (localStream s) (peers s) (meetingId s) (participantId s)
    (participantName s)
    (onStreamCallback s) (onPeerLeftCallback s) (onHandRaisedCallback s)
    (isInitialized s) (reconnectAttempts s) (heartbeatInterval s)
    (participantCheckInterval s) (backgroundBlurEnabled s) (f (conns s))
    (signalingSubscribed s) (presenceSubscribed s) (activeIntervals s)
    (disabledTracks s) (stoppedTracks s) (screenTracks s).

Definition set_subscribed (sig pres : bool) (s : WebRTCManager)
  : WebRTCManager :=
  mkManager (localStream s) (peers s) (meetingId s) (participantId s)
    (participantName s)
    (onStreamCallback s) (onPeerLeftCallback s) (onHandRaisedCallback s)
    (isInitialized s) (reconnectAttempts s) (heartbeatInterval s)
    (participantCheckInterval s) (backgroundBlurEnabled s) (conns s)
    sig pres (activeIntervals s)
    (disabledTracks s) (stoppedTracks s) (screenTracks s).

Definition set_activeIntervals (f : gset nat → gset nat) (s : WebRTCManager)
  : WebRTCManager :=
  mkManager (localStream s) (peers s) (meetingId s) (participantId s)
    (participantName s)
    (onStreamCallback s) (onPeerLeftCallback s) (onHandRaisedCallback s)
    (isInitialized s) (reconnectAttempts s) (heartbeatInterval s)
    (participantCheckInterval s) (backgroundBlurEnabled s) (conns s)
    (signalingSubscribed s) (presenceSubscribed s) (f (activeIntervals s))
    (disabledTracks s) (stoppedTracks s) (screenTracks s).

Definition set_disabledTracks (f : gset nat → gset nat) (s : WebRTCManager)
  : WebRTCManager :=
  mkManager (localStream s) (peers s) (meetingId s) (participantId s)
    (participantName s)
    (onStreamCallback s) (onPeerLeftCallback s) (onHandRaisedCallback s)
    (isInitialized s) (reconnectAttempts s) (heartbeatInterval s)
    (participantCheckInterval s) (backgroundBlurEnabled s) (conns s)
    (signalingSubscribed s) (presenceSubscribed s) (activeIntervals s)
    (f (disabledTracks s)) (stoppedTracks s) (screenTracks s).

Definition set_stoppedTracks (f : gset nat → gset nat) (s : WebRTCManager)
  : WebRTCManager :=
  mkManager (localStream s) (peers s) (meetingId s) (participantId s)
    (participantName s)
    (onStreamCallback s) (onPeerLeftCallback s) (onHandRaisedCallback s)
    (isInitialized s) (reconnectAttempts s) (heartbeatInterval s)
    (participantCheckInterval s) (backgroundBlurEnabled s) (conns s)
    (signalingSubscribed s) (presenceSubscribed s) (activeIntervals s)
    (disabledTracks s) (f (stoppedTracks s)) (screenTracks s).

Definition set_screenTracks (f : gset nat → gset nat) (s : WebRTCManager)
  : WebRTCManager :=
  mkManager (localStream s) (peers s) (meetingId s) (participantId s)
    (participantName s)
    (onStreamCallback s) (onPeerLeftCallback s) (onHandRaisedCallback s)
    (isInitialized s) (reconnectAttempts s) (heartbeatInterval s)
    (participantCheckInterval s) (backgroundBlurEnabled s) (conns s)
    (signalingSubscribed s) (presenceSubscribed s) (activeIntervals s)
    (disabledTracks s) (stoppedTracks s) (f (screenTracks s)).

(** ** What a method does to its collaborators *)

Inductive SignalingMessage :=
  | Offer (from to : string) (offer : RTCSessionDescriptionInit) (nm : string)
  | Answer (from to : string) (answer : RTCSessionDescriptionInit) (nm : string)
  | IceCandidate (from to : string) (candidate : string)
  | UserJoined (pid nm : string)
  | UserLeft (pid : string)
  | HandRaised (pid nm : string) (raised : bool)
  | MediaStateChanged (pid : string) (audio video : bool).

Inductive Channel := Signaling | Presence.

(** the callbacks handed to [setTimeout] *)
Inductive Deferred :=
  | Resubscribe
  | GraceCheck (h : nat)
  | Reconnect (pid nm : string)
  | InitialRosterCheck
  | Reannounce.

Inductive Action :=
  | Send (m : SignalingMessage)
  | PresenceTrack (pid nm : string)
  | PresenceUntrack
  | Subscribe (c : Channel)
  | Unsubscribe (c : Channel)
  | SetTimeout (k : Deferred) (ms : nat)
  | ClearInterval (t : nat)
  | ReplaceTrack (h : nat) (t : option MediaStreamTrack)
  | NotifyStream (pid nm : string)
  | NotifyPeerLeft (pid : string)
  | NotifyHandRaised (pid nm : string) (raised : bool)
  | Rejected.

#[global] Instance Channel_eq_dec : EqDecision Channel.
Proof. solve_decision. Defined.

Definition is_send (a : Action) : bool :=
  match a with Send _ => true | _ => false end.

Definition is_setTimeout (a : Action) : bool :=
  match a with SetTimeout _ _ => true | _ => false end.

Definition is_rejected (a : Action) : bool :=
  match a with Rejected => true | _ => false end.

Definition is_replaceTrack_on (h : nat) (a : Action) : bool :=
  match a with ReplaceTrack h' _ => bool_decide (h' = h) | _ => false end.

(** ** Steps *)

Definition Step := WebRTCManager → WebRTCManager * list Action.

Definition skip : Step := λ s, (s, []).
Definition emit (a : Action) : Step := λ s, (s, [a]).
Definition modify (f : WebRTCManager → WebRTCManager) : Step := λ s, (f s, []).

Definition seq (f g : Step) : Step := λ s,
  let '(s1, a1) := f s in
  let '(s2, a2) := g s1 in
  (s2, a1 ++ a2).

Notation "f ;; g" := (seq f g) (at level 100, g at level 200, right associativity).

Definition forEach {A : Type} (f : A → Step) (l : list A) : Step :=
  foldr (λ x k, f x ;; k) skip l.

(** [this.peers.forEach(...)].  A JavaScript [Map] is visited in the order
    its keys were inserted, the registry here in the order of its keys.  The
    loops of the manager close a connection or substitute a track on the
    connection of the record visited, so the state they leave behind is the
    same in either order; the order in which their actions are listed is the
    one of the keys. *)
Definition forEachPeer (f : PeerConnection → Step) : Step := λ s,
  forEach f (map_to_list (peers s)).*2 s.

(** A string holds the UTF-8 bytes of the JavaScript string it stands for;
    JavaScript compares strings by their UTF-16 code units. *)
Fixpoint bytes (s : string) : list N :=
  match s with
  | EmptyString => []
  | String a s' => Ascii.N_of_ascii a :: bytes s'
  end.

Definition is_continuation (b : N) : bool :=
  ((0x80 <=? b) && (b <? 0xC0))%N.

Definition low6 (b : N) : N := N.land b 0x3F.

(** the code point of a sequence of two, three and four bytes *)
Definition two_bytes (b0 b1 : N) : N :=
  N.lor (N.shiftl (N.land b0 0x1F) 6) (low6 b1).

Definition three_bytes (b0 b1 b2 : N) : N :=
  N.lor (N.shiftl (N.land b0 0x0F) 12)
    (N.lor (N.shiftl (low6 b1) 6) (low6 b2)).

Definition four_bytes (b0 b1 b2 b3 : N) : N :=
  N.lor (N.shiftl (N.land b0 0x07) 18)
    (N.lor (N.shiftl (low6 b1) 12)
       (N.lor (N.shiftl (low6 b2) 6) (low6 b3))).

(** a code point above the basic plane is a pair of surrogates *)
Definition surrogates (cp : N) : list N :=
  let v := (cp - 0x10000)%N in
  [(0xD800 + N.shiftr v 10)%N; (0xDC00 + N.land v 0x3FF)%N].

(** The code units of the string with the bytes [bs].  A byte that starts no
    well-formed sequence is taken as a code unit of its own. *)
Fixpoint code_units (bs : list N) : list N :=
  match bs with
  | [] => []
  | b0 :: bs1 =>
      if (b0 <? 0xC0)%N then b0 :: code_units bs1
      else
        match bs1 with
        | [] => [b0]
        | b1 :: bs2 =>
            if (b0 <? 0xE0)%N then
              if is_continuation b1 then two_bytes b0 b1 :: code_units bs2
              else b0 :: code_units bs1
            else
              match bs2 with
              | [] => b0 :: code_units bs1
              | b2 :: bs3 =>
                  if (b0 <? 0xF0)%N then
                    if is_continuation b1 && is_continuation b2
                    then three_bytes b0 b1 b2 :: code_units bs3
                    else b0 :: code_units bs1
                  else
                    match bs3 with
                    | [] => b0 :: code_units bs1
                    | b3 :: bs4 =>
                        if (b0 <? 0xF8)%N && is_continuation b1
                           && is_continuation b2 && is_continuation b3
                           && (0x10000 <=? four_bytes b0 b1 b2 b3)%N
                           && (four_bytes b0 b1 b2 b3 <=? 0x10FFFF)%N
                        then surrogates (four_bytes b0 b1 b2 b3)
                             ++ code_units bs4
                        else b0 :: code_units bs1
                    end
              end
        end
  end.

(** lexicographic on the code units, a proper prefix first *)
Fixpoint units_lt (a b : list N) : bool :=
  match a, b with
  | _, [] => false
  | [], _ :: _ => true
  | x :: a', y :: b' => (x <? y)%N || ((x =? y)%N && units_lt a' b')
  end.

(** [a < b] on two JavaScript strings *)
Definition js_lt (a b : string) : bool :=
  units_lt (code_units (bytes a)) (code_units (bytes b)).

Definition video_tracks (l : list MediaStreamTrack) : list MediaStreamTrack :=
  filter (λ t, kind t = Video) l.

Definition audio_tracks (l : list MediaStreamTrack) : list MediaStreamTrack :=
  filter (λ t, kind t = Audio) l.

Definition set_intervals (hb poll : option nat) (s : WebRTCManager)
  : WebRTCManager :=
  mkManager (localStream s) (peers s) (meetingId s) (participantId s)
    (participantName s)
    (onStreamCallback s) (onPeerLeftCallback s) (onHandRaisedCallback s)
    (isInitialized s) (reconnectAttempts s) hb poll
    (backgroundBlurEnabled s) (conns s)
    (signalingSubscribed s) (presenceSubscribed s) (activeIntervals s)
    (disabledTracks s) (stoppedTracks s) (screenTracks s).

(** ** What the manager receives *)

(** a presence payload [{participantId, name, online_at}] *)
Record PresenceEntry := mkPresence {
  presence_participantId : string;
  presence_name : string
}.

(** a row of the [participants] table, as far as the manager reads it *)
Record Participant := mkParticipant {
  participant_id : string;
  participant_name : string
}.

(** [{ data, error }] of the roster query *)
Inductive RosterResult :=
  | RosterError
  | RosterData (data : option (list Participant)).

(** ** The methods of [WebRTCManager] *)

Section Manager.
Variable B : Browser.

Definition closePeer (h : nat) : Step :=
  modify (set_conns (alter close h)).

Definition notifyPeerLeft (pid : string) : Step := λ s,
  if onPeerLeftCallback s then emit (NotifyPeerLeft pid) s else skip s.

Definition clearInterval (t : nat) : Step :=
  modify (set_activeIntervals (λ a, a ∖ {[t]})) ;; emit (ClearInterval t).

Definition stopTrack (t : MediaStreamTrack) : Step :=
  modify (set_stoppedTracks (λ a, a ∪ {[track_id t]})).

(** lines 36-67: (re)create and subscribe the signalling channel *)
Definition setupSignaling : Step :=
  (λ s, modify (set_subscribed true (presenceSubscribed s)) s) ;;
  emit (Subscribe Signaling).

(** lines 69-77: the ['system'] handler of the signalling channel *)
Definition handleSystem (status : string) : Step := λ s,
  if bool_decide (status = "CHANNEL_ERROR"%string)
     && bool_decide (reconnectAttempts s < maxReconnectAttempts)
  then (modify (set_reconnectAttempts (S (reconnectAttempts s))) ;;
        (λ s', emit (SetTimeout Resubscribe (1000 * reconnectAttempts s')) s')) s
  else skip s.

(** lines 112-128: the two interval timers; the environment hands out the
    timer ids [hb] and [poll] *)
Definition startHeartbeat (hb poll : nat) : Step :=
  modify (set_intervals (Some hb) (Some poll)) ;;
  modify (set_activeIntervals (λ a, a ∪ {[hb]} ∪ {[poll]})).

(** lines 80-110 *)
Definition setupPresenceTracking (hb poll : nat) : Step :=
  (λ s, modify (set_subscribed (signalingSubscribed s) true) s) ;;
  emit (Subscribe Presence) ;;
  startHeartbeat hb poll.

(** lines 28-34 *)
Definition new_WebRTCManager (meetingId participantId participantName : string)
  (hb poll : nat) : WebRTCManager * list Action :=
  (setupSignaling ;; setupPresenceTracking hb poll)
    (mkManager None ∅ meetingId participantId participantName
       false false false false 0 None None false [] false false ∅ ∅ ∅ ∅).

(** lines 114-122: one tick of the heartbeat timer *)
Definition heartbeatTick : Step := λ s,
  emit (PresenceTrack (participantId s) (participantName s)) s.

(** lines 410-430: [addTrack] for every local track, with the quality caps *)
Definition capped_sender (t : MediaStreamTrack) : RTCRtpSender :=
  match kind t with
  | Video =>
      if hasEncodings B then mkSender (Some t) (Some 2500000%Z) (Some 30%Z)
      else mkSender (Some t) None None
  | Audio =>
      if hasEncodings B then mkSender (Some t) (Some 128000%Z) None
      else mkSender (Some t) None None
  end.

Definition attachTracks (stream : option (list MediaStreamTrack))
  (c : RTCPeerConnection) : RTCPeerConnection :=
  match stream with
  | Some ts => with_senders (senders c ++ (capped_sender <$> ts)) c
  | None => c
  end.

(** lines 396-498: everything [createPeerConnection] does before its first
    [await]; the new connection gets the next free reference *)
Definition createPeerConnection_setup (pid nm : string) : Step := λ s,
  let c := attachTracks (localStream s) (newRTCPeerConnection pid nm) in
  let h := length (conns s) in
  modify (λ s, set_peers <[pid := mkPeer pid h nm]> (set_conns (λ l, l ++ [c]) s)) s.

(** lines 500-526: the initiator's part, on the connection [h] just made *)
Definition createPeerConnection_offer (h : nat) (pid : string) : Step := λ s,
  match conns s !! h with
  | None => skip s
  | Some c =>
      match createOffer B c with
      | None => modify (set_peers (delete pid)) s
      | Some o =>
          match setLocalDescription B c o with
          | None => modify (set_peers (delete pid)) s
          | Some c' =>
              (modify (set_conns <[h := c']>) ;;
               emit (Send (Offer (participantId s) pid o (participantName s)))) s
          end
      end
  end.

(** lines 395-527 *)
Definition createPeerConnection (pid nm : string) (isInitiator : bool)
  : Step := λ s,
  (createPeerConnection_setup pid nm ;;
   if isInitiator then createPeerConnection_offer (length (conns s)) pid
   else skip) s.

(** lines 387-393 *)
Definition handleUserJoined (pid nm : string) : Step := λ s,
  if bool_decide (pid = participantId s) then skip s
  else if bool_decide (is_Some (peers s !! pid)) then skip s
  else createPeerConnection pid nm true s.

(** lines 640-648 *)
Definition handleUserLeft (pid : string) : Step := λ s,
  match peers s !! pid with
  | Some pc =>
      (closePeer (peer pc) ;; modify (set_peers (delete pid)) ;;
       notifyPeerLeft pid) s
  | None => skip s
  end.

(** lines 141-150: the body of the poll's loop *)
Definition pollRow (p : Participant) : Step := λ s,
  if bool_decide (participant_name p ≠ participantName s)
     && negb (bool_decide (is_Some (peers s !! participant_id p)))
  then handleUserJoined (participant_id p) (participant_name p) s
  else skip s.

(** lines 130-154: a failed query is caught, a missing [data] is skipped *)
Definition checkForNewParticipants (r : RosterResult) : Step :=
  match r with
  | RosterError => skip
  | RosterData None => skip
  | RosterData (Some rows) => forEach pollRow rows
  end.

(** lines 156-169; [state] maps a presence key to its presences *)
Definition handlePresenceSync (state : list (string * list PresenceEntry))
  : Step :=
  forEach (λ kv,
    forEach (λ p s,
      if bool_decide (presence_participantId p ≠ participantId s)
         && negb (bool_decide (is_Some (peers s !! presence_participantId p)))
      then handleUserJoined (presence_participantId p) (presence_name p) s
      else skip s) kv.2) state.

(** lines 89-99: the presence ['join'] handler *)
Definition handlePresenceJoin (newPresences : list PresenceEntry) : Step :=
  forEach (λ p s,
    if bool_decide (presence_participantId p ≠ participantId s)
    then handleUserJoined (presence_participantId p) (presence_name p) s
    else skip s) newPresences.

(** lines 100-105: the presence ['leave'] handler *)
Definition handlePresenceLeave (leftPresences : list PresenceEntry) : Step :=
  forEach (λ p, handleUserLeft (presence_participantId p)) leftPresences.

(** lines 54-62 *)
Definition handleHandRaised (pid nm : string) (raised : bool) : Step := λ s,
  if bool_decide (pid ≠ participantId s) && onHandRaisedCallback s
  then emit (NotifyHandRaised pid nm raised) s
  else skip s.

(** lines 650-653: only logs *)
Definition handleMediaStateChanged (pid : string) (audio video : bool)
  : Step := skip.

(** lines 529-548 *)
Definition handleConnectionFailure (pid nm : string) : Step :=
  (λ s, match peers s !! pid with
        | Some pc =>
            (closePeer (peer pc) ;; modify (set_peers (delete pid)) ;;
             notifyPeerLeft pid) s
        | None => skip s
        end) ;;
  (λ s, if bool_decide (reconnectAttempts s < maxReconnectAttempts)
        then (modify (set_reconnectAttempts (S (reconnectAttempts s))) ;;
              (λ s', emit (SetTimeout (Reconnect pid nm)
                             (2000 * reconnectAttempts s')) s')) s
        else skip s).

(** lines 468-486: [onconnectionstatechange] of the connection [h], once the
    browser has moved it to [st] *)
Definition onconnectionstatechange (h : nat) (st : RTCPeerConnectionState)
  : Step := λ s,
  match conns s !! h with
  | None => skip s
  | Some c =>
      (modify (set_conns <[h := with_connectionState st c]>) ;;
       match st with
       | connected => modify (set_reconnectAttempts 0)
       | failed => handleConnectionFailure (cb_peerId c) (cb_name c)
       | disconnected => emit (SetTimeout (GraceCheck h) 5000)
       | _ => skip
       end) s
  end.

(** lines 480-484: the grace timer fires *)
Definition graceCheck (h : nat) : Step := λ s,
  match conns s !! h with
  | Some c =>
      if bool_decide (connectionState c = disconnected)
      then handleConnectionFailure (cb_peerId c) (cb_name c) s
      else skip s
  | None => skip s
  end.

(** lines 489-496 *)
Definition oniceconnectionstatechange (h : nat) (st : RTCIceConnectionState)
  : Step := λ s,
  match conns s !! h with
  | None => skip s
  | Some c =>
      modify (set_conns <[h :=
        if bool_decide (st = ice_failed)
        then restartIce (with_iceConnectionState st c)
        else with_iceConnectionState st c]>) s
  end.

(** lines 452-465 *)
Definition onicecandidate (h : nat) (candidate : option string) : Step := λ s,
  match conns s !! h, candidate with
  | Some c, Some cand =>
      emit (Send (IceCandidate (participantId s) (cb_peerId c) cand)) s
  | _, _ => skip s
  end.

(** lines 433-449 *)
Definition ontrack (h : nat) : Step := λ s,
  match conns s !! h with
  | Some c =>
      if onStreamCallback s then emit (NotifyStream (cb_peerId c) (cb_name c)) s
      else skip s
  | None => skip s
  end.

(** whether the connection behind [h] is in signalling state [st] *)
Definition has_signalingState (st : RTCSignalingState) (h : nat)
  (s : WebRTCManager) : bool :=
  match conns s !! h with
  | Some c => bool_decide (signalingState c = st)
  | None => false
  end.

(** lines 575-606: the state gate and the answer, on the record's
    connection [h] *)
Definition answerOffer (from : string) (offer : RTCSessionDescriptionInit)
  (h : nat) : Step := λ s,
  match conns s !! h with
  | None => skip s
  | Some c =>
      if bool_decide (signalingState c = stable)
         || bool_decide (signalingState c = have_remote_offer)
      then
        match setRemoteDescription B c offer with
        | None => modify (set_peers (delete from)) s
        | Some c1 =>
            match createAnswer B c1 with
            | None =>
                (modify (set_conns <[h := c1]>) ;;
                 modify (set_peers (delete from))) s
            | Some ans =>
                match setLocalDescription B c1 ans with
                | None =>
                    (modify (set_conns <[h := c1]>) ;;
                     modify (set_peers (delete from))) s
                | Some c2 =>
                    (modify (set_conns <[h := c2]>) ;;
                     emit (Send (Answer (participantId s) from ans
                                   (participantName s)))) s
                end
            end
        end
      else skip s
  end.

(** lines 570-606: no usable record, so make one and answer on it *)
Definition acceptOffer (from : string) (offer : RTCSessionDescriptionInit)
  (nm : string) : Step :=
  createPeerConnection from nm false ;;
  (λ s, match peers s !! from with
        | Some pc => answerOffer from offer (peer pc) s
        | None => skip s
        end).

(** lines 550-607 *)
Definition handleOffer (from to : string) (offer : RTCSessionDescriptionInit)
  (nm : string) : Step := λ s,
  if bool_decide (to ≠ participantId s) then skip s
  else
    match peers s !! from with
    | Some pc =>
        if has_signalingState have_local_offer (peer pc) s then
          if js_lt (participantId s) from then skip s
          else (closePeer (peer pc) ;; modify (set_peers (delete from)) ;;
                acceptOffer from offer nm) s
        else answerOffer from offer (peer pc) s
    | None => acceptOffer from offer nm s
    end.

(** lines 609-625 *)
Definition handleAnswer (from to : string) (answer : RTCSessionDescriptionInit)
  (nm : string) : Step := λ s,
  if bool_decide (to ≠ participantId s) then skip s
  else
    match peers s !! from with
    | Some pc =>
        match conns s !! peer pc with
        | Some c =>
            if bool_decide (signalingState c = have_local_offer) then
              match setRemoteDescription B c answer with
              | Some c' => modify (set_conns <[peer pc := c']>) s
              | None => skip s
              end
            else skip s
        | None => skip s
        end
    | None => skip s
    end.

(** lines 627-638 *)
Definition handleIceCandidate (from to : string) (candidate : string)
  : Step := λ s,
  if bool_decide (to ≠ participantId s) then skip s
  else
    match peers s !! from with
    | Some pc =>
        match conns s !! peer pc with
        | Some c =>
            match addIceCandidate B c candidate with
            | Some c' => modify (set_conns <[peer pc := c']>) s
            | None => skip s
            end
        | None => skip s
        end
    | None => skip s
    end.

(** [sender.replaceTrack(t)] on the first video sender of the connection
    [h], if it has one (lines 260-265, 293-298, 329-334, 342-347) *)
Definition substituteVideo (t : option MediaStreamTrack) (h : nat) : Step :=
  λ s,
  match conns s !! h with
  | Some c =>
      match find_video_sender (senders c) with
      | Some i =>
          (modify (set_conns <[h := replaceTrack i t c]>) ;;
           emit (ReplaceTrack h t)) s
      | None => skip s
      end
  | None => skip s
  end.

(** [stream.removeTrack(t)] and [stream.addTrack(t)] *)
Definition remove_track (t : MediaStreamTrack) (l : list MediaStreamTrack)
  : list MediaStreamTrack :=
  filter (λ t', t' ≠ t) l.

Definition add_track (t : MediaStreamTrack) (l : list MediaStreamTrack)
  : list MediaStreamTrack :=
  if bool_decide (t ∈ l) then l else l ++ [t].

(** lines 215-275; [canvas] is the id of the track of
    [canvas.captureStream(30)] *)
Definition applyBackgroundBlur (canvas : nat) : Step := λ s,
  if negb (hasTrackProcessor B) then skip s
  else
    match localStream s with
    | None => skip s
    | Some ts =>
        match video_tracks ts with
        | [] => skip s
        | videoTrack :: _ =>
            let processedTrack := mkTrack canvas Video in
            (forEachPeer (λ pc, substituteVideo (Some processedTrack) (peer pc)) ;;
             modify (set_localStream
                       (Some (add_track processedTrack
                                (remove_track videoTrack ts))))) s
        end
    end.

(** lines 277-311; [cam] is the outcome of the fresh [getUserMedia] *)
Definition removeBackgroundBlur (cam : option (list MediaStreamTrack))
  : Step :=
  match cam with
  | None => skip
  | Some newStream =>
      let videoTrack := head (video_tracks newStream) in
      forEachPeer (λ pc, substituteVideo videoTrack (peer pc)) ;;
      (λ s, match localStream s with
            | None => skip s
            | Some ts =>
                (forEach stopTrack (video_tracks ts) ;;
                 match head (video_tracks ts), videoTrack with
                 | Some old, Some v =>
                     modify (set_localStream
                               (Some (add_track v (remove_track old ts))))
                 | Some old, None =>
                     modify (set_localStream (Some (remove_track old ts)))
                 | None, _ => skip
                 end) s
            end)
  end.

(** lines 203-213 *)
Definition toggleBackgroundBlur (enabled : bool) (canvas : nat)
  (cam : option (list MediaStreamTrack)) : Step :=
  modify (set_backgroundBlurEnabled enabled) ;;
  (λ s, match localStream s with
        | Some ts =>
            if bool_decide (0 < length (video_tracks ts))
            then (if enabled then applyBackgroundBlur canvas
                  else removeBackgroundBlur cam) s
            else skip s
        | None => skip s
        end).

(** lines 171-201; [media] is the outcome of [getUserMedia] *)
Definition initializeMedia (video audio : bool)
  (media : option (list MediaStreamTrack)) (canvas : nat) : Step :=
  match media with
  | None => emit Rejected
  | Some stream =>
      modify (set_localStream (Some stream)) ;;
      (λ s, if backgroundBlurEnabled s && video
            then applyBackgroundBlur canvas s else skip s)
  end.

(** lines 313-357; [display] is the outcome of [getDisplayMedia].  Without a
    video track the loop substitutes nothing and installing [onended] throws,
    which is rethrown. *)
Definition startScreenShare (display : option (list MediaStreamTrack))
  : Step :=
  match display with
  | None => emit Rejected
  | Some screenStream =>
      match head (video_tracks screenStream) with
      | Some videoTrack =>
          forEachPeer (λ pc, substituteVideo (Some videoTrack) (peer pc)) ;;
          modify (set_screenTracks (λ a, a ∪ {[track_id videoTrack]}))
      | None => emit Rejected
      end
  end.

(** lines 338-350: the shared screen track [t] has ended *)
Definition onended (t : nat) : Step := λ s,
  if bool_decide (t ∈ screenTracks s) then
    match localStream s with
    | Some ts =>
        match head (video_tracks ts) with
        | Some videoTrack =>
            forEachPeer (λ pc, substituteVideo (Some videoTrack) (peer pc)) s
        | None => skip s
        end
    | None => skip s
    end
  else skip s.

(** lines 359-385 *)
Definition joinMeeting : Step := λ s,
  if isInitialized s then skip s
  else
    (modify (set_isInitialized true) ;;
     emit (PresenceTrack (participantId s) (participantName s)) ;;
     emit (Send (UserJoined (participantId s) (participantName s))) ;;
     emit (SetTimeout InitialRosterCheck 1000)) s.

Definition set_enabled (enabled : bool) (ts : list MediaStreamTrack)
  (d : gset nat) : gset nat :=
  if enabled then d ∖ list_to_set (track_id <$> ts)
  else d ∪ list_to_set (track_id <$> ts).

Definition some_enabled (ts : list MediaStreamTrack) (d : gset nat) : bool :=
  existsb (λ t, bool_decide (track_id t ∉ d)) ts.

(** lines 663-680 *)
Definition toggleAudio (enabled : bool) : Step := λ s,
  match localStream s with
  | Some ts =>
      (modify (set_disabledTracks (set_enabled enabled (audio_tracks ts))) ;;
       (λ s', emit (Send (MediaStateChanged (participantId s') enabled
                      (some_enabled (video_tracks ts) (disabledTracks s')))) s')) s
  | None => skip s
  end.

(** lines 682-699 *)
Definition toggleVideo (enabled : bool) : Step := λ s,
  match localStream s with
  | Some ts =>
      (modify (set_disabledTracks (set_enabled enabled (video_tracks ts))) ;;
       (λ s', emit (Send (MediaStateChanged (participantId s')
                      (some_enabled (audio_tracks ts) (disabledTracks s'))
                      enabled)) s')) s
  | None => skip s
  end.

(** lines 701-712 *)
Definition raiseHand (raised : bool) : Step := λ s,
  emit (Send (HandRaised (participantId s) (participantName s) raised)) s.

(** lines 655-661, 714-716 *)
Definition onStream : Step := λ s,
  modify (set_callbacks true (onPeerLeftCallback s) (onHandRaisedCallback s)) s.
Definition onPeerLeft : Step := λ s,
  modify (set_callbacks (onStreamCallback s) true (onHandRaisedCallback s)) s.
Definition onHandRaised : Step := λ s,
  modify (set_callbacks (onStreamCallback s) (onPeerLeftCallback s) true) s.

(** lines 718-753.  [untrack], [send] and [unsubscribe] of a realtime channel
    report failure through their result and do not throw. *)
Definition leaveMeeting : Step :=
  (λ s, match heartbeatInterval s with
        | Some t => clearInterval t s
        | None => skip s
        end) ;;
  (λ s, match participantCheckInterval s with
        | Some t => clearInterval t s
        | None => skip s
        end) ;;
  emit PresenceUntrack ;;
  (λ s, emit (Send (UserLeft (participantId s))) s) ;;
  forEachPeer (λ pc, closePeer (peer pc)) ;;
  modify (set_peers (λ _, ∅)) ;;
  (λ s, match localStream s with
        | Some ts => forEach stopTrack ts s
        | None => skip s
        end) ;;
  (λ s, modify (set_subscribed false (presenceSubscribed s)) s) ;;
  emit (Unsubscribe Signaling) ;;
  (λ s, modify (set_subscribed (signalingSubscribed s) false) s) ;;
  emit (Unsubscribe Presence).

(** lines 756-786 *)
Definition refreshConnection : Step :=
  modify (set_reconnectAttempts 0) ;;
  forEachPeer (λ pc, closePeer (peer pc)) ;;
  modify (set_peers (λ _, ∅)) ;;
  (λ s, modify (set_subscribed false (presenceSubscribed s)) s) ;;
  emit (Unsubscribe Signaling) ;;
  setupSignaling ;;
  emit (SetTimeout Reannounce 1000).

(** lines 769-785: the re-announcement timer fires *)
Definition reannounce : Step := λ s,
  (emit (PresenceTrack (participantId s) (participantName s)) ;;
   emit (Send (UserJoined (participantId s) (participantName s)))) s.

(** lines 789-802: the loop body puts a report under the peer's id when
    [getStats] resolves and does nothing when it rejects *)
Definition getConnectionStats (s : WebRTCManager)
  : gmap string RTCStatsReport :=
  map_fold (λ pid pc stats,
    match conns s !! peer pc with
    | Some c =>
        match getStats B (peer pc) c with
        | Some report => <[pid := report]> stats
        | None => stats
        end
    | None => stats
    end) ∅ (peers s).

(** ** Everything that can happen to a manager *)

Inductive Event :=
  (* broadcasts on the signalling channel *)
  | RecvOffer (from to : string) (offer : RTCSessionDescriptionInit) (nm : string)
  | RecvAnswer (from to : string) (answer : RTCSessionDescriptionInit) (nm : string)
  | RecvIceCandidate (from to : string) (candidate : string)
  | RecvUserJoined (pid nm : string)
  | RecvUserLeft (pid : string)
  | RecvHandRaised (pid nm : string) (raised : bool)
  | RecvMediaStateChanged (pid : string) (audio video : bool)
  | ChannelSystem (status : string)
  (* presence *)
  | PresenceSync (state : list (string * list PresenceEntry))
  | PresenceJoin (newPresences : list PresenceEntry)
  | PresenceLeave (leftPresences : list PresenceEntry)
  (* timers *)
  | HeartbeatTick
  | PollTick (r : RosterResult)
  | Fired (k : Deferred) (r : RosterResult)
  (* the browser, on the connection [h] *)
  | ConnectionStateChange (h : nat) (st : RTCPeerConnectionState)
  | IceConnectionStateChange (h : nat) (st : RTCIceConnectionState)
  | LocalCandidate (h : nat) (candidate : option string)
  | RemoteTrack (h : nat)
  | TrackEnded (t : nat)
  (* the public surface *)
  | CallInitializeMedia (video audio : bool)
      (media : option (list MediaStreamTrack)) (canvas : nat)
  | CallToggleBackgroundBlur (enabled : bool) (canvas : nat)
      (cam : option (list MediaStreamTrack))
  | CallStartScreenShare (display : option (list MediaStreamTrack))
  | CallJoinMeeting
  | CallToggleAudio (enabled : bool)
  | CallToggleVideo (enabled : bool)
  | CallRaiseHand (raised : bool)
  | CallOnStream
  | CallOnPeerLeft
  | CallOnHandRaised
  | CallLeaveMeeting
  | CallRefreshConnection.

(** a timer callback; [r] is what the roster query returns if it runs one *)
Definition fire (k : Deferred) (r : RosterResult) : Step :=
  match k with
  | Resubscribe => setupSignaling
  | GraceCheck h => graceCheck h
  | Reconnect pid nm => createPeerConnection pid nm true
  | InitialRosterCheck => checkForNewParticipants r
  | Reannounce => reannounce
  end.

Definition dispatch (e : Event) : Step :=
  match e with
  | RecvOffer from to offer nm => handleOffer from to offer nm
  | RecvAnswer from to answer nm => handleAnswer from to answer nm
  | RecvIceCandidate from to candidate => handleIceCandidate from to candidate
  | RecvUserJoined pid nm => handleUserJoined pid nm
  | RecvUserLeft pid => handleUserLeft pid
  | RecvHandRaised pid nm raised => handleHandRaised pid nm raised
  | RecvMediaStateChanged pid audio video =>
      handleMediaStateChanged pid audio video
  | ChannelSystem status => handleSystem status
  | PresenceSync state => handlePresenceSync state
  | PresenceJoin l => handlePresenceJoin l
  | PresenceLeave l => handlePresenceLeave l
  | HeartbeatTick => heartbeatTick
  | PollTick r => checkForNewParticipants r
  | Fired k r => fire k r
  | ConnectionStateChange h st => onconnectionstatechange h st
  | IceConnectionStateChange h st => oniceconnectionstatechange h st
  | LocalCandidate h candidate => onicecandidate h candidate
  | RemoteTrack h => ontrack h
  | TrackEnded t => onended t
  | CallInitializeMedia video audio media canvas =>
      initializeMedia video audio media canvas
  | CallToggleBackgroundBlur enabled canvas cam =>
      toggleBackgroundBlur enabled canvas cam
  | CallStartScreenShare display => startScreenShare display
  | CallJoinMeeting => joinMeeting
  | CallToggleAudio enabled => toggleAudio enabled
  | CallToggleVideo enabled => toggleVideo enabled
  | CallRaiseHand raised => raiseHand raised
  | CallOnStream => onStream
  | CallOnPeerLeft => onPeerLeft
  | CallOnHandRaised => onHandRaised
  | CallLeaveMeeting => leaveMeeting
  | CallRefreshConnection => refreshConnection
  end.

Definition run (es : list Event) : Step := forEach dispatch es.

End Manager.

(** * The vocabulary of the properties *)

(** ** Steps and what they keep *)

(** [P] holds after a step whenever it held before *)
Definition preserves (P : WebRTCManager → Prop) (f : Step) : Prop :=
  ∀ s, P s → P (f s).1.

(** What no step undoes, relative to an earlier state [s0]: the retry counter
    stays within its cap (or within the value it had in [s0], should that be
    above the cap), a manager that had joined stays joined, and the identity
    the manager was constructed with stays the same. *)
Definition steady (s0 s : WebRTCManager) : Prop :=
  reconnectAttempts s ≤ maxReconnectAttempts `max` reconnectAttempts s0 ∧
  (isInitialized s0 = true → isInitialized s = true) ∧
  participantId s = participantId s0 ∧
  participantName s = participantName s0 ∧
  meetingId s = meetingId s0.

(** The registry points at connection objects that exist, keeps each record
    under its own id, and never holds one connection under two ids. *)
Definition registry_sound (s : WebRTCManager) : Prop :=
  ∀ pid pc, peers s !! pid = Some pc →
    peerId pc = pid ∧ peer pc < length (conns s) ∧
    ∀ pid' pc', peers s !! pid' = Some pc' → peer pc' = peer pc → pid' = pid.

(** ** Counting retries *)

(** whether an action arms the retry of the connection to [p] *)
Definition is_reconnect_to (p : string) (a : Action) : bool :=
  match a with
  | SetTimeout (Reconnect p' _) _ => bool_decide (p' = p)
  | _ => false
  end.

Definition reconnects_to (p : string) (acts : list Action) : nat :=
  length (filter (λ a, is_reconnect_to p a) acts).

(** the connection an event reports as connected *)
Definition reports_connected (e : Event) : option nat :=
  match e with
  | ConnectionStateChange h connected => Some h
  | _ => None
  end.

(** the events that set the retry counter back to zero *)
Definition resets (e : Event) : bool :=
  match e with
  | ConnectionStateChange _ connected => true
  | CallRefreshConnection => true
  | _ => false
  end.

(** whether an action arms a retry: a resubscription of the signalling
    channel or a fresh attempt at a peer *)
Definition is_retry (a : Action) : bool :=
  match a with
  | SetTimeout Resubscribe _ => true
  | SetTimeout (Reconnect _ _) _ => true
  | _ => false
  end.

Definition armed (acts : list Action) : nat :=
  length (filter (λ a, is_retry a) acts).

(** the counter goes up by exactly the retries a step arms *)
Definition paid (s : WebRTCManager) (r : WebRTCManager * list Action) : Prop :=
  reconnectAttempts r.1 = reconnectAttempts s + armed r.2.

(** the ids of the rows a roster query returns *)
Definition roster_ids (r : RosterResult) : list string :=
  match r with
  | RosterData (Some rows) => participant_id <$> rows
  | _ => []
  end.

(** The participants an event can make the manager open a connection to:
    the one a join event, in any of its four forms, reports, the sender of an
    offer, and the peer of a reconnect timer. *)
Definition introduces (e : Event) : list string :=
  match e with
  | RecvOffer from _ _ _ => [from]
  | RecvUserJoined pid _ => [pid]
  | PresenceSync state => presence_participantId <$> mjoin state.*2
  | PresenceJoin l => presence_participantId <$> l
  | PollTick r | Fired InitialRosterCheck r => roster_ids r
  | Fired (Reconnect pid _) _ => [pid]
  | _ => []
  end.

(** the registry has no record for [pid] *)
Definition absent (pid : string) (s : WebRTCManager) : Prop :=
  peers s !! pid = None.

(** ** Joins, leaving, media *)

(** the four ways a join for one peer reaches the manager *)
Inductive JoinPath := ByBroadcast | ByPresencePush | ByPresenceSync | ByPoll.

Definition joinEvent (pid nm key : string) (p : JoinPath) : Event :=
  match p with
  | ByBroadcast => RecvUserJoined pid nm
  | ByPresencePush => PresenceJoin [mkPresence pid nm]
  | ByPresenceSync => PresenceSync [(key, [mkPresence pid nm])]
  | ByPoll => PollTick (RosterData (Some [mkParticipant pid nm]))
  end.

(** [peer.close()] on every connection of a list of records, in order *)
Definition closeAll (L : list PeerConnection) (l : list RTCPeerConnection)
  : list RTCPeerConnection :=
  foldl (λ l pc, alter close (peer pc) l) l L.

Definition stop_ids (s : WebRTCManager) : gset nat :=
  match localStream s with
  | Some ts => list_to_set (track_id <$> ts)
  | None => ∅
  end.

Definition timer_ids (s : WebRTCManager) : gset nat :=
  match heartbeatInterval s with Some t => {[t]} | None => ∅ end
  ∪ match participantCheckInterval s with Some t => {[t]} | None => ∅ end.

(** the state [leaveMeeting] leaves behind *)
Definition after_leave (s : WebRTCManager) : WebRTCManager :=
  mkManager (localStream s) ∅ (meetingId s) (participantId s)
    (participantName s)
    (onStreamCallback s) (onPeerLeftCallback s) (onHandRaisedCallback s)
    (isInitialized s) (reconnectAttempts s) (heartbeatInterval s)
    (participantCheckInterval s) (backgroundBlurEnabled s)
    (closeAll (map_to_list (peers s)).*2 (conns s))
    false false (activeIntervals s ∖ timer_ids s)
    (disabledTracks s) (stoppedTracks s ∪ stop_ids s) (screenTracks s).

Definition leave_actions (s : WebRTCManager) : list Action :=
  match heartbeatInterval s with Some t => [ClearInterval t] | None => [] end
  ++ match participantCheckInterval s with
     | Some t => [ClearInterval t]
     | None => []
     end
  ++ [PresenceUntrack; Send (UserLeft (participantId s));
      Unsubscribe Signaling; Unsubscribe Presence].

(** two connection objects that differ at most in what their senders
    carry *)
Definition same_but_senders (c c' : RTCPeerConnection) : Prop :=
  with_senders [] c' = with_senders [] c.

(** the registry is the same and every connection object is still there,
    with its negotiation state and descriptions as they were *)
Definition negotiation_untouched (s s' : WebRTCManager) : Prop :=
  peers s' = peers s ∧ Forall2 same_but_senders (conns s) (conns s').

(** a step that keeps out of negotiation and publishes nothing *)
Definition media_only (f : Step) : Prop :=
  ∀ s, negotiation_untouched s (f s).1 ∧ filter is_send (f s).2 = [].

Definition substitutions (h : nat) (acts : list Action) : nat :=
  length (filter (λ a, is_replaceTrack_on h a) acts).

(** how often a list of records mentions the connection [h] *)
Definition visits (h : nat) (L : list PeerConnection) : nat :=
  length (filter (λ pc, peer pc = h) L).

(** the connection [h] exists and has a sender carrying a video track *)
Definition sends_video (h : nat) (s : WebRTCManager) : Prop :=
  ∃ c i, conns s !! h = Some c ∧ find_video_sender (senders c) = Some i.

(** ** Two managers on one channel *)

(** what is on the wire between two managers *)
Definition sent (acts : list Action) : list SignalingMessage :=
  omap (λ a, match a with Send m => Some m | _ => None end) acts.

(** lines 39-65: the broadcast handlers of the signalling channel *)
Definition receive (B : Browser) (m : SignalingMessage) : Step :=
  match m with
  | Offer from to offer nm => handleOffer B from to offer nm
  | Answer from to answer nm => handleAnswer B from to answer nm
  | IceCandidate from to candidate => handleIceCandidate B from to candidate
  | UserJoined pid nm => handleUserJoined B pid nm
  | UserLeft pid => handleUserLeft pid
  | HandRaised pid nm raised => handleHandRaised pid nm raised
  | MediaStateChanged pid audio video =>
      handleMediaStateChanged pid audio video
  end.

(** Two managers on one channel.  A broadcast of one reaches the other, in
    any order relative to other broadcasts: [to_left] and [to_right] are the
    messages still under way. *)
Record Pair := mkPair {
  left_node : WebRTCManager;
  right_node : WebRTCManager;
  to_left : list SignalingMessage;
  to_right : list SignalingMessage
}.

(** the [i]-th message under way to one side arrives *)
Inductive Hop := LeftGets (i : nat) | RightGets (i : nat).

Definition hop (B : Browser) (x : Hop) (n : Pair) : option Pair :=
  match x with
  | LeftGets i =>
      m ← to_left n !! i;
      let r := receive B m (left_node n) in
      Some (mkPair r.1 (right_node n) (delete i (to_left n))
              (to_right n ++ sent r.2))
  | RightGets i =>
      m ← to_right n !! i;
      let r := receive B m (right_node n) in
      Some (mkPair (left_node n) r.1 (to_left n ++ sent r.2)
              (delete i (to_right n)))
  end.

Fixpoint hops (B : Browser) (xs : list Hop) (n : Pair) : option Pair :=
  match xs with
  | [] => Some n
  | x :: xs' => n' ← hop B x n; hops B xs' n'
  end.

Definition quiet (n : Pair) : Prop := to_left n = [] ∧ to_right n = [].

(** the message that arrives is the one that has been under way longest: a
    schedule of such hops delivers to each side in the order of sending *)
Definition oldest_first (x : Hop) : bool :=
  match x with
  | LeftGets 0 | RightGets 0 => true
  | _ => false
  end.

(** [h] is a live connection towards [p], and the only one *)
Definition sole_live_connection (p : string) (h : nat) (s : WebRTCManager)
  : Prop :=
  (∃ c, conns s !! h = Some c ∧ cb_peerId c = p ∧
        signalingState c ≠ sig_closed) ∧
  ∀ h' c', conns s !! h' = Some c' → cb_peerId c' = p →
           signalingState c' ≠ sig_closed → h' = h.

(** the connection a manager makes to answer [offer], under [jsep gen] *)
Definition answering (gen : RTCSdpType → RTCPeerConnection → string)
  (s : WebRTCManager) (from nm : string)
  (offer : RTCSessionDescriptionInit) : RTCPeerConnection :=
  let c0 := attachTracks (jsep gen) (localStream s)
              (newRTCPeerConnection from nm) in
  let c1 := with_signaling have_remote_offer (with_remote offer c0) in
  with_signaling stable
    (with_local (mkSdp sdp_answer (gen sdp_answer c1)) c1).

Definition its_answer (gen : RTCSdpType → RTCPeerConnection → string)
  (s : WebRTCManager) (from nm : string)
  (offer : RTCSessionDescriptionInit) : RTCSessionDescriptionInit :=
  let c0 := attachTracks (jsep gen) (localStream s)
              (newRTCPeerConnection from nm) in
  mkSdp sdp_answer
    (gen sdp_answer (with_signaling have_remote_offer (with_remote offer c0))).

(** the connection after a further offer was applied to it and answered *)
Definition renegotiated (gen : RTCSdpType → RTCPeerConnection → string)
  (offer : RTCSessionDescriptionInit) (c : RTCPeerConnection)
  : RTCPeerConnection :=
  let c1 := with_signaling have_remote_offer (with_remote offer c) in
  with_signaling stable (with_local (mkSdp sdp_answer (gen sdp_answer c1)) c1).

(** Two managers that have offered to each other: the one with the smaller
    id and the one with the larger id, each with its record for the other and
    the connection behind it, the two offers and the names they carry, and
    the browser's way of wording a description. *)
Record Crossing := mkCrossing {
  sdp_text : RTCSdpType → RTCPeerConnection → string;
  smaller : WebRTCManager;
  larger : WebRTCManager;
  smaller_record : PeerConnection;
  larger_record : PeerConnection;
  smaller_conn : RTCPeerConnection;
  larger_conn : RTCPeerConnection;
  smaller_offer : RTCSessionDescriptionInit;
  larger_offer : RTCSessionDescriptionInit;
  smaller_name : string;
  larger_name : string
}.

(** the larger side after it has given way to the smaller side's offer *)
Definition larger_conceded (x : Crossing) : WebRTCManager :=
  let s := set_peers (delete (participantId (smaller x)))
             (set_conns (alter close (peer (larger_record x))) (larger x)) in
  set_conns
    (λ l, l ++ [answering (sdp_text x) s (participantId (smaller x))
                  (smaller_name x) (smaller_offer x)])
    (set_peers
       <[participantId (smaller x) :=
           mkPeer (participantId (smaller x)) (length (conns s))
             (smaller_name x)]> s).

Definition concession_of (x : Crossing) : RTCSessionDescriptionInit :=
  its_answer (sdp_text x)
    (set_peers (delete (participantId (smaller x)))
       (set_conns (alter close (peer (larger_record x))) (larger x)))
    (participantId (smaller x)) (smaller_name x) (smaller_offer x).

(** the smaller side after the larger side's answer, and after the larger
    side's overtaken offer on top of it *)
Definition smaller_answered (x : Crossing) : WebRTCManager :=
  set_conns
    <[peer (smaller_record x) :=
        with_signaling stable (with_remote (concession_of x) (smaller_conn x))]>
    (smaller x).

Definition smaller_answered_then_offered (x : Crossing) : WebRTCManager :=
  set_conns
    <[peer (smaller_record x) :=
        renegotiated (sdp_text x) (larger_offer x)
          (with_signaling stable
             (with_remote (concession_of x) (smaller_conn x)))]>
    (smaller_answered x).

Definition late_answer_of (x : Crossing) : RTCSessionDescriptionInit :=
  mkSdp sdp_answer
    (sdp_text x sdp_answer
       (with_signaling have_remote_offer
          (with_remote (larger_offer x)
             (with_signaling stable
                (with_remote (concession_of x) (smaller_conn x)))))).

(** the four messages of a crossing *)
Definition offer_of_smaller (x : Crossing) : SignalingMessage :=
  Offer (participantId (smaller x)) (participantId (larger x))
    (smaller_offer x) (smaller_name x).
Definition offer_of_larger (x : Crossing) : SignalingMessage :=
  Offer (participantId (larger x)) (participantId (smaller x))
    (larger_offer x) (larger_name x).
Definition answer_of_larger (x : Crossing) : SignalingMessage :=
  Answer (participantId (larger x)) (participantId (smaller x))
    (concession_of x) (participantName (larger x)).
Definition late_answer_of_smaller (x : Crossing) : SignalingMessage :=
  Answer (participantId (smaller x)) (participantId (larger x))
    (late_answer_of x) (participantName (smaller x)).

(** With both offers under way, the larger side's answer overtakes its offer
    when the larger side is the first to receive and the smaller side then
    gets the second of the two messages under way to it, the answer, while
    the offer is still to come. *)
Definition answer_overtakes (xs : list Hop) : bool :=
  match xs with
  | RightGets 0 :: LeftGets 1 :: _ => true
  | _ => false
  end.

(** the two managers with both offers under way (the smaller side on the
    left), and the two ways this can end *)
Definition crossing (x : Crossing) : Pair :=
  mkPair (smaller x) (larger x) [offer_of_larger x] [offer_of_smaller x].
Definition settled (x : Crossing) : Pair :=
  mkPair (smaller_answered x) (larger_conceded x) [] [].
Definition settled_late (x : Crossing) : Pair :=
  mkPair (smaller_answered_then_offered x) (larger_conceded x) [] [].

(** ** Small meetings *)

Definition plain : Browser := jsep (λ _ _, ""%string).

Definition bob_awaiting_final_answer : WebRTCManager :=
  (run (jsep (λ _ _, ""%string))
     [RecvUserJoined "p2" "Bo";
      RecvAnswer "p2" "p1" (mkSdp sdp_pranswer "early media") "Bo"]
     (new_WebRTCManager "m" "p1" "Al" 1 2).1).1.

(** Al ("p1") and Bo ("p2") have each learnt of the other and sent an offer *)
Definition al_offering : WebRTCManager :=
  (run plain [RecvUserJoined "p2" "Bo"]
     (new_WebRTCManager "m" "p1" "Al" 1 2).1).1.

Definition bo_offering : WebRTCManager :=
  (run plain [RecvUserJoined "p1" "Al"]
     (new_WebRTCManager "m" "p2" "Bo" 1 2).1).1.

Definition first_offer : RTCPeerConnection :=
  mkConn have_local_offer conn_new ice_new (Some (mkSdp sdp_offer "")) None
    [] [] 0 "p2" "Bo".

Definition first_offer_back : RTCPeerConnection :=
  mkConn have_local_offer conn_new ice_new (Some (mkSdp sdp_offer "")) None
    [] [] 0 "p1" "Al".

(** Al with Bo and Cy.  Cy's connection (the second) works.  One round: Bo
    answers Al's offer on the connection [h], the connection fails all the
    same, the retry that arms comes round, and Cy's connection drops out for
    a moment and comes back. *)
Definition bo_unreachable_round (h : nat) : list Event :=
  [RecvAnswer "p2" "p1" (mkSdp sdp_answer "") "Bo";
   ConnectionStateChange h connecting; ConnectionStateChange h failed;
   Fired (Reconnect "p2" "Bo") RosterError;
   ConnectionStateChange 1 disconnected; ConnectionStateChange 1 connected].

(** six such rounds, each on the connection to Bo that the round before had
    made *)
Definition bo_never_connects : list Event :=
  [RecvUserJoined "p2" "Bo"; RecvUserJoined "p3" "Cy";
   RecvAnswer "p3" "p1" (mkSdp sdp_answer "") "Cy";
   ConnectionStateChange 1 connecting; ConnectionStateChange 1 connected]
  ++ bo_unreachable_round 0 ++ bo_unreachable_round 2
  ++ bo_unreachable_round 3 ++ bo_unreachable_round 4
  ++ bo_unreachable_round 5 ++ bo_unreachable_round 6.

(** Bo's answer overtakes Bo's own offer on the way to Al *)
Definition answer_first : list Hop :=
  [RightGets 0; LeftGets 1; LeftGets 0; RightGets 0].

(** Al and Bo with their offers crossing *)
Definition al_bo_crossing : Crossing :=
  mkCrossing (λ _ _, ""%string) al_offering bo_offering
    (mkPeer "p2" 0 "Bo") (mkPeer "p1" 0 "Al") first_offer first_offer_back
    (mkSdp sdp_offer "") (mkSdp sdp_offer "") "Al" "Bo".

Definition after_answer_first : Pair :=
  default (crossing al_bo_crossing)
    (hops plain answer_first (crossing al_bo_crossing)).

(** a browser that words a description after its kind and the peer its
    connection was made for *)
Definition worded (t : RTCSdpType) (c : RTCPeerConnection) : string :=
  String.append
    (match t with sdp_offer => "offer to " | _ => "answer to " end)
    (cb_peerId c).

(** Al and Bo, each having learnt of the other, with what each has sent *)
Definition al_worded : WebRTCManager * list Action :=
  run (jsep worded) [RecvUserJoined "p2" "Bo"]
    (new_WebRTCManager "m" "p1" "Al" 1 2).1.

Definition bo_worded : WebRTCManager * list Action :=
  run (jsep worded) [RecvUserJoined "p1" "Al"]
    (new_WebRTCManager "m" "p2" "Bo" 1 2).1.

(** ... and their offers crossing *)
Definition al_bo_worded : Crossing :=
  mkCrossing worded al_worded.1 bo_worded.1
    (mkPeer "p2" 0 "Bo") (mkPeer "p1" 0 "Al")
    (mkConn have_local_offer conn_new ice_new
       (Some (mkSdp sdp_offer "offer to p2")) None [] [] 0 "p2" "Bo")
    (mkConn have_local_offer conn_new ice_new
       (Some (mkSdp sdp_offer "offer to p1")) None [] [] 0 "p1" "Al")
    (mkSdp sdp_offer "offer to p2") (mkSdp sdp_offer "offer to p1") "Al" "Bo".

(** Al with camera and microphone, connected to Bo *)
Definition al_with_camera : WebRTCManager :=
  (run plain
     [CallInitializeMedia true true (Some [mkTrack 1 Video; mkTrack 2 Audio]) 7;
      RecvUserJoined "p2" "Bo"]
     (new_WebRTCManager "m" "p1" "Al" 1 2).1).1.

(** Al learnt of Bo before the camera was granted *)
Definition al_camera_late : WebRTCManager :=
  (run plain
     [RecvUserJoined "p2" "Bo";
      CallInitializeMedia true true (Some [mkTrack 1 Video; mkTrack 2 Audio]) 7]
     (new_WebRTCManager "m" "p1" "Al" 1 2).1).1.

(** Al, connected to Bo with camera and microphone, has gone on with the
    microphone alone *)
Definition al_camera_dropped : WebRTCManager :=
  (run plain
     [CallInitializeMedia true true (Some [mkTrack 1 Video; mkTrack 2 Audio]) 7;
      RecvUserJoined "p2" "Bo";
      CallInitializeMedia false true (Some [mkTrack 3 Audio]) 7]
     (new_WebRTCManager "m" "p1" "Al" 1 2).1).1.

(** * The vocabulary of the further properties *)

(** ** Events and the registry *)

(** the events whose handlers can add or remove a record *)
Definition may_change_registry (e : Event) : bool :=
  match e with
  | RecvOffer _ _ _ _ | RecvUserJoined _ _ | RecvUserLeft _ => true
  | PresenceSync _ | PresenceJoin _ | PresenceLeave _ | PollTick _ => true
  | Fired (GraceCheck _) _ | Fired (Reconnect _ _) _
  | Fired InitialRosterCheck _ => true
  | ConnectionStateChange _ failed => true
  | CallLeaveMeeting | CallRefreshConnection => true
  | _ => false
  end.

(** the same records, and as many connection objects *)
Definition same_registry (s0 s : WebRTCManager) : Prop :=
  peers s = peers s0 ∧ length (conns s) = length (conns s0).

(** the events through which the manager learns of participants *)
Definition is_discovery (e : Event) : bool :=
  match e with
  | RecvUserJoined _ _ | PresenceSync _ | PresenceJoin _ | PollTick _
  | Fired InitialRosterCheck _ => true
  | _ => false
  end.

(** the record [pc] is filed under [pid] and its connection object is [c] *)
Definition holds_record (pid : string) (pc : PeerConnection)
  (c : option RTCPeerConnection) (s : WebRTCManager) : Prop :=
  peers s !! pid = Some pc ∧ conns s !! peer pc = c ∧
  peer pc < length (conns s).

(** an offer of the manager that was in state [s0] *)
Definition offer_of (s0 : WebRTCManager) (a : Action) : Prop :=
  ∃ to offer, a = Send (Offer (participantId s0) to offer (participantName s0)).

(** ** A newcomer and a participant already in the meeting *)

(** the connection a manager makes to offer to [pid], and the offer, under
    [jsep gen] *)
Definition its_offer (gen : RTCSdpType → RTCPeerConnection → string)
  (s : WebRTCManager) (pid nm : string) : RTCSessionDescriptionInit :=
  mkSdp sdp_offer
    (gen sdp_offer
       (attachTracks (jsep gen) (localStream s) (newRTCPeerConnection pid nm))).

Definition offering (gen : RTCSdpType → RTCPeerConnection → string)
  (s : WebRTCManager) (pid nm : string) : RTCPeerConnection :=
  let c0 := attachTracks (jsep gen) (localStream s)
              (newRTCPeerConnection pid nm) in
  with_signaling have_local_offer (with_local (its_offer gen s pid nm) c0).

(** a manager after it has made its offer to [pid] *)
Definition has_offered (gen : RTCSdpType → RTCPeerConnection → string)
  (s : WebRTCManager) (pid nm : string) : WebRTCManager :=
  set_conns (λ l, l ++ [offering gen s pid nm])
    (set_peers <[pid := mkPeer pid (length (conns s)) nm]> s).

(** the record of [pid] is there and its connection has an offer out *)
Definition offered_to (pid : string) (s : WebRTCManager) : Prop :=
  ∃ pc c, peers s !! pid = Some pc ∧ conns s !! peer pc = Some c ∧
          peer pc < length (conns s) ∧
          signalingState c = have_local_offer ∧ cb_peerId c = pid.

(** a manager after it has answered the offer of [from] on a connection made
    for it *)
Definition has_answered (gen : RTCSdpType → RTCPeerConnection → string)
  (s : WebRTCManager) (from nm : string) (offer : RTCSessionDescriptionInit)
  : WebRTCManager :=
  set_conns (λ l, l ++ [answering gen s from nm offer])
    (set_peers <[from := mkPeer from (length (conns s)) nm]> s).

(** The newcomer [n] calls [joinMeeting]; [e] is in the meeting already.  The
    pair with the newcomer's announcement under way, and the pair once the
    offer it draws from [e] and the newcomer's answer have arrived. *)
Definition arrival (n e : WebRTCManager) : Pair :=
  mkPair (joinMeeting n).1 e [] (sent (joinMeeting n).2).

Definition welcomed (gen : RTCSdpType → RTCPeerConnection → string)
  (n e : WebRTCManager) : Pair :=
  let n1 := (joinMeeting n).1 in
  let o := its_offer gen e (participantId n) (participantName n) in
  let a := its_answer gen n1 (participantId e) (participantName e) o in
  mkPair
    (has_answered gen n1 (participantId e) (participantName e) o)
    (set_conns
       <[length (conns e) :=
           with_signaling stable
             (with_remote a
                (offering gen e (participantId n) (participantName n)))]>
       (has_offered gen e (participantId n) (participantName n)))
    [] [].

(** ** Refreshing *)

(** the state [refreshConnection] leaves behind *)
Definition after_refresh (s : WebRTCManager) : WebRTCManager :=
  mkManager (localStream s) ∅ (meetingId s) (participantId s)
    (participantName s)
    (onStreamCallback s) (onPeerLeftCallback s) (onHandRaisedCallback s)
    (isInitialized s) 0 (heartbeatInterval s)
    (participantCheckInterval s) (backgroundBlurEnabled s)
    (closeAll (map_to_list (peers s)).*2 (conns s))
    true (presenceSubscribed s) (activeIntervals s)
    (disabledTracks s) (stoppedTracks s) (screenTracks s).

(** ** What the meeting room shows *)

(** [MeetingRoom]'s picture of the remote side, kept up to date by the three
    observers it registers ([src/components/Meeting/MeetingRoom.tsx], in
    [initializeMeeting]): a tile per peer under the peer's id (the stream
    object is the browser's, the tile's name is kept here) and the set of
    raised hands.  An observer is a functional update of the previous
    state. *)
Record Room := mkRoom {
  remoteStreams : gmap string string;
  handRaisedParticipants : gset string
}.

(** [manager.onStream((peerId, stream, participantName) => ...)] *)
Definition room_onStream (peerId nm : string) (prev : Room) : Room :=
  mkRoom (<[peerId := nm]> (remoteStreams prev)) (handRaisedParticipants prev).

(** [manager.onPeerLeft((peerId) => ...)] *)
Definition room_onPeerLeft (peerId : string) (prev : Room) : Room :=
  mkRoom (delete peerId (remoteStreams prev))
    (handRaisedParticipants prev ∖ {[peerId]}).

(** [manager.onHandRaised((participantId, name, raised) => ...)] *)
Definition room_onHandRaised (pid nm : string) (raised : bool) (prev : Room)
  : Room :=
  mkRoom (remoteStreams prev)
    (if raised then handRaisedParticipants prev ∪ {[pid]}
     else handRaisedParticipants prev ∖ {[pid]}).

(** the observer an action of the manager calls *)
Definition notify (a : Action) (room : Room) : Room :=
  match a with
  | NotifyStream pid nm => room_onStream pid nm room
  | NotifyPeerLeft pid => room_onPeerLeft pid room
  | NotifyHandRaised pid nm raised => room_onHandRaised pid nm raised room
  | _ => room
  end.

(** the room after the manager has done [acts] *)
Definition shown (acts : list Action) (room : Room) : Room :=
  foldl (λ r a, notify a r) room acts.

(** the messages of [msgs] arrive at a manager one after the other *)
Definition deliver (B : Browser) (msgs : list SignalingMessage) : Step :=
  forEach (receive B) msgs.

(** ** Registered connections *)

(** what negotiating on a connection must not do to it: close it, or touch
    the peer id and name its handlers were installed with *)
Definition kept (c c' : RTCPeerConnection) : Prop :=
  (signalingState c ≠ sig_closed → signalingState c' ≠ sig_closed) ∧
  cb_peerId c' = cb_peerId c ∧ cb_name c' = cb_name c.

Definition well_behaved (B : Browser) : Prop :=
  ∀ c c',
    (∀ d, setLocalDescription B c d = Some c' → kept c c') ∧
    (∀ d, setRemoteDescription B c d = Some c' → kept c c') ∧
    (∀ cand, addIceCandidate B c cand = Some c' → kept c c').

(** every record refers to a connection that is open and whose handlers
    name the record's peer *)
Definition registry_live (s : WebRTCManager) : Prop :=
  ∀ pid pc c, peers s !! pid = Some pc → conns s !! peer pc = Some c →
    signalingState c ≠ sig_closed ∧ cb_peerId c = pid ∧ cb_name c = name pc.

Definition registry_healthy (s : WebRTCManager) : Prop :=
  registry_sound s ∧ registry_live s.

(** ** Sweeps over the registry *)

(** the connection [c] behind a record has its video sender at [i] and is
    open *)
Definition ready (i : nat) (c : RTCPeerConnection) : Prop :=
  find_video_sender (senders c) = Some i ∧ signalingState c ≠ sig_closed.

(** ** More small meetings *)

(** Al with Bo and Cy in the registry *)
Definition al_with_two : WebRTCManager :=
  (run plain [RecvUserJoined "p2" "Bo"; RecvUserJoined "p3" "Cy"]
     (new_WebRTCManager "m" "p1" "Al" 1 2).1).1.

(** Al's connection to Bo has failed, and Bo was found again before the
    retry came round *)
Definition al_found_bo_again : WebRTCManager :=
  (run plain
     [RecvUserJoined "p2" "Bo"; ConnectionStateChange 0 failed;
      RecvUserJoined "p2" "Bo"]
     (new_WebRTCManager "m" "p1" "Al" 1 2).1).1.

(** ... and then the retry came round *)
Definition al_after_retry : WebRTCManager :=
  (run plain [Fired (Reconnect "p2" "Bo") RosterError] al_found_bo_again).1.

(** Al with the observers of the meeting room registered and Bo in the
    registry *)
Definition al_watching : WebRTCManager :=
  (run plain
     [CallOnStream; CallOnPeerLeft; CallOnHandRaised; RecvUserJoined "p2" "Bo"]
     (new_WebRTCManager "m" "p1" "Al" 1 2).1).1.

(** Al and Bo connected: Bo has answered Al's offer *)
Definition al_connected : WebRTCManager :=
  (run plain
     [RecvUserJoined "p2" "Bo";
      RecvAnswer "p2" "p1" (mkSdp sdp_answer "") "Bo"]
     (new_WebRTCManager "m" "p1" "Al" 1 2).1).1.

(** Cy, who has not joined yet *)
Definition cy_arriving : WebRTCManager :=
  (new_WebRTCManager "m" "p3" "Cy" 1 2).1.

(** a room showing Bo's tile and Bo's raised hand *)
Definition room_with_bo : Room :=
  mkRoom {["p2"%string := "Bo"%string]} {["p2"%string]}.

(** * Properties *)

(** ** Steps that are no-ops, and invariants of steps *)

Lemma seq_eq (f g : Step) s s1 a1 s2 a2 :
  f s = (s1, a1) → g s1 = (s2, a2) → (f ;; g) s = (s2, a1 ++ a2).
Proof. intros Hf Hg. unfold seq. rewrite Hf. simpl. by rewrite Hg. Qed.

Lemma seq_state (f g : Step) s : ((f ;; g) s).1 = (g (f s).1).1.
Proof. unfold seq. destruct (f s) as [s1 a1]; simpl. by destruct (g s1). Qed.

Lemma seq_actions (f g : Step) s :
  ((f ;; g) s).2 = (f s).2 ++ (g (f s).1).2.
Proof. unfold seq. destruct (f s) as [s1 a1]; simpl. by destruct (g s1). Qed.

Lemma forEach_cons {A} (f : A → Step) x l :
  forEach f (x :: l) = (f x ;; forEach f l).
Proof. done. Qed.

Lemma forEach_noop {A} (f : A → Step) l s :
  (∀ x, x ∈ l → f x s = (s, [])) → forEach f l s = (s, []).
Proof.
  induction l as [|x l IH]; intros H; [done|].
  rewrite forEach_cons.
  rewrite (seq_eq _ _ s s [] s []); [done| |].
  - apply H. left.
  - apply IH. intros y Hy. apply H. by right.
Qed.

Lemma preserves_seq P f g :
  preserves P f → preserves P g → preserves P (f ;; g).
Proof. intros Hf Hg s H. rewrite seq_state. by apply Hg, Hf. Qed.

Lemma preserves_forEach {A} P (f : A → Step) l :
  (∀ x, preserves P (f x)) → preserves P (forEach f l).
Proof.
  intros Hf. induction l as [|x l IH]; [by intros s H|].
  rewrite forEach_cons. by apply preserves_seq.
Qed.

Lemma preserves_forEachPeer P f :
  (∀ pc, preserves P (f pc)) → preserves P (forEachPeer f).
Proof. intros Hf s H. unfold forEachPeer. by apply preserves_forEach. Qed.

Lemma steady_refl s : steady s s.
Proof. unfold steady. repeat split; [lia | done]. Qed.

Lemma holds_seq (P : WebRTCManager → Prop) (f g : Step) s :
  P s →
  (∀ s', P s' → P (f s').1) →
  (∀ s', P s' → P (g s').1) →
  P ((f ;; g) s).1.
Proof. intros H Hf Hg. rewrite seq_state. by apply Hg, Hf. Qed.

Lemma holds_forEach {A} (P : WebRTCManager → Prop) (f : A → Step) l s :
  P s →
  (∀ x s', P s' → P (f x s').1) →
  P (forEach f l s).1.
Proof.
  intros H Hf. apply (preserves_forEach P); [|done]. intros x s'. apply Hf.
Qed.

Lemma holds_forEachPeer (P : WebRTCManager → Prop) f s :
  P s →
  (∀ pc s', P s' → P (f pc s').1) →
  P (forEachPeer f s).1.
Proof. intros H Hf. unfold forEachPeer. by apply holds_forEach. Qed.

Create HintDb steady.
Create HintDb sound.

Ltac steady_leaf :=
  repeat match goal with
    | H : bool_decide _ = true |- _ => apply bool_decide_eq_true in H
    | H : (_ && _) = true |- _ => apply andb_true_iff in H; destruct H
    | H : steady _ _ |- _ => destruct H as (? & ? & ? & ? & ?)
    end;
  unfold steady, maxReconnectAttempts in *; simpl in *;
  repeat split; first [lia | by auto].

(** walks through a step along [;;], [forEach] and the case distinctions of
    the handlers; [leaf] closes a [modify], [known] a handler that has its
    lemma *)
Ltac inv_go leaf known :=
  cbv beta;
  lazymatch goal with
  | |- ?P ((seq ?f ?g ?s).1) =>
      apply (holds_seq P f g);
      [assumption | intros ? ?; inv_go leaf known
      | intros ? ?; inv_go leaf known]
  | |- ?P ((forEach ?f ?l ?s).1) =>
      apply (holds_forEach P f l);
      [assumption | intros ? ? ?; inv_go leaf known]
  | |- ?P ((forEachPeer ?f ?s).1) =>
      apply (holds_forEachPeer P f);
      [assumption | intros ? ? ?; inv_go leaf known]
  | |- _ ((skip ?s).1) => assumption
  | |- _ ((emit _ ?s).1) => assumption
  | |- _ ((modify _ ?s).1) => leaf
  | |- context [match ?x with _ => _ end] =>
      destruct x eqn:?; inv_go leaf known
  | _ => solve [known]
  end.

Ltac steady_go := inv_go ltac:(steady_leaf) ltac:(eauto with steady).

Section Steady.
Variable B : Browser.
Variable s0 : WebRTCManager.

Lemma steady_closePeer h s : steady s0 s → steady s0 (closePeer h s).1.
Proof. intros H. unfold closePeer. steady_go. Qed.

Lemma steady_notifyPeerLeft p s : steady s0 s → steady s0 (notifyPeerLeft p s).1.
Proof. intros H. unfold notifyPeerLeft. steady_go. Qed.

Lemma steady_clearInterval t s : steady s0 s → steady s0 (clearInterval t s).1.
Proof. intros H. unfold clearInterval. steady_go. Qed.

Lemma steady_stopTrack t s : steady s0 s → steady s0 (stopTrack t s).1.
Proof. intros H. unfold stopTrack. steady_go. Qed.

Lemma steady_setupSignaling s : steady s0 s → steady s0 (setupSignaling s).1.
Proof. intros H. unfold setupSignaling. steady_go. Qed.

Lemma steady_handleSystem st s : steady s0 s → steady s0 (handleSystem st s).1.
Proof. intros H. unfold handleSystem. steady_go. Qed.

Lemma steady_createPeerConnection p n i s :
  steady s0 s → steady s0 (createPeerConnection B p n i s).1.
Proof.
  intros H. unfold createPeerConnection, createPeerConnection_setup,
    createPeerConnection_offer. steady_go.
Qed.
Hint Resolve steady_closePeer steady_notifyPeerLeft steady_clearInterval
  steady_stopTrack steady_setupSignaling steady_createPeerConnection : steady.

Lemma steady_handleUserJoined p n s :
  steady s0 s → steady s0 (handleUserJoined B p n s).1.
Proof. intros H. unfold handleUserJoined. steady_go. Qed.

Lemma steady_handleUserLeft p s : steady s0 s → steady s0 (handleUserLeft p s).1.
Proof. intros H. unfold handleUserLeft. steady_go. Qed.
Hint Resolve steady_handleUserJoined steady_handleUserLeft : steady.

Lemma steady_checkForNewParticipants r s :
  steady s0 s → steady s0 (checkForNewParticipants B r s).1.
Proof. intros H. unfold checkForNewParticipants, pollRow. steady_go. Qed.

Lemma steady_handleConnectionFailure p n s :
  steady s0 s → steady s0 (handleConnectionFailure p n s).1.
Proof. intros H. unfold handleConnectionFailure. steady_go. Qed.
Hint Resolve steady_checkForNewParticipants steady_handleConnectionFailure
  : steady.

Lemma steady_answerOffer from o h s :
  steady s0 s → steady s0 (answerOffer B from o h s).1.
Proof. intros H. unfold answerOffer. steady_go. Qed.
Hint Resolve steady_answerOffer : steady.

Lemma steady_handleOffer from to o n s :
  steady s0 s → steady s0 (handleOffer B from to o n s).1.
Proof. intros H. unfold handleOffer, acceptOffer. steady_go. Qed.

Lemma steady_substituteVideo t h s :
  steady s0 s → steady s0 (substituteVideo t h s).1.
Proof. intros H. unfold substituteVideo. steady_go. Qed.
Hint Resolve steady_substituteVideo : steady.

Lemma steady_applyBackgroundBlur c s :
  steady s0 s → steady s0 (applyBackgroundBlur B c s).1.
Proof. intros H. unfold applyBackgroundBlur. steady_go. Qed.

Lemma steady_removeBackgroundBlur c s :
  steady s0 s → steady s0 (removeBackgroundBlur c s).1.
Proof. intros H. unfold removeBackgroundBlur. steady_go. Qed.
Hint Resolve steady_applyBackgroundBlur steady_removeBackgroundBlur : steady.

Lemma steady_leaveMeeting s : steady s0 s → steady s0 (leaveMeeting s).1.
Proof. intros H. unfold leaveMeeting. steady_go. Qed.

Lemma steady_joinMeeting s : steady s0 s → steady s0 (joinMeeting s).1.
Proof. intros H. unfold joinMeeting. steady_go. Qed.

Lemma steady_dispatch e s : steady s0 s → steady s0 (dispatch B e s).1.
Proof.
  intros H. destruct e; simpl; try solve [eauto with steady];
    try match goal with |- context [fire _ ?k _] => destruct k; simpl end;
    try solve [eauto with steady];
    try apply steady_handleOffer; try apply steady_leaveMeeting;
    try apply steady_joinMeeting; try apply steady_handleSystem; try done;
    unfold handleAnswer, handleIceCandidate, handleHandRaised,
      handleMediaStateChanged, handlePresenceSync, handlePresenceJoin,
      handlePresenceLeave, heartbeatTick, graceCheck, reannounce,
      onconnectionstatechange, oniceconnectionstatechange, onicecandidate,
      ontrack, onended, initializeMedia, toggleBackgroundBlur,
      startScreenShare, toggleAudio, toggleVideo, raiseHand, onStream,
      onPeerLeft, onHandRaised, refreshConnection;
    steady_go.
Qed.

Lemma steady_run es s : steady s0 s → steady s0 (run B es s).1.
Proof.
  intros H. unfold run. apply holds_forEach; [done|].
  intros e s'. apply steady_dispatch.
Qed.
End Steady.

(** ** The registry stays sound *)

Lemma registry_sound_conns s f :
  registry_sound s → length (f (conns s)) = length (conns s) →
  registry_sound (set_conns f s).
Proof.
  intros H Hlen pid pc Hpc. destruct (H pid pc Hpc) as (H1 & H2 & H3).
  split; [done|]. split; [|exact H3]. cbn [set_conns conns]. by rewrite Hlen.
Qed.

Lemma registry_sound_delete s pid :
  registry_sound s → registry_sound (set_peers (delete pid) s).
Proof.
  intros H pid0 pc Hpc. cbn [set_peers peers conns] in *.
  apply lookup_delete_Some in Hpc as [Hne Hpc].
  destruct (H pid0 pc Hpc) as (H1 & H2 & H3).
  split; [done|]. split; [done|].
  intros pid' pc' Hpc' Heq. apply lookup_delete_Some in Hpc' as [_ Hpc'].
  by apply (H3 pid' pc').
Qed.

Lemma registry_sound_clear s : registry_sound (set_peers (λ _, ∅) s).
Proof. intros pid pc Hpc. cbn [set_peers peers] in Hpc. done. Qed.

Lemma registry_sound_setup s pid nm c :
  registry_sound s →
  registry_sound
    (set_peers <[pid := mkPeer pid (length (conns s)) nm]>
       (set_conns (λ l, l ++ [c]) s)).
Proof.
  intros H pid0 pc Hpc. cbn [set_peers set_conns peers conns] in *.
  rewrite length_app. cbn [length].
  apply lookup_insert_Some in Hpc as [[<- <-]|[Hne Hpc]].
  - split; [done|]. split; [cbn; lia|].
    intros pid' pc' Hpc' Heq.
    apply lookup_insert_Some in Hpc' as [[<- _]|[_ Hpc']]; [done|].
    destruct (H pid' pc' Hpc') as (_ & Hlt & _). cbn in Heq. lia.
  - destruct (H pid0 pc Hpc) as (H1 & H2 & H3).
    split; [done|]. split; [lia|].
    intros pid' pc' Hpc' Heq.
    apply lookup_insert_Some in Hpc' as [[<- <-]|[_ Hpc']].
    + cbn in Heq. lia.
    + by apply (H3 pid' pc').
Qed.

Ltac sound_leaf :=
  cbn [modify fst];
  first
    [ apply registry_sound_setup; assumption
    | apply registry_sound_delete; assumption
    | apply registry_sound_clear
    | apply registry_sound_conns;
        [assumption | by rewrite ?length_alter, ?length_insert]
    | assumption ].

Ltac sound_go := inv_go ltac:(sound_leaf) ltac:(eauto with sound).

Section Sound.
Variable B : Browser.

Lemma sound_closePeer h s : registry_sound s → registry_sound (closePeer h s).1.
Proof. intros H. unfold closePeer. sound_go. Qed.

Lemma sound_notifyPeerLeft p s : registry_sound s → registry_sound (notifyPeerLeft p s).1.
Proof. intros H. unfold notifyPeerLeft. sound_go. Qed.

Lemma sound_clearInterval t s : registry_sound s → registry_sound (clearInterval t s).1.
Proof. intros H. unfold clearInterval. sound_go. Qed.

Lemma sound_stopTrack t s : registry_sound s → registry_sound (stopTrack t s).1.
Proof. intros H. unfold stopTrack. sound_go. Qed.

Lemma sound_setupSignaling s : registry_sound s → registry_sound (setupSignaling s).1.
Proof. intros H. unfold setupSignaling. sound_go. Qed.

Lemma sound_handleSystem st s : registry_sound s → registry_sound (handleSystem st s).1.
Proof. intros H. unfold handleSystem. sound_go. Qed.

Lemma sound_createPeerConnection p n i s :
  registry_sound s → registry_sound (createPeerConnection B p n i s).1.
Proof.
  intros H. unfold createPeerConnection, createPeerConnection_setup,
    createPeerConnection_offer. sound_go.
Qed.
Hint Resolve sound_closePeer sound_notifyPeerLeft sound_clearInterval
  sound_stopTrack sound_setupSignaling sound_createPeerConnection : sound.

Lemma sound_handleUserJoined p n s :
  registry_sound s → registry_sound (handleUserJoined B p n s).1.
Proof. intros H. unfold handleUserJoined. sound_go. Qed.

Lemma sound_handleUserLeft p s : registry_sound s → registry_sound (handleUserLeft p s).1.
Proof. intros H. unfold handleUserLeft. sound_go. Qed.
Hint Resolve sound_handleUserJoined sound_handleUserLeft : sound.

Lemma sound_checkForNewParticipants r s :
  registry_sound s → registry_sound (checkForNewParticipants B r s).1.
Proof. intros H. unfold checkForNewParticipants, pollRow. sound_go. Qed.

Lemma sound_handleConnectionFailure p n s :
  registry_sound s → registry_sound (handleConnectionFailure p n s).1.
Proof. intros H. unfold handleConnectionFailure. sound_go. Qed.
Hint Resolve sound_checkForNewParticipants sound_handleConnectionFailure
  : sound.

Lemma sound_answerOffer from o h s :
  registry_sound s → registry_sound (answerOffer B from o h s).1.
Proof. intros H. unfold answerOffer. sound_go. Qed.
Hint Resolve sound_answerOffer : sound.

Lemma sound_handleOffer from to o n s :
  registry_sound s → registry_sound (handleOffer B from to o n s).1.
Proof. intros H. unfold handleOffer, acceptOffer. sound_go. Qed.

Lemma sound_substituteVideo t h s :
  registry_sound s → registry_sound (substituteVideo t h s).1.
Proof. intros H. unfold substituteVideo. sound_go. Qed.
Hint Resolve sound_substituteVideo : sound.

Lemma sound_applyBackgroundBlur c s :
  registry_sound s → registry_sound (applyBackgroundBlur B c s).1.
Proof. intros H. unfold applyBackgroundBlur. sound_go. Qed.

Lemma sound_removeBackgroundBlur c s :
  registry_sound s → registry_sound (removeBackgroundBlur c s).1.
Proof. intros H. unfold removeBackgroundBlur. sound_go. Qed.
Hint Resolve sound_applyBackgroundBlur sound_removeBackgroundBlur : sound.

Lemma sound_leaveMeeting s : registry_sound s → registry_sound (leaveMeeting s).1.
Proof. intros H. unfold leaveMeeting. sound_go. Qed.

Lemma sound_joinMeeting s : registry_sound s → registry_sound (joinMeeting s).1.
Proof. intros H. unfold joinMeeting. sound_go. Qed.

Lemma sound_dispatch e s : registry_sound s → registry_sound (dispatch B e s).1.
Proof.
  intros H. destruct e; simpl; try solve [eauto with sound];
    try match goal with |- context [fire _ ?k _] => destruct k; simpl end;
    try solve [eauto with sound];
    try apply sound_handleOffer; try apply sound_leaveMeeting;
    try apply sound_joinMeeting; try apply sound_handleSystem; try done;
    unfold handleAnswer, handleIceCandidate, handleHandRaised,
      handleMediaStateChanged, handlePresenceSync, handlePresenceJoin,
      handlePresenceLeave, heartbeatTick, graceCheck, reannounce,
      onconnectionstatechange, oniceconnectionstatechange, onicecandidate,
      ontrack, onended, initializeMedia, toggleBackgroundBlur,
      startScreenShare, toggleAudio, toggleVideo, raiseHand, onStream,
      onPeerLeft, onHandRaised, refreshConnection;
    sound_go.
Qed.

Lemma sound_run es s : registry_sound s → registry_sound (run B es s).1.
Proof.
  intros H. unfold run. apply holds_forEach; [done|].
  intros e s'. apply sound_dispatch.
Qed.
End Sound.

Lemma registry_sound_new meeting me myName hb poll :
  registry_sound (new_WebRTCManager meeting me myName hb poll).1.
Proof. intros pid pc Hpc. done. Qed.

(** every state a manager can reach has a sound registry *)
Lemma registry_sound_run B es meeting me myName hb poll :
  registry_sound
    (run B es (new_WebRTCManager meeting me myName hb poll).1).1.
Proof. apply sound_run, registry_sound_new. Qed.

(** ** Messages for somebody else *)

(** C4 — an Offer, Answer or IceCandidate whose [to] field is not the local
    participant id is discarded unprocessed: whatever the registry holds and
    whatever the browser would do, the handler returns the state it was given
    and performs no action (no record touched, nothing sent). *)
Theorem misaddressed_message_is_discarded (B : Browser) (s : WebRTCManager)
  (from to : string) :
  to ≠ participantId s →
  (∀ offer nm, handleOffer B from to offer nm s = (s, [])) ∧
  (∀ answer nm, handleAnswer B from to answer nm s = (s, [])) ∧
  (∀ candidate, handleIceCandidate B from to candidate s = (s, [])).
Proof.
  intros Hto. repeat split; intros;
    unfold handleOffer, handleAnswer, handleIceCandidate;
    by rewrite bool_decide_eq_true_2.
Qed.

(** ** Joins *)

Lemma handleUserJoined_known B pid nm s :
  is_Some (peers s !! pid) → handleUserJoined B pid nm s = (s, []).
Proof.
  intros H. unfold handleUserJoined.
  case_bool_decide; [done|]. by rewrite bool_decide_eq_true_2.
Qed.

Lemma handleUserJoined_self B nm s :
  handleUserJoined B (participantId s) nm s = (s, []).
Proof. unfold handleUserJoined. by rewrite bool_decide_eq_true_2. Qed.

Lemma handleUserJoined_unknown B pid nm s :
  pid ≠ participantId s → peers s !! pid = None →
  handleUserJoined B pid nm s = createPeerConnection B pid nm true s.
Proof.
  intros Hne Hnone. unfold handleUserJoined.
  rewrite bool_decide_eq_false_2 by done.
  rewrite bool_decide_eq_false_2; [done|]. rewrite Hnone. by intros [? ?].
Qed.

Lemma forEach_singleton {A} (f : A → Step) x s : forEach f [x] s = f x s.
Proof.
  unfold forEach; simpl. unfold seq, skip. destruct (f x s) as [s1 a1].
  by rewrite app_nil_r.
Qed.

(** the record is in the registry as soon as [createPeerConnection] reaches
    its first suspension point *)
Lemma createPeerConnection_setup_registers B pid nm s :
  peers (createPeerConnection_setup B pid nm s).1 !! pid
  = Some (mkPeer pid (length (conns s)) nm).
Proof. simpl. apply lookup_insert_eq. Qed.

(** a join that arrives while an earlier join for the same peer is still
    waiting for its offer does nothing *)
Lemma handleUserJoined_while_offering B pid nm nm' s :
  let s1 := (createPeerConnection_setup B pid nm s).1 in
  handleUserJoined B pid nm' s1 = (s1, []).
Proof.
  intros s1. apply handleUserJoined_known. unfold s1.
  by rewrite createPeerConnection_setup_registers.
Qed.

(** C7 — a join event for a peer that is already in the registry is a no-op
    on every path that can raise it (the [user-joined] broadcast, the presence
    push, the presence sync and the roster poll): the state, hence the
    registry and the existing record, is returned unchanged and nothing is
    done; so any number of further joins for that peer, over any mix of
    paths, changes nothing. *)
Theorem join_of_known_peer_is_noop (B : Browser) (s : WebRTCManager)
  (pid nm key : string) (paths : list JoinPath) :
  is_Some (peers s !! pid) →
  handleUserJoined B pid nm s = (s, []) ∧
  handlePresenceJoin B [mkPresence pid nm] s = (s, []) ∧
  handlePresenceSync B [(key, [mkPresence pid nm])] s = (s, []) ∧
  checkForNewParticipants B (RosterData (Some [mkParticipant pid nm])) s
    = (s, []) ∧
  run B (joinEvent pid nm key <$> paths) s = (s, []).
Proof.
  intros Hknown.
  assert (H1 : handleUserJoined B pid nm s = (s, []))
    by by apply handleUserJoined_known.
  assert (H2 : handlePresenceJoin B [mkPresence pid nm] s = (s, [])).
  { unfold handlePresenceJoin. rewrite forEach_singleton. simpl.
    by case_bool_decide. }
  assert (H3 : handlePresenceSync B [(key, [mkPresence pid nm])] s = (s, [])).
  { unfold handlePresenceSync. rewrite forEach_singleton. cbn [snd].
    rewrite forEach_singleton. simpl.
    rewrite (bool_decide_eq_true_2 (is_Some _)) by done.
    by rewrite andb_false_r. }
  assert (H4 : checkForNewParticipants B
                 (RosterData (Some [mkParticipant pid nm])) s = (s, [])).
  { unfold checkForNewParticipants, pollRow. rewrite forEach_singleton. simpl.
    rewrite (bool_decide_eq_true_2 (is_Some _)) by done.
    by rewrite andb_false_r. }
  repeat split; try done.
  unfold run. apply forEach_noop. intros e He.
  apply list_elem_of_fmap in He as (p & -> & _). by destruct p.
Qed.

Lemma join_of_known_peer_is_noop_witness :
  let s := (run (jsep (λ _ _, ""%string)) [RecvUserJoined "p2" "Bo"]
              (new_WebRTCManager "m" "p1" "Al" 1 2).1).1 in
  is_Some (peers s !! "p2"%string) ∧
  handleUserJoined (jsep (λ _ _, ""%string)) "p2" "Bo" s = (s, []).
Proof.
  intros s.
  assert (H : is_Some (peers s !! "p2"%string)) by (vm_compute; eauto).
  split; [exact H|].
  exact (proj1 (join_of_known_peer_is_noop (jsep (λ _ _, ""%string)) s
                  "p2" "Bo" "k" [ByPoll; ByPresencePush] H)).
Defined.

Lemma misaddressed_message_is_discarded_witness :
  let s := (new_WebRTCManager "m" "p1" "Al" 1 2).1 in
  "p3"%string ≠ participantId s ∧
  handleOffer (jsep (λ _ _, ""%string)) "p2" "p3" (mkSdp sdp_offer "o") "Bo" s
    = (s, []).
Proof.
  intros s.
  assert (H : "p3"%string ≠ participantId s) by (vm_compute; discriminate).
  split; [exact H|].
  exact (proj1 (misaddressed_message_is_discarded (jsep (λ _ _, ""%string)) s
                  "p2" "p3" H) (mkSdp sdp_offer "o") "Bo"%string).
Defined.

(** ** The roster poll and the local display name *)

Lemma createPeerConnection_participantName B pid nm i s :
  participantName (createPeerConnection B pid nm i s).1 = participantName s.
Proof.
  unfold createPeerConnection, createPeerConnection_setup,
    createPeerConnection_offer.
  rewrite seq_state. simpl. destruct i; [|done].
  repeat case_match; done.
Qed.

Lemma handleUserJoined_participantName B pid nm s :
  participantName (handleUserJoined B pid nm s).1 = participantName s.
Proof.
  unfold handleUserJoined. repeat case_bool_decide; try done.
  apply createPeerConnection_participantName.
Qed.

Lemma pollRow_participantName B p s :
  participantName (pollRow B p s).1 = participantName s.
Proof.
  unfold pollRow. case_match; [|done]. apply handleUserJoined_participantName.
Qed.

Lemma pollRow_same_name B p s :
  participant_name p = participantName s → pollRow B p s = (s, []).
Proof.
  intros H. unfold pollRow. by rewrite bool_decide_eq_false_2 by (by intros ?).
Qed.

(** rows carrying the local display name can be struck from the roster
    without changing what the poll does *)
Lemma poll_skips_same_name B me rows : ∀ s,
  participantName s = me →
  forEach (pollRow B) rows s
  = forEach (pollRow B) (filter (λ p, participant_name p ≠ me) rows) s.
Proof.
  induction rows as [|p rows IH]; intros s Hme; [done|].
  rewrite filter_cons. destruct (decide (participant_name p ≠ me)) as [Hn|Hn].
  - rewrite !forEach_cons. unfold seq.
    pose proof (pollRow_participantName B p s) as Hp.
    destruct (pollRow B p s) as [s1 a1]; simpl in *.
    rewrite (IH s1) by congruence. done.
  - rewrite forEach_cons. unfold seq.
    rewrite pollRow_same_name by (subst me; by destruct (decide (participant_name p = participantName s)); [|exfalso; apply Hn]).
    rewrite (IH s Hme). by destruct (forEach _ _ s).
Qed.

(** C9 — the roster poll leaves out the local participant by display name,
    not by id: a roster row whose name equals the local display name raises
    no join, whatever its id (alone it leaves the state untouched, and in any
    roster it can be struck without changing the outcome), whereas the
    presence push and sync paths compare participant ids and do open a
    connection to an unknown peer with another id and the same name. *)
Theorem poll_excludes_by_display_name (B : Browser) (s : WebRTCManager)
  (p : Participant) (before after : list Participant) (key : string) :
  participant_name p = participantName s →
  checkForNewParticipants B (RosterData (Some [p])) s = (s, []) ∧
  checkForNewParticipants B (RosterData (Some (before ++ p :: after))) s
    = checkForNewParticipants B (RosterData (Some (before ++ after))) s ∧
  (participant_id p ≠ participantId s → peers s !! participant_id p = None →
   handlePresenceJoin B [mkPresence (participant_id p) (participant_name p)] s
     = createPeerConnection B (participant_id p) (participant_name p) true s ∧
   handlePresenceSync B
     [(key, [mkPresence (participant_id p) (participant_name p)])] s
     = createPeerConnection B (participant_id p) (participant_name p) true s).
Proof.
  intros Hname. split; [|split].
  - unfold checkForNewParticipants. rewrite forEach_singleton.
    by apply (pollRow_same_name B).
  - unfold checkForNewParticipants.
    rewrite (poll_skips_same_name B (participantName s) (before ++ p :: after))
      by done.
    rewrite (poll_skips_same_name B (participantName s) (before ++ after))
      by done.
    rewrite !filter_app, filter_cons.
    destruct (decide (participant_name p ≠ participantName s)); done.
  - intros Hid Hnew. split.
    + unfold handlePresenceJoin. rewrite forEach_singleton. simpl.
      rewrite bool_decide_eq_true_2 by done.
      by apply handleUserJoined_unknown.
    + unfold handlePresenceSync. rewrite forEach_singleton. cbn [snd].
      rewrite forEach_singleton. simpl.
      rewrite bool_decide_eq_true_2 by done.
      rewrite (bool_decide_eq_false_2 (is_Some _))
        by (rewrite Hnew; by intros [? ?]).
      by apply handleUserJoined_unknown.
Qed.

Lemma poll_excludes_by_display_name_witness :
  let B := jsep (λ _ _, ""%string) in
  let s := (new_WebRTCManager "m" "p1" "Al" 1 2).1 in
  let p := mkParticipant "p2" "Al" in
  participant_name p = participantName s ∧
  checkForNewParticipants B (RosterData (Some [p])) s = (s, []) ∧
  handlePresenceJoin B [mkPresence (participant_id p) (participant_name p)] s
    = createPeerConnection B (participant_id p) (participant_name p) true s.
Proof.
  intros B s p.
  assert (H : participant_name p = participantName s) by reflexivity.
  destruct (poll_excludes_by_display_name B s p [] [] "k" H) as (H1 & _ & H3).
  split; [exact H|]. split; [exact H1|].
  apply H3; [vm_compute; intros ?; discriminate | reflexivity].
Defined.

(** ** Joining once *)

(** C10 — [joinMeeting] is guarded by a one-shot flag: the first call sets
    it, any call made while it is set returns at once (same state, no presence
    tracking, no broadcast), and nothing that can happen to the manager
    afterwards, [leaveMeeting] included, clears it; so leaving and joining
    again on the same manager announces nothing. *)
Theorem joinMeeting_is_one_shot (B : Browser) (s : WebRTCManager)
  (es : list Event) :
  isInitialized (joinMeeting s).1 = true ∧
  joinMeeting (set_isInitialized true s) = (set_isInitialized true s, []) ∧
  (let s' := (run B es (joinMeeting s).1).1 in joinMeeting s' = (s', [])) ∧
  (let s' := (leaveMeeting (joinMeeting s).1).1 in
   isInitialized s' = true ∧ joinMeeting s' = (s', [])).
Proof.
  assert (Hset : isInitialized (joinMeeting s).1 = true).
  { unfold joinMeeting. destruct (isInitialized s) eqn:E; done. }
  assert (Hnoop : ∀ s0, isInitialized s0 = true → joinMeeting s0 = (s0, [])).
  { intros s0 H0. unfold joinMeeting. by rewrite H0. }
  assert (Hkeep : ∀ s0 es0, isInitialized s0 = true →
                    isInitialized (run B es0 s0).1 = true).
  { intros s0 es0 H0.
    destruct (steady_run B s0 es0 s0) as (_ & H & _); [|by apply H].
    apply steady_refl. }
  split; [done|]. split; [by apply Hnoop|]. split.
  - intros s'. apply Hnoop. unfold s'. by apply Hkeep.
  - intros s'.
    assert (Hs' : isInitialized s' = true).
    { unfold s'. apply (Hkeep _ [CallLeaveMeeting]) in Hset.
      unfold run in Hset. by rewrite forEach_singleton in Hset. }
    split; [done|]. by apply Hnoop.
Qed.

(** ** Offers outside the glare case *)

Lemma no_rejection_app (a b : list Action) :
  filter is_rejected a = [] → filter is_rejected b = [] →
  filter is_rejected (a ++ b) = [].
Proof. intros Ha Hb. by rewrite filter_app, Ha, Hb. Qed.

Lemma createPeerConnection_actions B pid nm i s :
  filter is_rejected (createPeerConnection B pid nm i s).2 = [].
Proof.
  unfold createPeerConnection, createPeerConnection_setup,
    createPeerConnection_offer.
  rewrite seq_actions. simpl. destruct i; [|done].
  repeat case_match; done.
Qed.

Lemma answerOffer_actions B from offer h s :
  filter is_rejected (answerOffer B from offer h s).2 = [].
Proof. unfold answerOffer. repeat case_match; done. Qed.

Lemma acceptOffer_actions B from offer nm s :
  filter is_rejected (acceptOffer B from offer nm s).2 = [].
Proof.
  unfold acceptOffer. rewrite seq_actions. apply no_rejection_app.
  - apply createPeerConnection_actions.
  - case_match; [apply answerOffer_actions | done].
Qed.

(** [handleOffer] never hands an error to its caller *)
Lemma handleOffer_never_rejects B from to offer nm s :
  filter is_rejected (handleOffer B from to offer nm s).2 = [].
Proof.
  unfold handleOffer. repeat case_match; try done.
  - rewrite !seq_actions. simpl. apply acceptOffer_actions.
  - apply answerOffer_actions.
  - apply acceptOffer_actions.
Qed.

(** C2, as amended — for an Offer addressed to self that is not a glare (the
    sender's record is not in the local-offer-sent state), the remote
    description is applied only if the record's connection is [stable] or
    [have-remote-offer]: in any other state the handler returns the state
    unchanged, so the message is dropped and the record stays in the registry
    as it was; and no input makes the handler raise an error to its
    caller. *)
Theorem out_of_state_offer_is_dropped (B : Browser) (s : WebRTCManager)
  (from : string) (offer : RTCSessionDescriptionInit) (nm : string)
  (pc : PeerConnection) (c : RTCPeerConnection) :
  peers s !! from = Some pc →
  conns s !! peer pc = Some c →
  signalingState c ≠ have_local_offer →
  signalingState c ≠ stable →
  signalingState c ≠ have_remote_offer →
  handleOffer B from (participantId s) offer nm s = (s, []) ∧
  peers (handleOffer B from (participantId s) offer nm s).1 !! from = Some pc ∧
  ∀ s' from' to' offer' nm',
    filter is_rejected (handleOffer B from' to' offer' nm' s').2 = [].
Proof.
  intros Hpc Hc Hglare Hst Hro.
  assert (H : handleOffer B from (participantId s) offer nm s = (s, [])).
  { unfold handleOffer, has_signalingState, answerOffer.
    rewrite bool_decide_eq_false_2 by (by intros ?).
    rewrite Hpc, Hc.
    by rewrite !bool_decide_eq_false_2 by done. }
  split; [done|]. split; [by rewrite H|].
  intros. apply handleOffer_never_rejects.
Qed.

(** what the legal states lead to: the record is dropped exactly when the
    browser refuses a step of the answer *)
Lemma in_state_offer_is_answered B s from offer nm pc c :
  peers s !! from = Some pc →
  conns s !! peer pc = Some c →
  signalingState c = stable ∨ signalingState c = have_remote_offer →
  handleOffer B from (participantId s) offer nm s
  = match setRemoteDescription B c offer with
    | None => (set_peers (delete from) s, [])
    | Some c1 =>
        match createAnswer B c1 with
        | None => (set_peers (delete from) (set_conns <[peer pc := c1]> s), [])
        | Some ans =>
            match setLocalDescription B c1 ans with
            | None =>
                (set_peers (delete from) (set_conns <[peer pc := c1]> s), [])
            | Some c2 =>
                (set_conns <[peer pc := c2]> s,
                 [Send (Answer (participantId s) from ans (participantName s))])
            end
        end
    end.
Proof.
  intros Hpc Hc Hst.
  unfold handleOffer, has_signalingState, answerOffer.
  rewrite bool_decide_eq_false_2 by (by intros ?).
  rewrite Hpc, Hc.
  rewrite (bool_decide_eq_false_2 (signalingState c = have_local_offer))
    by (destruct Hst as [-> | ->]; done).
  replace (bool_decide (signalingState c = stable)
           || bool_decide (signalingState c = have_remote_offer)) with true
    by (destruct Hst as [-> | ->]; done).
  repeat case_match; done.
Qed.

(** C2, as stated, fails: the record of "p2" is waiting in
    [have-remote-pranswer], which is neither of the two legal states nor the
    glare state; an Offer from "p2" is dropped, and the record is still in the
    registry afterwards. *)
Lemma out_of_state_offer_keeps_record :
  let s := bob_awaiting_final_answer in
  let r := handleOffer (jsep (λ _ _, ""%string)) "p2" "p1"
             (mkSdp sdp_offer "o") "Bo" s in
  (∃ pc c, peers s !! "p2"%string = Some pc ∧ conns s !! peer pc = Some c ∧
           signalingState c = have_remote_pranswer) ∧
  peers r.1 !! "p2"%string ≠ None.
Proof.
  intros s r. split.
  - exists (mkPeer "p2" 0 "Bo"). eexists. repeat split; reflexivity.
  - vm_compute. discriminate.
Qed.

Lemma out_of_state_offer_is_dropped_witness :
  let s := bob_awaiting_final_answer in
  handleOffer (jsep (λ _ _, ""%string)) "p2" (participantId s)
    (mkSdp sdp_offer "o") "Bo" s = (s, []).
Proof.
  intros s.
  refine (proj1 (out_of_state_offer_is_dropped (jsep (λ _ _, ""%string)) s
            "p2" (mkSdp sdp_offer "o") "Bo" (mkPeer "p2" 0 "Bo")
            (mkConn have_remote_pranswer conn_new ice_new
               (Some (mkSdp sdp_offer ""))
               (Some (mkSdp sdp_pranswer "early media")) [] [] 0 "p2" "Bo")
            _ _ _ _ _)); first [reflexivity | discriminate].
Defined.

(** ** Statistics *)

(** C8 — the snapshot holds, under each peer id, exactly the report of that
    peer's connection when its query succeeds: a peer whose query fails has no
    entry, and that failure neither stops the loop nor costs any other peer
    its entry. *)
Theorem stats_snapshot_isolates_failures (B : Browser) (s : WebRTCManager)
  (pid : string) :
  getConnectionStats B s !! pid
  = pc ← peers s !! pid; c ← conns s !! peer pc; getStats B (peer pc) c.
Proof.
  unfold getConnectionStats.
  apply (map_fold_weak_ind
    (λ (r : gmap string RTCStatsReport) (m : gmap string PeerConnection),
       r !! pid
       = pc ← m !! pid; c ← conns s !! peer pc; getStats B (peer pc) c)).
  - by rewrite !lookup_empty.
  - intros k pc m r Hk IH.
    destruct (decide (k = pid)) as [->|Hne].
    + rewrite lookup_insert_eq. simpl.
      destruct (conns s !! peer pc) as [c|]; simpl.
      * destruct (getStats B (peer pc) c); simpl.
        -- by rewrite lookup_insert_eq.
        -- by rewrite IH, Hk.
      * by rewrite IH, Hk.
    + rewrite lookup_insert_ne by done. rewrite <- IH.
      repeat case_match; try done. by rewrite lookup_insert_ne.
Qed.

(** ** Leaving *)

Lemma close_idemp c : close (close c) = close c.
Proof. done. Qed.

Lemma closeAll_lookup L : ∀ l h,
  closeAll L l !! h
  = (if bool_decide (h ∈ peer <$> L) then close else id) <$> l !! h.
Proof.
  induction L as [|pc L IH]; intros l h; simpl.
  - by destruct (l !! h).
  - rewrite IH. destruct (decide (h = peer pc)) as [->|Hne].
    + rewrite list_lookup_alter_eq.
      rewrite (bool_decide_eq_true_2 (_ ∈ _ :: _)) by left.
      destruct (l !! peer pc); simpl; [|done]. by case_bool_decide.
    + rewrite list_lookup_alter_ne by done.
      destruct (l !! h); simpl; [|done].
      f_equal. repeat case_bool_decide; try done.
      * exfalso. match goal with H : ¬ _ |- _ => apply H end. by right.
      * match goal with H : h ∈ _ :: _ |- _ =>
          apply elem_of_cons in H as [?|?]; done end.
Qed.

Lemma forEach_closePeer L : ∀ s,
  forEach (λ pc, closePeer (peer pc)) L s = (set_conns (closeAll L) s, []).
Proof.
  induction L as [|pc L IH]; intros s.
  - by destruct s.
  - rewrite forEach_cons. unfold seq. simpl. by rewrite IH.
Qed.

Lemma forEach_stopTrack ts : ∀ s,
  forEach stopTrack ts s
  = (set_stoppedTracks (λ a, a ∪ list_to_set (track_id <$> ts)) s, []).
Proof.
  induction ts as [|t ts IH]; intros s.
  - destruct s; unfold forEach, skip, set_stoppedTracks; simpl.
    do 2 f_equal. by rewrite union_empty_r_L.
  - rewrite forEach_cons. unfold seq. simpl. rewrite IH.
    unfold set_stoppedTracks; simpl. do 2 f_equal.
    by rewrite (assoc_L (∪)).
Qed.

Ltac step_cbn :=
  cbn [fst snd app skip emit modify seq
       localStream peers meetingId participantId participantName
       onStreamCallback onPeerLeftCallback onHandRaisedCallback isInitialized
       reconnectAttempts heartbeatInterval participantCheckInterval
       backgroundBlurEnabled conns signalingSubscribed presenceSubscribed
       activeIntervals disabledTracks stoppedTracks screenTracks
       set_localStream set_peers set_callbacks set_isInitialized
       set_reconnectAttempts set_backgroundBlurEnabled set_conns
       set_subscribed set_activeIntervals set_disabledTracks
       set_stoppedTracks set_screenTracks set_intervals].

Ltac step_cbn_in H :=
  cbn [fst snd app skip emit modify seq
       localStream peers meetingId participantId participantName
       onStreamCallback onPeerLeftCallback onHandRaisedCallback isInitialized
       reconnectAttempts heartbeatInterval participantCheckInterval
       backgroundBlurEnabled conns signalingSubscribed presenceSubscribed
       activeIntervals disabledTracks stoppedTracks screenTracks
       set_localStream set_peers set_callbacks set_isInitialized
       set_reconnectAttempts set_backgroundBlurEnabled set_conns
       set_subscribed set_activeIntervals set_disabledTracks
       set_stoppedTracks set_screenTracks set_intervals] in H.

Lemma manager_ext (s1 s2 : WebRTCManager) :
  localStream s1 = localStream s2 → peers s1 = peers s2 →
  meetingId s1 = meetingId s2 → participantId s1 = participantId s2 →
  participantName s1 = participantName s2 →
  onStreamCallback s1 = onStreamCallback s2 →
  onPeerLeftCallback s1 = onPeerLeftCallback s2 →
  onHandRaisedCallback s1 = onHandRaisedCallback s2 →
  isInitialized s1 = isInitialized s2 →
  reconnectAttempts s1 = reconnectAttempts s2 →
  heartbeatInterval s1 = heartbeatInterval s2 →
  participantCheckInterval s1 = participantCheckInterval s2 →
  backgroundBlurEnabled s1 = backgroundBlurEnabled s2 →
  conns s1 = conns s2 →
  signalingSubscribed s1 = signalingSubscribed s2 →
  presenceSubscribed s1 = presenceSubscribed s2 →
  activeIntervals s1 = activeIntervals s2 →
  disabledTracks s1 = disabledTracks s2 →
  stoppedTracks s1 = stoppedTracks s2 →
  screenTracks s1 = screenTracks s2 →
  s1 = s2.
Proof. destruct s1, s2; cbn; intros; by subst. Qed.

Lemma leaveMeeting_state s : (leaveMeeting s).1 = after_leave s.
Proof.
  unfold leaveMeeting. rewrite !seq_state.
  unfold forEachPeer, clearInterval.
  destruct (heartbeatInterval s) as [hb|] eqn:Ehb;
    destruct (participantCheckInterval s) as [pl|] eqn:Epl; step_cbn.
  all: rewrite ?Ehb, ?Epl; step_cbn.
  all: rewrite forEach_closePeer; step_cbn.
  all: destruct (localStream s) as [ts|] eqn:Ets; step_cbn.
  all: rewrite ?forEach_stopTrack; step_cbn.
  all: apply manager_ext; unfold after_leave, timer_ids, stop_ids; step_cbn.
  all: rewrite ?Ehb, ?Epl, ?Ets.
  all: rewrite ?difference_difference_l_L, ?union_empty_l_L,
         ?union_empty_r_L, ?difference_empty_L; reflexivity.
Qed.

Lemma leaveMeeting_actions s : (leaveMeeting s).2 = leave_actions s.
Proof.
  unfold leaveMeeting. rewrite !seq_actions, ?seq_state.
  unfold forEachPeer, clearInterval, leave_actions.
  destruct (heartbeatInterval s) as [hb|] eqn:Ehb;
    destruct (participantCheckInterval s) as [pl|] eqn:Epl; step_cbn.
  all: rewrite ?Ehb, ?Epl; step_cbn.
  all: rewrite forEach_closePeer; step_cbn.
  all: destruct (localStream s) as [ts|] eqn:Ets; step_cbn.
  all: rewrite ?forEach_stopTrack; step_cbn.
  all: reflexivity.
Qed.

Lemma leaveMeeting_eq s : leaveMeeting s = (after_leave s, leave_actions s).
Proof.
  apply injective_projections;
    [apply leaveMeeting_state | apply leaveMeeting_actions].
Qed.

Lemma after_leave_idemp s : after_leave (after_leave s) = after_leave s.
Proof.
  apply manager_ext; unfold after_leave, timer_ids, stop_ids; step_cbn;
    try reflexivity.
  - apply difference_twice_L.
  - by rewrite <- (assoc_L (∪)), (idemp_L (∪)).
Qed.

(** C6 — [leaveMeeting] closes the connection of every record, empties the
    registry, cancels the heartbeat and the poll timer, removes itself from
    presence, broadcasts [user-left] and unsubscribes both channels, without
    raising; and it can be repeated: run on the state it leaves behind, any
    number of times, it gives that state back and again raises nothing. *)
Theorem leaveMeeting_tears_down_and_repeats (s : WebRTCManager) (n : nat) :
  let r := leaveMeeting s in
  peers r.1 = ∅ ∧
  map_Forall (λ _ pc, conns r.1 !! peer pc = close <$> conns s !! peer pc)
    (peers s) ∧
  activeIntervals r.1 = activeIntervals s ∖ timer_ids s ∧
  r.2 = match heartbeatInterval s with
        | Some t => [ClearInterval t]
        | None => []
        end
        ++ match participantCheckInterval s with
           | Some t => [ClearInterval t]
           | None => []
           end
        ++ [PresenceUntrack; Send (UserLeft (participantId s));
            Unsubscribe Signaling; Unsubscribe Presence] ∧
  signalingSubscribed r.1 = false ∧ presenceSubscribed r.1 = false ∧
  filter is_rejected r.2 = [] ∧
  (leaveMeeting r.1).1 = r.1 ∧
  filter is_rejected (leaveMeeting r.1).2 = [] ∧
  Nat.iter n (λ s', (leaveMeeting s').1) r.1 = r.1.
Proof.
  intros r. unfold r. rewrite !leaveMeeting_eq. cbn [fst snd].
  rewrite ?leaveMeeting_eq. cbn [fst snd].
  assert (Hrej : ∀ s', filter is_rejected (leave_actions s') = []).
  { intros s'. unfold leave_actions.
    destruct (heartbeatInterval s'), (participantCheckInterval s'); done. }
  repeat split; try done.
  - intros pid pc Hpc. cbn [after_leave conns]. rewrite closeAll_lookup.
    rewrite bool_decide_eq_true_2; [done|].
    apply list_elem_of_fmap. exists pc. split; [done|].
    apply list_elem_of_fmap. exists (pid, pc). split; [done|].
    by apply elem_of_map_to_list.
  - apply after_leave_idemp.
  - induction n as [|n IH]; [done|]. simpl. rewrite IH.
    rewrite leaveMeeting_eq. apply after_leave_idemp.
Qed.

(** ** Reconnection *)

Lemma handleConnectionFailure_eq pid nm s :
  handleConnectionFailure pid nm s
  = let s1 := match peers s !! pid with
              | Some pc => set_peers (delete pid)
                             (set_conns (alter close (peer pc)) s)
              | None => s
              end in
    let a1 := match peers s !! pid with
              | Some _ => if onPeerLeftCallback s then [NotifyPeerLeft pid]
                          else []
              | None => []
              end in
    if bool_decide (reconnectAttempts s < maxReconnectAttempts)
    then (set_reconnectAttempts (S (reconnectAttempts s)) s1,
          a1 ++ [SetTimeout (Reconnect pid nm) (2000 * S (reconnectAttempts s))])
    else (s1, a1).
Proof.
  unfold handleConnectionFailure, seq, notifyPeerLeft, closePeer, modify,
    emit, skip.
  destruct (peers s !! pid) as [pc|]; simpl.
  - destruct (onPeerLeftCallback s); simpl;
      case_bool_decide; simpl; by rewrite ?app_nil_r.
  - case_bool_decide; done.
Qed.

(** *** The counter pays for every retry *)

Lemma armed_app a b : armed (a ++ b) = armed a + armed b.
Proof. unfold armed. by rewrite filter_app, length_app. Qed.

Lemma paid_seq (f g : Step) s :
  (∀ s', paid s' (f s')) → (∀ s', paid s' (g s')) → paid s ((f ;; g) s).
Proof.
  intros Hf Hg. unfold paid. rewrite seq_state, seq_actions, armed_app.
  pose proof (Hf s) as H1. pose proof (Hg (f s).1) as H2.
  unfold paid in H1, H2. lia.
Qed.

Lemma paid_forEach {A} (f : A → Step) l : ∀ s,
  (∀ x s', paid s' (f x s')) → paid s (forEach f l s).
Proof.
  induction l as [|x l IH]; intros s Hf.
  - unfold paid. cbn. lia.
  - rewrite forEach_cons. apply paid_seq; [apply Hf|].
    intros s'. by apply IH.
Qed.

Lemma paid_forEachPeer f s :
  (∀ pc s', paid s' (f pc s')) → paid s (forEachPeer f s).
Proof. intros Hf. unfold forEachPeer. by apply paid_forEach. Qed.

Create HintDb paid.

Ltac paid_leaf :=
  unfold paid; cbn [skip emit modify fst snd armed];
  rewrite ?filter_nil, ?filter_cons; cbn; simpl in *; lia.

Ltac paid_go :=
  cbv beta;
  lazymatch goal with
  | |- paid _ (seq ?f ?g ?s) =>
      apply paid_seq; [intros ?; paid_go | intros ?; paid_go]
  | |- paid _ (forEach ?f ?l ?s) =>
      apply paid_forEach; intros ? ?; paid_go
  | |- paid _ (forEachPeer ?f ?s) =>
      apply paid_forEachPeer; intros ? ?; paid_go
  | |- paid _ (skip _) => paid_leaf
  | |- paid _ (emit _ _) => paid_leaf
  | |- paid _ (modify _ _) => paid_leaf
  | |- context [match ?x with _ => _ end] => destruct x eqn:?; paid_go
  | _ => solve [eauto with paid]
  end.

Section Paid.
Variable B : Browser.

Lemma paid_closePeer h s : paid s (closePeer h s).
Proof. unfold closePeer. paid_go. Qed.

Lemma paid_notifyPeerLeft q s : paid s (notifyPeerLeft q s).
Proof. unfold notifyPeerLeft. paid_go. Qed.

Lemma paid_clearInterval t s : paid s (clearInterval t s).
Proof. unfold clearInterval. paid_go. Qed.

Lemma paid_stopTrack t s : paid s (stopTrack t s).
Proof. unfold stopTrack. paid_go. Qed.

Lemma paid_setupSignaling s : paid s (setupSignaling s).
Proof. unfold setupSignaling. paid_go. Qed.

Lemma handleSystem_eq status s :
  handleSystem status s
  = if bool_decide (status = "CHANNEL_ERROR"%string)
       && bool_decide (reconnectAttempts s < maxReconnectAttempts)
    then (set_reconnectAttempts (S (reconnectAttempts s)) s,
          [SetTimeout Resubscribe (1000 * S (reconnectAttempts s))])
    else (s, []).
Proof. unfold handleSystem. by destruct (_ && _). Qed.

Lemma paid_handleSystem st s : paid s (handleSystem st s).
Proof.
  rewrite handleSystem_eq. unfold paid.
  destruct (_ && _); cbn [fst snd reconnectAttempts set_reconnectAttempts];
    unfold armed; rewrite ?filter_cons, ?filter_nil; cbn [is_retry];
    repeat case_decide; try done; cbn [length]; lia.
Qed.

Lemma paid_createPeerConnection q n i s :
  paid s (createPeerConnection B q n i s).
Proof.
  unfold createPeerConnection, createPeerConnection_setup,
    createPeerConnection_offer. paid_go.
Qed.
Hint Resolve paid_closePeer paid_notifyPeerLeft paid_clearInterval
  paid_stopTrack paid_setupSignaling paid_createPeerConnection : paid.

Lemma paid_handleUserJoined q n s : paid s (handleUserJoined B q n s).
Proof. unfold handleUserJoined. paid_go. Qed.

Lemma paid_handleUserLeft q s : paid s (handleUserLeft q s).
Proof. unfold handleUserLeft. paid_go. Qed.
Hint Resolve paid_handleUserJoined paid_handleUserLeft : paid.

Lemma paid_checkForNewParticipants r s :
  paid s (checkForNewParticipants B r s).
Proof. unfold checkForNewParticipants, pollRow. paid_go. Qed.

Lemma paid_handleConnectionFailure q n s :
  paid s (handleConnectionFailure q n s).
Proof.
  rewrite handleConnectionFailure_eq. unfold paid.
  destruct (peers s !! q); destruct (onPeerLeftCallback s);
    case_bool_decide; cbn [fst snd reconnectAttempts set_reconnectAttempts
                            set_peers set_conns];
    rewrite ?armed_app; unfold armed;
    rewrite ?filter_cons, ?filter_nil; cbn [is_retry];
    repeat case_decide; try done; cbn [length]; lia.
Qed.
Hint Resolve paid_checkForNewParticipants paid_handleConnectionFailure : paid.

Lemma paid_answerOffer from o h s : paid s (answerOffer B from o h s).
Proof. unfold answerOffer. paid_go. Qed.
Hint Resolve paid_answerOffer : paid.

Lemma paid_handleOffer from to o n s : paid s (handleOffer B from to o n s).
Proof. unfold handleOffer, acceptOffer. paid_go. Qed.

Lemma paid_substituteVideo t h s : paid s (substituteVideo t h s).
Proof. unfold substituteVideo. paid_go. Qed.
Hint Resolve paid_substituteVideo : paid.

Lemma paid_applyBackgroundBlur c s : paid s (applyBackgroundBlur B c s).
Proof. unfold applyBackgroundBlur. paid_go. Qed.

Lemma paid_removeBackgroundBlur c s : paid s (removeBackgroundBlur c s).
Proof. unfold removeBackgroundBlur. paid_go. Qed.
Hint Resolve paid_applyBackgroundBlur paid_removeBackgroundBlur : paid.

Lemma paid_leaveMeeting s : paid s (leaveMeeting s).
Proof. unfold leaveMeeting. paid_go. Qed.

Lemma paid_joinMeeting s : paid s (joinMeeting s).
Proof. unfold joinMeeting. paid_go. Qed.

Lemma paid_dispatch e s : resets e = false → paid s (dispatch B e s).
Proof.
  intros Hr. destruct e; cbn [dispatch]; try discriminate;
    try solve [eauto with paid];
    try match goal with |- context [fire _ ?k _] => destruct k; cbn [fire] end;
    try solve [eauto with paid];
    try apply paid_handleOffer; try apply paid_leaveMeeting;
    try apply paid_joinMeeting; try apply paid_handleSystem;
    try done;
    try match goal with
      | |- context [onconnectionstatechange _ ?st] =>
          destruct st; try discriminate
      end;
    unfold handleAnswer, handleIceCandidate, handleHandRaised,
      handleMediaStateChanged, handlePresenceSync, handlePresenceJoin,
      handlePresenceLeave, heartbeatTick, graceCheck, reannounce,
      onconnectionstatechange, oniceconnectionstatechange, onicecandidate,
      ontrack, onended, initializeMedia, toggleBackgroundBlur,
      startScreenShare, toggleAudio, toggleVideo, raiseHand, onStream,
      onPeerLeft, onHandRaised;
    paid_go.
Qed.

Lemma paid_run es : ∀ s,
  Forall (λ e, resets e = false) es → paid s (run B es s).
Proof.
  unfold run. induction es as [|e es IH]; intros s Hes.
  - unfold paid. cbn. lia.
  - apply Forall_cons in Hes as [He Hes].
    rewrite forEach_cons. apply paid_seq; [intros s'; by apply paid_dispatch|].
    intros s'. by apply IH.
Qed.
End Paid.

(** *** Who can come back into the registry *)

Lemma holds_forEach_in {A} (P : WebRTCManager → Prop) (f : A → Step) l : ∀ s,
  P s → (∀ x s', x ∈ l → P s' → P (f x s').1) → P (forEach f l s).1.
Proof.
  induction l as [|x l IH]; intros s H Hf; [done|].
  rewrite forEach_cons, seq_state. apply IH.
  - apply Hf; [left | done].
  - intros y s' Hy. apply Hf. by right.
Qed.

Create HintDb absent.

Ltac absent_leaf :=
  unfold absent in *; cbn [modify fst]; step_cbn;
  rewrite ?lookup_delete_None, ?lookup_empty;
  first [ assumption | by right | by rewrite lookup_insert_ne by congruence
        | done ].

Ltac absent_go := inv_go ltac:(absent_leaf) ltac:(eauto with absent).

Section Absent.
Variable B : Browser.
Variable pid : string.

Lemma absent_closePeer h s : absent pid s → absent pid (closePeer h s).1.
Proof. intros H. unfold closePeer. absent_go. Qed.

Lemma absent_notifyPeerLeft q s : absent pid s → absent pid (notifyPeerLeft q s).1.
Proof. intros H. unfold notifyPeerLeft. absent_go. Qed.

Lemma absent_clearInterval t s : absent pid s → absent pid (clearInterval t s).1.
Proof. intros H. unfold clearInterval. absent_go. Qed.

Lemma absent_stopTrack t s : absent pid s → absent pid (stopTrack t s).1.
Proof. intros H. unfold stopTrack. absent_go. Qed.

Lemma absent_setupSignaling s : absent pid s → absent pid (setupSignaling s).1.
Proof. intros H. unfold setupSignaling. absent_go. Qed.

Lemma absent_handleSystem st s : absent pid s → absent pid (handleSystem st s).1.
Proof. intros H. unfold handleSystem. absent_go. Qed.

Lemma absent_createPeerConnection q n i s :
  q ≠ pid → absent pid s → absent pid (createPeerConnection B q n i s).1.
Proof.
  intros Hne H. unfold createPeerConnection, createPeerConnection_setup,
    createPeerConnection_offer. absent_go.
Qed.
Hint Resolve absent_closePeer absent_notifyPeerLeft absent_clearInterval
  absent_stopTrack absent_setupSignaling absent_createPeerConnection : absent.

Lemma absent_handleUserJoined q n s :
  q ≠ pid → absent pid s → absent pid (handleUserJoined B q n s).1.
Proof. intros Hne H. unfold handleUserJoined. absent_go. Qed.

Lemma absent_handleUserLeft q s : absent pid s → absent pid (handleUserLeft q s).1.
Proof. intros H. unfold handleUserLeft. absent_go. Qed.

Lemma absent_handleConnectionFailure q n s :
  absent pid s → absent pid (handleConnectionFailure q n s).1.
Proof. intros H. unfold handleConnectionFailure. absent_go. Qed.
Hint Resolve absent_handleUserJoined absent_handleUserLeft
  absent_handleConnectionFailure : absent.

Lemma absent_answerOffer from o h s :
  absent pid s → absent pid (answerOffer B from o h s).1.
Proof. intros H. unfold answerOffer. absent_go. Qed.
Hint Resolve absent_answerOffer : absent.

Lemma absent_handleOffer from to o n s :
  from ≠ pid → absent pid s → absent pid (handleOffer B from to o n s).1.
Proof. intros Hne H. unfold handleOffer, acceptOffer. absent_go. Qed.

Lemma absent_substituteVideo t h s :
  absent pid s → absent pid (substituteVideo t h s).1.
Proof. intros H. unfold substituteVideo. absent_go. Qed.
Hint Resolve absent_substituteVideo : absent.

Lemma absent_applyBackgroundBlur c s :
  absent pid s → absent pid (applyBackgroundBlur B c s).1.
Proof. intros H. unfold applyBackgroundBlur. absent_go. Qed.

Lemma absent_removeBackgroundBlur c s :
  absent pid s → absent pid (removeBackgroundBlur c s).1.
Proof. intros H. unfold removeBackgroundBlur. absent_go. Qed.
Hint Resolve absent_applyBackgroundBlur absent_removeBackgroundBlur : absent.

Lemma absent_leaveMeeting s : absent pid s → absent pid (leaveMeeting s).1.
Proof. intros H. unfold leaveMeeting. absent_go. Qed.

Lemma absent_checkForNewParticipants r s :
  pid ∉ roster_ids r → absent pid s →
  absent pid (checkForNewParticipants B r s).1.
Proof.
  intros Hout H. unfold checkForNewParticipants.
  destruct r as [|[rows|]]; [done| |done].
  apply holds_forEach_in; [done|]. intros p s' Hp Hs'.
  assert (Hne : participant_id p ≠ pid).
  { intros <-. apply Hout. cbn. apply list_elem_of_fmap. by exists p. }
  unfold pollRow. absent_go.
Qed.

Lemma absent_dispatch e s :
  pid ∉ introduces e → absent pid s → absent pid (dispatch B e s).1.
Proof.
  intros Hout H.
  destruct e; cbn [dispatch introduces] in *;
    try match goal with |- context [fire _ ?k _] =>
          destruct k; cbn [fire introduces] in * end;
    try (by apply absent_checkForNewParticipants);
    try (apply absent_handleOffer; [|done]; intros ->; apply Hout; by left);
    try (apply absent_handleUserJoined; [|done]; intros ->; apply Hout; by left);
    try (apply absent_createPeerConnection; [|done]; intros ->; apply Hout;
         by left);
    try solve [eauto with absent];
    try apply absent_leaveMeeting; try apply absent_handleSystem; try done.
  all: try solve [
    unfold handleAnswer, handleIceCandidate, handleHandRaised,
      handleMediaStateChanged, handlePresenceLeave, heartbeatTick, graceCheck,
      reannounce, onconnectionstatechange, oniceconnectionstatechange,
      onicecandidate, ontrack, onended, initializeMedia, toggleBackgroundBlur,
      startScreenShare, joinMeeting, toggleAudio, toggleVideo, raiseHand,
      onStream, onPeerLeft, onHandRaised, refreshConnection;
    absent_go ].
  - (* presence sync *)
    unfold handlePresenceSync.
    apply holds_forEach_in; [done|]. intros kv s1 Hkv Hs1.
    apply holds_forEach_in; [done|]. intros p s2 Hp Hs2.
    assert (Hne : presence_participantId p ≠ pid).
    { intros <-. apply Hout. apply list_elem_of_fmap. exists p. split; [done|].
      apply list_elem_of_join. exists kv.2. split; [done|].
      apply list_elem_of_fmap. by exists kv. }
    absent_go.
  - (* presence join *)
    unfold handlePresenceJoin.
    apply holds_forEach_in; [done|]. intros p s2 Hp Hs2.
    assert (Hne : presence_participantId p ≠ pid).
    { intros <-. apply Hout. apply list_elem_of_fmap. by exists p. }
    absent_go.
Qed.

Lemma absent_run es : ∀ s,
  Forall (λ e, pid ∉ introduces e) es → absent pid s →
  absent pid (run B es s).1.
Proof.
  unfold run. induction es as [|e es IH]; intros s Hes H; [done|].
  apply Forall_cons in Hes as [He Hes].
  rewrite forEach_cons, seq_state. apply IH; [done|].
  by apply absent_dispatch.
Qed.
End Absent.

Lemma reconnects_to_le_armed p acts : reconnects_to p acts ≤ armed acts.
Proof.
  unfold reconnects_to, armed.
  induction acts as [|a acts IH]; [done|].
  rewrite !filter_cons.
  destruct a as [| | | | |k ms| | | | | |]; cbn [is_reconnect_to is_retry];
    try (repeat case_decide; try done; cbn [length]; lia).
  destruct k; cbn; repeat case_decide; try done; cbn [length]; try lia.
  all: exfalso; try done.
Qed.

(** C3, as amended — the retry counter is one counter for the whole manager
    and is at most 5 in every state the manager can reach.  The reconnection
    procedure, run for a peer in such a state, closes and drops the peer's
    record; while the counter is below 5 it increments it to N (so
    1 ≤ N ≤ 5) and arms exactly one timer, for a fresh offering attempt to
    that peer after N × 2000 ms; at 5 it arms no timer and leaves the counter
    alone.  A join for that id then makes a new connection.  A connection
    reaching [connected], to whichever peer, sets the counter back to zero,
    and so does [refreshConnection].  Along later events in which no
    connection reaches [connected] and [refreshConnection] is not called, the
    counter rises by exactly the number of retries armed, for all peers and
    the signalling channel together, so at most five are armed in such a
    stretch, to this peer or to any other.  After the procedure has run, the
    peer stays out of the registry through every later event that is not a
    join event naming it, an offer from it or a reconnect timer armed for
    it. *)
Theorem reconnection_is_capped (B : Browser) (meeting me myName : string)
  (hb poll : nat) (es : list Event) (pid nm : string) (h : nat) :
  let s := (run B es (new_WebRTCManager meeting me myName hb poll).1).1 in
  let r := handleConnectionFailure pid nm s in
  let N := S (reconnectAttempts s) in
  reconnectAttempts s ≤ 5 ∧
  peers r.1 !! pid = None ∧
  conns r.1 = match peers s !! pid with
              | Some pc => alter close (peer pc) (conns s)
              | None => conns s
              end ∧
  (if bool_decide (reconnectAttempts s < 5)
   then reconnectAttempts r.1 = N ∧ 1 ≤ N ≤ 5 ∧
        filter is_setTimeout r.2 = [SetTimeout (Reconnect pid nm) (N * 2000)] ∧
        fire B (Reconnect pid nm) RosterError
          = createPeerConnection B pid nm true
   else reconnectAttempts r.1 = 5 ∧ filter is_setTimeout r.2 = []) ∧
  handleUserJoined B pid nm r.1
    = (if bool_decide (pid = me) then (r.1, [])
       else createPeerConnection B pid nm true r.1) ∧
  reconnectAttempts (dispatch B (ConnectionStateChange h connected) s).1
    = match conns s !! h with Some _ => 0 | None => reconnectAttempts s end ∧
  reconnectAttempts (dispatch B CallRefreshConnection s).1 = 0 ∧
  (∀ later, Forall (λ e, resets e = false) later →
     let r' := run B later s in
     reconnectAttempts r'.1 = reconnectAttempts s + armed r'.2 ∧
     reconnects_to pid r'.2 ≤ armed r'.2 ∧
     armed r'.2 ≤ 5) ∧
  (∀ later, Forall (λ e, pid ∉ introduces e) later →
     peers (run B later r.1).1 !! pid = None).
Proof.
  intros s r N.
  pose proof (steady_run B _ es _
                (steady_refl (new_WebRTCManager meeting me myName hb poll).1))
    as Hs.
  fold s in Hs.
  assert (Hbudget : ∀ later, Forall (λ e, resets e = false) later →
            reconnectAttempts (run B later s).1
            = reconnectAttempts s + armed (run B later s).2 ∧
            reconnects_to pid (run B later s).2 ≤ armed (run B later s).2 ∧
            armed (run B later s).2 ≤ 5).
  { intros later Hlater.
    pose proof (paid_run B later s Hlater) as Hpaid. unfold paid in Hpaid.
    pose proof (steady_run B _ later _ Hs) as (Hcap & _).
    change (reconnectAttempts (new_WebRTCManager meeting me myName hb poll).1)
      with 0 in Hcap.
    unfold maxReconnectAttempts in Hcap.
    split; [done|]. split; [apply reconnects_to_le_armed | lia]. }
  assert (Hgone : absent pid r.1).
  { unfold r, absent. rewrite handleConnectionFailure_eq.
    destruct (peers s !! pid) as [pc|] eqn:Hpc; case_bool_decide; cbn;
      first [apply lookup_delete_eq | done]. }
  assert (Hstays : ∀ later, Forall (λ e, pid ∉ introduces e) later →
            peers (run B later r.1).1 !! pid = None).
  { intros later Hlater. by apply (absent_run B pid later r.1). }
  revert Hbudget Hstays. generalize (run B) as runB. intros runB Hbudget Hstays.
  destruct Hs as (Hcap & _ & Hme & _).
  simpl in Hcap, Hme. unfold maxReconnectAttempts in Hcap.
  assert (Hcap' : reconnectAttempts s ≤ 5) by lia. clear Hcap.
  revert Hstays. unfold r, N. rewrite handleConnectionFailure_eq.
  unfold maxReconnectAttempts.
  replace (S (reconnectAttempts s) * 2000)
    with (2000 * S (reconnectAttempts s)) by lia.
  generalize (2000 * S (reconnectAttempts s)) as d; intros d.
  intros Hstays.
  split; [done|].
  destruct (peers s !! pid) as [pc|] eqn:Hpc;
    destruct (bool_decide (reconnectAttempts s < 5)) eqn:Hlt; simpl.
  all: try apply bool_decide_eq_true in Hlt.
  all: try apply bool_decide_eq_false in Hlt.
  all: simpl in Hstays.
  all: repeat split; try done; try lia.
  all: try apply lookup_delete_eq.
  all: try (rewrite filter_app; by destruct (onPeerLeftCallback s)).
  all: try (destruct (onPeerLeftCallback s); done).
  all: try (unfold handleUserJoined; simpl; rewrite Hme;
            case_bool_decide; [done|];
            rewrite bool_decide_eq_false_2; [done|];
            rewrite ?lookup_delete_eq, ?Hpc; by intros [? ?]).
  all: try (unfold onconnectionstatechange; by destruct (conns s !! h)).
  all: try (unfold refreshConnection, forEachPeer; rewrite !seq_state;
            by rewrite forEach_closePeer).
  all: match goal with
       | H : Forall _ ?l |- _ => destruct (Hbudget l H) as (? & ? & ?)
       end; first [done | lia].
Qed.

(** ** Substituting the outgoing video track *)

Lemma same_but_senders_refl c : same_but_senders c c.
Proof. done. Qed.

Lemma same_but_senders_trans c1 c2 c3 :
  same_but_senders c1 c2 → same_but_senders c2 c3 → same_but_senders c1 c3.
Proof. unfold same_but_senders. congruence. Qed.

Lemma same_but_senders_signalingState c c' :
  same_but_senders c c' → signalingState c' = signalingState c.
Proof.
  intros H. apply (f_equal signalingState) in H. exact H.
Qed.

Lemma negotiation_untouched_refl s : negotiation_untouched s s.
Proof.
  split; [done|]. apply Forall2_same_length_lookup. split; [done|].
  intros i x y Hx Hy. rewrite Hx in Hy. by injection Hy as ->.
Qed.

Lemma negotiation_untouched_trans s1 s2 s3 :
  negotiation_untouched s1 s2 → negotiation_untouched s2 s3 →
  negotiation_untouched s1 s3.
Proof.
  intros [Hp1 Hc1] [Hp2 Hc2]. split; [congruence|].
  eapply Forall2_trans; [|exact Hc1|exact Hc2].
  intros. by eapply same_but_senders_trans.
Qed.

Lemma replaceTrack_same_but_senders i t c :
  same_but_senders c (replaceTrack i t c).
Proof. unfold replaceTrack. by case_decide. Qed.

Lemma media_only_skip : media_only skip.
Proof. intros s. split; [apply negotiation_untouched_refl | done]. Qed.

Lemma media_only_seq f g : media_only f → media_only g → media_only (f ;; g).
Proof.
  intros Hf Hg s. rewrite seq_state, seq_actions.
  destruct (Hf s) as [Hf1 Hf2]. destruct (Hg (f s).1) as [Hg1 Hg2].
  split; [by eapply negotiation_untouched_trans|].
  by rewrite filter_app, Hf2, Hg2.
Qed.

Lemma media_only_forEach {A} (f : A → Step) l :
  (∀ x, media_only (f x)) → media_only (forEach f l).
Proof.
  intros Hf. induction l as [|x l IH]; [apply media_only_skip|].
  rewrite forEach_cons. by apply media_only_seq.
Qed.

Lemma media_only_forEachPeer f :
  (∀ pc, media_only (f pc)) → media_only (forEachPeer f).
Proof. intros Hf s. unfold forEachPeer. by apply media_only_forEach. Qed.

Lemma media_only_substituteVideo t h : media_only (substituteVideo t h).
Proof.
  intros s. unfold substituteVideo.
  destruct (conns s !! h) as [c|] eqn:Hc; [|apply media_only_skip].
  destruct (find_video_sender (senders c)) as [i|]; [|apply media_only_skip].
  split; [|done]. split; [done|]. step_cbn.
  apply Forall2_same_length_lookup. split; [by rewrite length_insert|].
  intros j x y Hx Hy. destruct (decide (j = h)) as [->|Hne].
  - rewrite list_lookup_insert_eq in Hy by (by eapply lookup_lt_Some).
    rewrite Hc in Hx. injection Hx as <-. injection Hy as <-.
    apply replaceTrack_same_but_senders.
  - rewrite list_lookup_insert_ne in Hy by done.
    rewrite Hx in Hy. by injection Hy as ->.
Qed.

(** a step that leaves the registry and the connections alone altogether *)
Lemma media_only_modify g :
  (∀ s, peers (g s) = peers s) → (∀ s, conns (g s) = conns s) →
  media_only (modify g).
Proof.
  intros Hp Hc s. split; [|done]. split; [apply Hp|].
  cbn [modify fst]. rewrite Hc. apply negotiation_untouched_refl.
Qed.

Lemma media_only_forEach_stopTrack ts : media_only (forEach stopTrack ts).
Proof.
  apply media_only_forEach. intros t. by apply media_only_modify.
Qed.

Lemma media_only_startScreenShare display :
  media_only (startScreenShare display).
Proof.
  unfold startScreenShare.
  destruct display as [screenStream|]; [|by intros s; split;
    [apply negotiation_untouched_refl|]].
  destruct (head (video_tracks screenStream)) as [v|];
    [|by intros s; split; [apply negotiation_untouched_refl|]].
  apply media_only_seq.
  - apply media_only_forEachPeer. intros pc. apply media_only_substituteVideo.
  - by apply media_only_modify.
Qed.

Lemma media_only_onended t : media_only (onended t).
Proof.
  intros s. unfold onended.
  case_bool_decide; [|apply media_only_skip].
  destruct (localStream s) as [ts|]; [|apply media_only_skip].
  destruct (head (video_tracks ts)) as [v|]; [|apply media_only_skip].
  apply media_only_forEachPeer. intros pc. apply media_only_substituteVideo.
Qed.

Lemma media_only_applyBackgroundBlur B canvas :
  media_only (applyBackgroundBlur B canvas).
Proof.
  intros s. unfold applyBackgroundBlur.
  destruct (hasTrackProcessor B); [|apply media_only_skip]. cbn [negb].
  destruct (localStream s) as [ts|]; [|apply media_only_skip].
  destruct (video_tracks ts) as [|v l]; [apply media_only_skip|].
  apply media_only_seq.
  - apply media_only_forEachPeer. intros pc. apply media_only_substituteVideo.
  - by apply media_only_modify.
Qed.

Lemma media_only_removeBackgroundBlur cam :
  media_only (removeBackgroundBlur cam).
Proof.
  unfold removeBackgroundBlur. destruct cam as [newStream|];
    [|apply media_only_skip].
  apply media_only_seq.
  - apply media_only_forEachPeer. intros pc. apply media_only_substituteVideo.
  - intros s. destruct (localStream s) as [ts|]; [|apply media_only_skip].
    apply media_only_seq; [apply media_only_forEach_stopTrack|].
    destruct (head (video_tracks ts)), (head (video_tracks newStream));
      first [by apply media_only_modify | apply media_only_skip].
Qed.

Lemma media_only_toggleBackgroundBlur B enabled canvas cam :
  media_only (toggleBackgroundBlur B enabled canvas cam).
Proof.
  unfold toggleBackgroundBlur. apply media_only_seq;
    [by apply media_only_modify|].
  intros s. destruct (localStream s) as [ts|]; [|apply media_only_skip].
  case_bool_decide; [|apply media_only_skip].
  destruct enabled;
    [apply media_only_applyBackgroundBlur | apply media_only_removeBackgroundBlur].
Qed.

Lemma filter_none {A} (P : A → Prop) `{∀ x, Decision (P x)} (l : list A) :
  (∀ x, x ∈ l → ¬ P x) → filter P l = [].
Proof.
  induction l as [|x l IH]; intros Hl; [done|].
  rewrite filter_cons. rewrite decide_False by (apply Hl; left).
  apply IH. intros y Hy. apply Hl. by right.
Qed.

Lemma visits_own_connection (m : gmap string PeerConnection) pid pc :
  m !! pid = Some pc →
  (∀ pid' pc', m !! pid' = Some pc' → peer pc' = peer pc → pid' = pid) →
  visits (peer pc) (map_to_list m).*2 = 1.
Proof.
  intros Hpc Huniq. unfold visits.
  rewrite <- (map_to_list_delete m pid pc Hpc).
  rewrite fmap_cons, filter_cons. cbn [snd]. rewrite decide_True by done.
  rewrite filter_none; [done|].
  intros pc' Hin Heq.
  apply list_elem_of_fmap in Hin as ([pid' pc''] & -> & Hin).
  apply elem_of_map_to_list in Hin. cbn [snd] in Heq.
  destruct (decide (pid' = pid)) as [->|Hne].
  - by rewrite lookup_delete_eq in Hin.
  - rewrite lookup_delete_ne in Hin by done.
    by apply Hne, (Huniq pid' pc'').
Qed.

Lemma find_video_sender_lookup l i :
  find_video_sender l = Some i →
  ∃ x, l !! i = Some x ∧ is_video_sender x = true.
Proof.
  revert i. induction l as [|x l IH]; intros i; [done|]. cbn.
  destruct (is_video_sender x) eqn:Ex.
  - intros [= <-]. by exists x.
  - destruct (find_video_sender l) as [j|]; [|done]. cbn.
    intros [= <-]. by apply IH.
Qed.

Lemma find_video_sender_alter l i v mb mf :
  find_video_sender l = Some i → kind v = Video →
  find_video_sender
    (alter (λ x, mkSender (Some v) (mb x) (mf x)) i l) = Some i.
Proof.
  intros Hfind Hv. revert i Hfind.
  induction l as [|x l IH]; intros i; [done|]. cbn.
  destruct (is_video_sender x) eqn:Ex.
  - intros [= <-]. cbn. unfold is_video_sender. cbn.
    by rewrite bool_decide_eq_true_2.
  - destruct (find_video_sender l) as [j|] eqn:Ej; [|done]. cbn.
    intros [= <-]. cbn. rewrite Ex. by rewrite (IH j).
Qed.

Lemma substituteVideo_elsewhere t h h' s :
  h ≠ h' →
  substitutions h (substituteVideo t h' s).2 = 0 ∧
  conns (substituteVideo t h' s).1 !! h = conns s !! h.
Proof.
  intros Hne. unfold substituteVideo, substitutions.
  destruct (conns s !! h') as [c|]; [|done].
  destruct (find_video_sender (senders c)) as [i|]; [|done].
  step_cbn. split.
  - cbn. by rewrite bool_decide_eq_false_2 by congruence.
  - by rewrite list_lookup_insert_ne by congruence.
Qed.

Lemma substituteVideo_here v h s :
  sends_video h s → kind v = Video →
  substitutions h (substituteVideo (Some v) h s).2 = 1 ∧
  sends_video h (substituteVideo (Some v) h s).1.
Proof.
  intros (c & i & Hc & Hi) Hv. unfold substituteVideo, substitutions.
  rewrite Hc, Hi. step_cbn. split.
  - cbn. by rewrite bool_decide_eq_true_2.
  - exists (replaceTrack i (Some v) c), i. split.
    + apply list_lookup_insert_eq. by eapply lookup_lt_Some.
    + unfold replaceTrack. case_decide; [done|]. cbn.
      by apply (find_video_sender_alter _ _ _ maxBitrate maxFramerate).
Qed.

Lemma substitutions_app h a b :
  substitutions h (a ++ b) = substitutions h a + substitutions h b.
Proof. unfold substitutions. by rewrite filter_app, length_app. Qed.

(** one sweep over the records substitutes once per record of [h] *)
Lemma sweep_substitutions v h L : ∀ s,
  sends_video h s → kind v = Video →
  substitutions h
    (forEach (λ pc, substituteVideo (Some v) (peer pc)) L s).2 = visits h L ∧
  sends_video h (forEach (λ pc, substituteVideo (Some v) (peer pc)) L s).1.
Proof.
  induction L as [|pc L IH]; intros s Hs Hv; [done|].
  rewrite forEach_cons, seq_actions, seq_state, substitutions_app.
  unfold visits. rewrite filter_cons. fold (visits h L).
  destruct (decide (peer pc = h)) as [Heq|Hne].
  - rewrite Heq.
    destruct (substituteVideo_here v h s Hs Hv) as [H1 H2].
    destruct (IH _ H2 Hv) as [H3 H4]. rewrite H1, H3. done.
  - destruct (substituteVideo_elsewhere (Some v) h (peer pc) s) as [H1 H2];
      [done|].
    assert (Hs' : sends_video h (substituteVideo (Some v) (peer pc) s).1).
    { destruct Hs as (c & i & Hc & Hi). exists c, i. by rewrite H2. }
    destruct (IH _ Hs' Hv) as [H3 H4]. rewrite H1, H3. done.
Qed.

(** a connection without a video sender is passed over *)
Lemma sweep_without_video_sender t h L : ∀ s c,
  conns s !! h = Some c → find_video_sender (senders c) = None →
  substitutions h (forEach (λ pc, substituteVideo t (peer pc)) L s).2 = 0 ∧
  conns (forEach (λ pc, substituteVideo t (peer pc)) L s).1 !! h = Some c.
Proof.
  induction L as [|pc L IH]; intros s c Hc Hnone; [done|].
  rewrite forEach_cons, seq_actions, seq_state, substitutions_app.
  destruct (decide (peer pc = h)) as [Heq|Hne].
  - rewrite Heq.
    assert (Hskip : substituteVideo t h s = (s, [])).
    { unfold substituteVideo. by rewrite Hc, Hnone. }
    rewrite Hskip. cbn [fst snd]. by apply IH.
  - destruct (substituteVideo_elsewhere t h (peer pc) s) as [H1 H2]; [done|].
    rewrite H1. apply IH; [by rewrite H2 | done].
Qed.

Lemma head_video_tracks_kind l v :
  head (video_tracks l) = Some v → kind v = Video.
Proof.
  unfold video_tracks. intros H.
  apply head_Some_elem_of, list_elem_of_filter in H. by destruct H.
Qed.

Lemma set_conns_same s : set_conns (λ _, conns s) s = s.
Proof. by destruct s. Qed.

(** a sweep changes nothing but connection objects *)
Lemma sweep_only_conns t L : ∀ s,
  ∃ l, (forEach (λ pc, substituteVideo t (peer pc)) L s).1
       = set_conns (λ _, l) s.
Proof.
  induction L as [|pc L IH]; intros s.
  - exists (conns s). by rewrite set_conns_same.
  - rewrite forEach_cons, seq_state.
    destruct (IH (substituteVideo t (peer pc) s).1) as [l Hl].
    exists l. rewrite Hl. unfold substituteVideo.
    destruct (conns s !! peer pc) as [c|]; [|done].
    destruct (find_video_sender (senders c)); done.
Qed.

(** neither the start nor the end of a share touches a connection that has
    no sender carrying a video track *)
Lemma startScreenShare_without_video_sender display h s c :
  conns s !! h = Some c → find_video_sender (senders c) = None →
  substitutions h (startScreenShare display s).2 = 0 ∧
  conns (startScreenShare display s).1 !! h = Some c.
Proof.
  intros Hc Hnone. unfold startScreenShare.
  destruct display as [screenStream|]; [|done].
  destruct (head (video_tracks screenStream)) as [v|]; [|done].
  rewrite seq_actions, seq_state, substitutions_app. unfold forEachPeer.
  destruct (sweep_without_video_sender (Some v) h (map_to_list (peers s)).*2
              s c Hc Hnone) as [H1 H2].
  by rewrite H1.
Qed.

Lemma onended_without_video_sender t h s c :
  conns s !! h = Some c → find_video_sender (senders c) = None →
  substitutions h (onended t s).2 = 0 ∧ conns (onended t s).1 !! h = Some c.
Proof.
  intros Hc Hnone. unfold onended.
  case_bool_decide; [|done].
  destruct (localStream s) as [ts|]; [|done].
  destruct (head (video_tracks ts)) as [v|]; [|done].
  unfold forEachPeer. by apply sweep_without_video_sender.
Qed.

(** C5, as amended — starting screen share, the end of screen share and
    switching background blur on or off only substitute outgoing video
    tracks: the registry is the same afterwards (no record made or dropped),
    every connection object is still there with its negotiation state and
    descriptions untouched, and no signalling message is sent.  A start
    followed by the end of the share substitutes exactly twice on the
    connection of a record that has a sender carrying a video track, provided
    the local stream has a video track to go back to and the registry is
    sound (as it is in every state the manager can reach).  On a connection
    that has no sender carrying a video track, whether a record refers to it
    or not, a start followed by the end of a share substitutes nothing, and
    the connection object is left as it was. *)
Theorem screen_share_and_blur_only_swap_tracks (B : Browser)
  (s : WebRTCManager) (display cam : option (list MediaStreamTrack))
  (ended canvas : nat) (enabled : bool) :
  media_only (startScreenShare display) ∧
  media_only (onended ended) ∧
  media_only (toggleBackgroundBlur B enabled canvas cam) ∧
  (∀ h c c', conns s !! h = Some c →
     conns (startScreenShare display s).1 !! h = Some c' →
     signalingState c' = signalingState c) ∧
  (∀ screen v ts camera pid pc,
     head (video_tracks screen) = Some v →
     localStream s = Some ts →
     head (video_tracks ts) = Some camera →
     peers s !! pid = Some pc →
     sends_video (peer pc) s →
     registry_sound s →
     let r1 := startScreenShare (Some screen) s in
     let r2 := onended (track_id v) r1.1 in
     substitutions (peer pc) (r1.2 ++ r2.2) = 2 ∧
     filter is_send (r1.2 ++ r2.2) = [] ∧
     peers r2.1 = peers s) ∧
  (∀ h c,
     conns s !! h = Some c →
     find_video_sender (senders c) = None →
     let r1 := startScreenShare display s in
     let r2 := onended ended r1.1 in
     substitutions h (r1.2 ++ r2.2) = 0 ∧
     conns r2.1 !! h = Some c).
Proof.
  split; [apply media_only_startScreenShare|].
  split; [apply media_only_onended|].
  split; [apply media_only_toggleBackgroundBlur|].
  split; [|split].
  - intros h c c' Hc Hc'.
    destruct (media_only_startScreenShare display s) as [[_ Hall] _].
    apply same_but_senders_signalingState.
    by apply (Forall2_lookup_lr _ _ _ h c c' Hall).
  - intros screen v ts camera pid pc Hv Hts Hcam Hpc Hvideo Hsound r1 r2.
    destruct (Hsound pid pc Hpc) as (_ & _ & Huniq).
    pose proof (head_video_tracks_kind _ _ Hv) as Hkv.
    pose proof (head_video_tracks_kind _ _ Hcam) as Hkc.
    pose proof (visits_own_connection (peers s) pid pc Hpc Huniq) as Hvisit.
    (* the start *)
    assert (Hr1 : r1 = ((forEachPeer (λ pc, substituteVideo (Some v) (peer pc)) ;;
                          modify (set_screenTracks (λ a, a ∪ {[track_id v]}))) s)).
    { unfold r1, startScreenShare. by rewrite Hv. }
    destruct (sweep_substitutions v (peer pc) (map_to_list (peers s)).*2 s
                Hvideo Hkv) as [Hn1 Hvideo1].
    fold (forEachPeer (λ pc, substituteVideo (Some v) (peer pc)) s)
      in Hn1, Hvideo1.
    destruct (media_only_forEachPeer
                (λ pc, substituteVideo (Some v) (peer pc))
                (λ pc, media_only_substituteVideo (Some v) (peer pc)) s)
      as [[Hp1 _] Hs1].
    set (s1 := (forEachPeer (λ pc, substituteVideo (Some v) (peer pc)) s).1)
      in *.
    assert (Hr1s : r1.1 = set_screenTracks (λ a, a ∪ {[track_id v]}) s1).
    { rewrite Hr1, seq_state. done. }
    assert (Hr1a : r1.2
                   = (forEachPeer (λ pc, substituteVideo (Some v) (peer pc)) s).2).
    { rewrite Hr1, seq_actions. cbn [modify snd]. by rewrite app_nil_r. }
    (* the end of the share *)
    destruct (sweep_only_conns (Some v) (map_to_list (peers s)).*2 s)
      as [l1 Hl1].
    fold (forEachPeer (λ pc, substituteVideo (Some v) (peer pc)) s) in Hl1.
    fold s1 in Hl1.
    assert (Hr2 : r2 = forEachPeer
                         (λ pc, substituteVideo (Some camera) (peer pc)) r1.1).
    { unfold r2, onended. rewrite Hr1s, Hl1. step_cbn.
      rewrite bool_decide_eq_true_2
        by (apply elem_of_union_r; by apply elem_of_singleton).
      by rewrite Hts, Hcam. }
    assert (Hvideo1' : sends_video (peer pc) r1.1).
    { rewrite Hr1s. destruct Hvideo1 as (c & i & Hc & Hi). by exists c, i. }
    assert (Hp1' : peers r1.1 = peers s) by (by rewrite Hr1s).
    destruct (sweep_substitutions camera (peer pc)
                (map_to_list (peers r1.1)).*2 r1.1 Hvideo1' Hkc)
      as [Hn2 _].
    fold (forEachPeer (λ pc, substituteVideo (Some camera) (peer pc)) r1.1)
      in Hn2.
    destruct (media_only_forEachPeer
                (λ pc, substituteVideo (Some camera) (peer pc))
                (λ pc, media_only_substituteVideo (Some camera) (peer pc)) r1.1)
      as [[Hp2 _] Hs2].
    rewrite <- Hr2 in Hn2, Hp2, Hs2.
    split; [|split].
    + rewrite substitutions_app, Hr1a, Hn1, Hn2, Hp1', Hvisit. done.
    + by rewrite filter_app, Hr1a, Hs1, Hs2.
    + by rewrite Hp2, Hp1'.
  - intros h c Hc Hnone r1 r2.
    destruct (startScreenShare_without_video_sender display h s c Hc Hnone)
      as [H1 H2].
    destruct (onended_without_video_sender ended h r1.1 c H2 Hnone)
      as [H3 H4].
    rewrite substitutions_app. fold r1 in H1. fold r2 in H3.
    by rewrite H1, H3.
Qed.

(** ** Glare *)

Lemma units_lt_asym a : ∀ b, units_lt a b = true → units_lt b a = false.
Proof.
  induction a as [|x a IH]; intros [|y b]; cbn; try done.
  intros H. apply orb_true_iff in H as [H|H].
  - apply N.ltb_lt in H.
    rewrite (proj2 (N.ltb_ge y x)) by lia.
    rewrite (proj2 (N.eqb_neq y x)) by lia. done.
  - apply andb_true_iff in H as [Heq H]. apply N.eqb_eq in Heq as ->.
    rewrite N.ltb_irrefl, N.eqb_refl. cbn. by apply IH.
Qed.

Lemma js_lt_asym a b : js_lt a b = true → js_lt b a = false.
Proof. apply units_lt_asym. Qed.

Lemma js_lt_irrefl a : js_lt a a = false.
Proof.
  destruct (js_lt a a) eqn:E; [|done]. by rewrite (js_lt_asym a a E) in E.
Qed.

(** the side with the smaller id lets the incoming offer pass *)
Lemma glare_smaller_side_ignores B s from offer nm pc c :
  peers s !! from = Some pc → conns s !! peer pc = Some c →
  signalingState c = have_local_offer →
  js_lt (participantId s) from = true →
  handleOffer B from (participantId s) offer nm s = (s, []).
Proof.
  intros Hpc Hc Hst Hlt. unfold handleOffer, has_signalingState.
  rewrite bool_decide_eq_false_2 by (by intros ?).
  rewrite Hpc, Hc, Hst, Hlt. done.
Qed.

(** the other side closes its own attempt and takes the incoming offer *)
Lemma glare_larger_side_concedes B s from offer nm pc c :
  peers s !! from = Some pc → conns s !! peer pc = Some c →
  signalingState c = have_local_offer →
  js_lt (participantId s) from = false →
  handleOffer B from (participantId s) offer nm s
  = acceptOffer B from offer nm
      (set_peers (delete from) (set_conns (alter close (peer pc)) s)).
Proof.
  intros Hpc Hc Hst Hlt. unfold handleOffer, has_signalingState.
  rewrite bool_decide_eq_false_2 by (by intros ?).
  rewrite Hpc, Hc, Hst, Hlt. rewrite bool_decide_eq_true_2 by done.
  unfold closePeer. unfold seq at 1 2. step_cbn.
  destruct (acceptOffer _ _ _ _ _); done.
Qed.

Lemma handleAnswer_stale B s from answer nm pc c :
  peers s !! from = Some pc → conns s !! peer pc = Some c →
  signalingState c ≠ have_local_offer →
  handleAnswer B from (participantId s) answer nm s = (s, []).
Proof.
  intros Hpc Hc Hst. unfold handleAnswer.
  rewrite bool_decide_eq_false_2 by (by intros ?).
  rewrite Hpc, Hc. by rewrite bool_decide_eq_false_2.
Qed.

Section Glare.
Variable gen : RTCSdpType → RTCPeerConnection → string.
Local Abbreviation J := (jsep gen).

Lemma attachTracks_signalingState stream c :
  signalingState (attachTracks J stream c) = signalingState c.
Proof. by destruct stream. Qed.

Lemma acceptOffer_jsep s from offer nm :
  sdp_type offer = sdp_offer →
  acceptOffer J from offer nm s
  = (set_conns (λ l, l ++ [answering gen s from nm offer])
       (set_peers <[from := mkPeer from (length (conns s)) nm]> s),
     [Send (Answer (participantId s) from (its_answer gen s from nm offer)
              (participantName s))]).
Proof.
  intros Ht. unfold acceptOffer, createPeerConnection,
    createPeerConnection_setup, answering, its_answer.
  unfold seq at 2. step_cbn. unfold seq. step_cbn.
  rewrite lookup_insert_eq. unfold answerOffer. step_cbn.
  rewrite lookup_app_r by done. rewrite Nat.sub_diag. cbn [lookup list_lookup].
  rewrite attachTracks_signalingState. cbn [newRTCPeerConnection signalingState].
  rewrite bool_decide_eq_true_2 by done. cbn [orb].
  cbn [jsep setRemoteDescription createAnswer setLocalDescription].
  unfold jsep_setRemoteDescription. rewrite attachTracks_signalingState.
  cbn [newRTCPeerConnection signalingState]. rewrite Ht.
  cbn [jsep_remote_next mbind option_bind].
  unfold jsep_createAnswer, jsep_setLocalDescription.
  cbn [with_signaling signalingState sdp_type jsep_local_next mbind option_bind].
  step_cbn. f_equal.
  apply manager_ext; step_cbn; try reflexivity.
  rewrite insert_app_r_alt by done. rewrite Nat.sub_diag. reflexivity.
Qed.

Lemma handleAnswer_jsep s from answer nm pc c :
  peers s !! from = Some pc → conns s !! peer pc = Some c →
  signalingState c = have_local_offer → sdp_type answer = sdp_answer →
  handleAnswer J from (participantId s) answer nm s
  = (set_conns <[peer pc := with_signaling stable (with_remote answer c)]> s,
     []).
Proof.
  intros Hpc Hc Hst Ht. unfold handleAnswer.
  rewrite bool_decide_eq_false_2 by (by intros ?).
  rewrite Hpc, Hc. rewrite bool_decide_eq_true_2 by done.
  cbn [jsep setRemoteDescription]. unfold jsep_setRemoteDescription.
  rewrite Hst, Ht. done.
Qed.

Lemma handleOffer_stable_jsep s from offer nm pc c :
  peers s !! from = Some pc → conns s !! peer pc = Some c →
  signalingState c = stable → sdp_type offer = sdp_offer →
  handleOffer J from (participantId s) offer nm s
  = (set_conns <[peer pc := renegotiated gen offer c]> s,
     [Send (Answer (participantId s) from
              (mkSdp sdp_answer
                 (gen sdp_answer
                    (with_signaling have_remote_offer (with_remote offer c))))
              (participantName s))]).
Proof.
  intros Hpc Hc Hst Ht.
  rewrite (in_state_offer_is_answered J s from offer nm pc c Hpc Hc)
    by (by left).
  cbn [jsep setRemoteDescription createAnswer setLocalDescription].
  unfold jsep_setRemoteDescription. rewrite Hst, Ht.
  cbn [jsep_remote_next mbind option_bind].
  unfold jsep_createAnswer, jsep_setLocalDescription.
  cbn [with_signaling signalingState sdp_type jsep_local_next mbind option_bind].
  done.
Qed.
End Glare.

Section TwoOffers.
Variable x : Crossing.
Local Abbreviation gen := (sdp_text x).
Local Abbreviation J := (jsep (sdp_text x)).
Local Abbreviation sA := (smaller x).
Local Abbreviation sB := (larger x).
Local Abbreviation pcA := (smaller_record x).
Local Abbreviation pcB := (larger_record x).
Local Abbreviation cA := (smaller_conn x).
Local Abbreviation cB := (larger_conn x).
Local Abbreviation oA := (smaller_offer x).
Local Abbreviation oB := (larger_offer x).
Local Abbreviation nmA := (smaller_name x).
Local Abbreviation nmB := (larger_name x).
Local Abbreviation idA := (participantId (smaller x)).
Local Abbreviation idB := (participantId (larger x)).
Local Abbreviation conceded := (larger_conceded x).
Local Abbreviation concession := (concession_of x).
Local Abbreviation answered := (smaller_answered x).
Local Abbreviation answered_then_offered := (smaller_answered_then_offered x).
Local Abbreviation late_answer := (late_answer_of x).
Local Abbreviation mOA := (offer_of_smaller x).
Local Abbreviation mOB := (offer_of_larger x).
Local Abbreviation mAns := (answer_of_larger x).
Local Abbreviation mLate := (late_answer_of_smaller x).

Hypothesis a_lt_b : js_lt idA idB = true.
Hypothesis A_record : peers sA !! idB = Some pcA.
Hypothesis A_conn : conns sA !! peer pcA = Some cA.
Hypothesis A_offering : signalingState cA = have_local_offer.
Hypothesis A_local : localDescription cA = Some oA.
Hypothesis A_sole : sole_live_connection idB (peer pcA) sA.
Hypothesis B_record : peers sB !! idA = Some pcB.
Hypothesis B_conn : conns sB !! peer pcB = Some cB.
Hypothesis B_offering : signalingState cB = have_local_offer.
Hypothesis B_sole : sole_live_connection idA (peer pcB) sB.
Hypothesis oA_offer : sdp_type oA = sdp_offer.
Hypothesis oB_offer : sdp_type oB = sdp_offer.

Lemma A_ignores : receive J mOB sA = (sA, []).
Proof.
  cbn [receive offer_of_larger].
  by apply (glare_smaller_side_ignores J sA idB oB nmB pcA cA).
Qed.

Lemma B_concedes : receive J mOA sB = (conceded, [Send mAns]).
Proof.
  cbn [receive offer_of_smaller].
  rewrite (glare_larger_side_concedes J sB idA oA nmA pcB cB)
    by (try done; by apply js_lt_asym).
  by rewrite acceptOffer_jsep.
Qed.

Lemma A_takes_answer : receive J mAns sA = (answered, []).
Proof.
  cbn [receive answer_of_larger].
  by rewrite (handleAnswer_jsep gen sA idB concession _ pcA cA).
Qed.

Lemma answered_conn :
  conns answered !! peer pcA
  = Some (with_signaling stable (with_remote concession cA)).
Proof.
  unfold smaller_answered. step_cbn. apply list_lookup_insert_eq.
  by eapply lookup_lt_Some.
Qed.

Lemma A_takes_late_offer :
  receive J mOB answered = (answered_then_offered, [Send mLate]).
Proof.
  cbn [receive offer_of_larger].
  change (participantId sA) with (participantId answered).
  rewrite (handleOffer_stable_jsep gen answered idB oB nmB pcA _ A_record
             answered_conn); done.
Qed.

Lemma conceded_record :
  peers conceded !! idA = Some (mkPeer idA (length (conns sB)) nmA).
Proof.
  unfold larger_conceded. step_cbn. rewrite length_alter. apply lookup_insert_eq.
Qed.

Lemma conceded_conn :
  conns conceded !! length (conns sB)
  = Some (answering gen
            (set_peers (delete idA) (set_conns (alter close (peer pcB)) sB))
            idA nmA oA).
Proof.
  unfold larger_conceded. step_cbn. rewrite lookup_app_r by (by rewrite length_alter).
  by rewrite length_alter, Nat.sub_diag.
Qed.

Lemma B_drops_late_answer : receive J mLate conceded = (conceded, []).
Proof.
  cbn [receive late_answer_of_smaller]. change (participantId sB) with (participantId conceded).
  by rewrite (handleAnswer_stale J conceded idA late_answer _ _ _
                conceded_record conceded_conn).
Qed.

Lemma sole_live_connection_update p h s c c' :
  sole_live_connection p h s → conns s !! h = Some c →
  cb_peerId c' = cb_peerId c → signalingState c' ≠ sig_closed →
  sole_live_connection p h (set_conns <[h := c']> s).
Proof.
  intros [(c0 & Hc0 & Hp & _) Honly] Hc Hid Hst.
  rewrite Hc in Hc0. injection Hc0 as <-.
  assert (Hlt : h < length (conns s)) by (by eapply lookup_lt_Some).
  split.
  - exists c'. step_cbn. rewrite list_lookup_insert_eq by done.
    repeat split; [congruence | done].
  - intros h' c'' Hh'. step_cbn_in Hh'.
    destruct (decide (h' = h)) as [->|Hne]; [done|].
    rewrite list_lookup_insert_ne in Hh' by done. by apply Honly.
Qed.

Lemma answered_sole : sole_live_connection idB (peer pcA) answered.
Proof. by apply (sole_live_connection_update _ _ _ cA). Qed.

Lemma answered_then_offered_sole :
  sole_live_connection idB (peer pcA) answered_then_offered.
Proof.
  eapply (sole_live_connection_update _ _ _ _ _ answered_sole answered_conn);
    done.
Qed.

Lemma answering_cb_peerId s from nm offer :
  cb_peerId (answering gen s from nm offer) = from.
Proof. unfold answering. cbn. by destruct (localStream s). Qed.

Lemma conceded_sole :
  sole_live_connection idA (length (conns sB)) conceded.
Proof.
  destruct B_sole as [_ Honly]. split.
  - eexists. split; [apply conceded_conn|].
    split; [apply answering_cb_peerId | done].
  - intros h' c' Hh' Hp Hst. unfold larger_conceded in Hh'. step_cbn_in Hh'.
    destruct (decide (h' < length (conns sB))) as [Hlt|Hge].
    + exfalso. rewrite lookup_app_l in Hh' by (by rewrite length_alter).
      destruct (decide (h' = peer pcB)) as [->|Hne].
      * rewrite list_lookup_alter_eq, B_conn in Hh'.
        injection Hh' as <-. by apply Hst.
      * rewrite list_lookup_alter_ne in Hh' by done.
        by apply Hne, (Honly h' c').
    + apply lookup_lt_Some in Hh'.
      rewrite length_app, length_alter in Hh'. cbn in Hh'. lia.
Qed.

Lemma conceded_closed :
  conns conceded !! peer pcB = Some (close cB).
Proof.
  unfold larger_conceded. step_cbn.
  rewrite lookup_app_l
    by (rewrite length_alter; by eapply lookup_lt_Some).
  by rewrite list_lookup_alter_eq, B_conn.
Qed.

Ltac hop_cbn :=
  cbn [hops hop mbind option_bind lookup list_lookup to_left to_right
       left_node right_node delete list_delete sent omap list_omap app
       fst snd].

Lemma quiet_stays (n n' : Pair) xs :
  quiet n → hops J xs n = Some n' → n' = n.
Proof.
  intros [Hl Hr]. destruct xs as [|[i|i] xs]; hop_cbn.
  - by intros [= <-].
  - rewrite Hl. by destruct i.
  - rewrite Hr. by destruct i.
Qed.

Lemma from_late_answer xs n' :
  hops J xs (mkPair answered_then_offered conceded [] [mLate]) = Some n' →
  quiet n' → n' = (settled_late x).
Proof.
  destruct xs as [|[i|i] xs]; hop_cbn.
  - intros [= <-] [_ ?]. done.
  - by destruct i.
  - destruct i as [|i]; hop_cbn; [|by destruct i].
    rewrite B_drops_late_answer. hop_cbn.
    intros H _. by apply quiet_stays in H.
Qed.

Lemma from_late_offer xs n' :
  hops J xs (mkPair answered conceded [mOB] []) = Some n' →
  quiet n' → n' = (settled_late x).
Proof.
  destruct xs as [|[i|i] xs]; hop_cbn.
  - intros [= <-] [? _]. done.
  - destruct i as [|i]; hop_cbn; [|by destruct i].
    rewrite A_takes_late_offer. hop_cbn. apply from_late_answer.
  - by destruct i.
Qed.

Lemma from_answer xs n' :
  hops J xs (mkPair sA conceded [mAns] []) = Some n' →
  quiet n' → n' = (settled x).
Proof.
  destruct xs as [|[i|i] xs]; hop_cbn.
  - intros [= <-] [? _]. done.
  - destruct i as [|i]; hop_cbn; [|by destruct i].
    rewrite A_takes_answer. hop_cbn.
    intros H _. by apply quiet_stays in H.
  - by destruct i.
Qed.

Lemma from_offer_and_answer xs n' :
  hops J xs (mkPair sA conceded [mOB; mAns] []) = Some n' →
  quiet n' → n' = (settled x) ∨ n' = (settled_late x).
Proof.
  destruct xs as [|[i|i] xs]; hop_cbn.
  - intros [= <-] [? _]. done.
  - destruct i as [|[|i]]; hop_cbn; [| |by destruct i].
    + rewrite A_ignores. hop_cbn. intros H Hq. left. by eapply from_answer.
    + rewrite A_takes_answer. hop_cbn. intros H Hq. right.
      by eapply from_late_offer.
  - by destruct i.
Qed.

Lemma from_one_offer xs n' :
  hops J xs (mkPair sA sB [] [mOA]) = Some n' →
  quiet n' → n' = (settled x).
Proof.
  destruct xs as [|[i|i] xs]; hop_cbn.
  - intros [= <-] [_ ?]. done.
  - by destruct i.
  - destruct i as [|i]; hop_cbn; [|by destruct i].
    rewrite B_concedes. hop_cbn. apply from_answer.
Qed.

Lemma from_crossing xs n' :
  hops J xs (crossing x) = Some n' →
  quiet n' → n' = (settled x) ∨ n' = (settled_late x).
Proof.
  unfold crossing. destruct xs as [|[i|i] xs]; hop_cbn.
  - intros [= <-] [? _]. done.
  - destruct i as [|i]; hop_cbn; [|by destruct i].
    rewrite A_ignores. hop_cbn. intros H Hq. left. by eapply from_one_offer.
  - destruct i as [|i]; hop_cbn; [|by destruct i].
    rewrite B_concedes. hop_cbn. apply from_offer_and_answer.
Qed.

(** delivered in the order of sending, the larger side's offer reaches the
    smaller side before the larger side's answer does *)
Lemma from_offer_and_answer_in_order xs n' :
  forallb oldest_first xs = true →
  hops J xs (mkPair sA conceded [mOB; mAns] []) = Some n' →
  quiet n' → n' = (settled x).
Proof.
  destruct xs as [|[i|i] xs]; hop_cbn.
  - intros _ [= <-] [? _]. done.
  - destruct i as [|i]; [|done]. cbn [forallb oldest_first andb]. hop_cbn.
    rewrite A_ignores. hop_cbn. intros _ H Hq. by eapply from_answer.
  - by destruct i.
Qed.

Lemma from_crossing_in_order xs n' :
  forallb oldest_first xs = true →
  hops J xs (crossing x) = Some n' →
  quiet n' → n' = (settled x).
Proof.
  unfold crossing. destruct xs as [|[i|i] xs]; hop_cbn.
  - intros _ [= <-] [? _]. done.
  - destruct i as [|i]; hop_cbn; [|by destruct i].
    rewrite A_ignores. hop_cbn. intros _ H Hq. by eapply from_one_offer.
  - destruct i as [|i]; [|done]. cbn [forallb oldest_first andb]. hop_cbn.
    rewrite B_concedes. hop_cbn. apply from_offer_and_answer_in_order.
Qed.

Lemma from_crossing_overtaken xs n' :
  answer_overtakes xs = true →
  hops J xs (crossing x) = Some n' →
  quiet n' → n' = (settled_late x).
Proof.
  destruct xs as [|[i|[|i]] [|[[|[|j]]|j] xs]]; try done.
  intros _. unfold crossing. hop_cbn. rewrite B_concedes. hop_cbn.
  rewrite A_takes_answer. hop_cbn. apply from_late_offer.
Qed.

Lemma from_crossing_not_overtaken xs n' :
  answer_overtakes xs = false →
  hops J xs (crossing x) = Some n' →
  quiet n' → n' = (settled x).
Proof.
  unfold crossing. destruct xs as [|[i|i] xs]; hop_cbn.
  - intros _ [= <-] [? _]. done.
  - destruct i as [|i]; hop_cbn; [|by destruct i].
    rewrite A_ignores. hop_cbn. intros _ H Hq. by eapply from_one_offer.
  - destruct i as [|i]; hop_cbn; [|by destruct i].
    rewrite B_concedes. hop_cbn.
    destruct xs as [|[j|j] xs]; hop_cbn.
    + intros _ [= <-] [? _]. done.
    + destruct j as [|[|j]]; hop_cbn; [|done|by destruct j].
      rewrite A_ignores. hop_cbn. intros _ H Hq. by eapply from_answer.
    + by destruct j.
Qed.

Lemma answered_then_offered_conn :
  conns answered_then_offered !! peer pcA
  = Some (renegotiated gen oB
            (with_signaling stable (with_remote concession cA))).
Proof.
  unfold smaller_answered_then_offered. step_cbn.
  apply list_lookup_insert_eq. unfold smaller_answered. step_cbn.
  rewrite length_insert. by eapply lookup_lt_Some.
Qed.

End TwoOffers.

(** ** The theorems at work on small meetings *)

Lemma screen_share_and_blur_only_swap_tracks_witness :
  let s := al_with_camera in
  let r1 := startScreenShare (Some [mkTrack 9 Video]) s in
  let r2 := onended 9 r1.1 in
  peers s !! "p2"%string = Some (mkPeer "p2" 0 "Bo") ∧
  sends_video 0 s ∧
  substitutions 0 (r1.2 ++ r2.2) = 2 ∧
  filter is_send (r1.2 ++ r2.2) = [] ∧
  peers r2.1 = peers s.
Proof.
  intros s r1 r2.
  assert (Hpc : peers s !! "p2"%string = Some (mkPeer "p2" 0 "Bo"))
    by reflexivity.
  assert (Hv : sends_video (peer (mkPeer "p2" 0 "Bo")) s).
  { eexists _, 0. split; reflexivity. }
  assert (Hu : registry_sound s) by apply registry_sound_run.
  destruct (screen_share_and_blur_only_swap_tracks plain s
              (Some [mkTrack 9 Video]) None 9 7 true)
    as (_ & _ & _ & _ & H & _).
  split; [exact Hpc|]. split; [exact Hv|].
  exact (H [mkTrack 9 Video] (mkTrack 9 Video)
           [mkTrack 1 Video; mkTrack 2 Audio] (mkTrack 1 Video)
           "p2"%string (mkPeer "p2" 0 "Bo")
           eq_refl eq_refl eq_refl Hpc Hv Hu).
Defined.

(** C5, as stated, fails on the count.  Where Bo's connection was made
    before there was a local stream it has no sender, and starting and ending
    a screen share substitutes nothing on it; where it has a video sender but
    the local stream has no video track left when the share ends, the start
    substitutes once and the end not at all. *)
Lemma screen_share_not_always_two_substitutions :
  (let s := al_camera_late in
   let r1 := startScreenShare (Some [mkTrack 9 Video]) s in
   let r2 := onended 9 r1.1 in
   peers s !! "p2"%string = Some (mkPeer "p2" 0 "Bo") ∧
   filter is_rejected (r1.2 ++ r2.2) = [] ∧
   substitutions 0 (r1.2 ++ r2.2) = 0) ∧
  (let s := al_camera_dropped in
   let r1 := startScreenShare (Some [mkTrack 9 Video]) s in
   let r2 := onended 9 r1.1 in
   peers s !! "p2"%string = Some (mkPeer "p2" 0 "Bo") ∧
   find_video_sender <$> (senders <$> conns s !! 0) = Some (Some 0) ∧
   filter is_rejected (r1.2 ++ r2.2) = [] ∧
   substitutions 0 (r1.2 ++ r2.2) = 1).
Proof. split; vm_compute; repeat split. Qed.

(** six failures in a row: attempts 1 to 5 are scheduled 2, 4, 6, 8 and 10
    seconds out, the sixth failure schedules nothing and Bo stays out of the
    registry *)
Example six_failures :
  let again h := [ConnectionStateChange h failed;
                  Fired (Reconnect "p2" "Bo") RosterError] in
  let r := run plain
             (RecvUserJoined "p2" "Bo"
              :: again 0 ++ again 1 ++ again 2 ++ again 3 ++ again 4
              ++ [ConnectionStateChange 5 failed])
             (new_WebRTCManager "m" "p1" "Al" 1 2).1 in
  filter is_setTimeout r.2
  = [SetTimeout (Reconnect "p2" "Bo") (1 * 2000);
     SetTimeout (Reconnect "p2" "Bo") (2 * 2000);
     SetTimeout (Reconnect "p2" "Bo") (3 * 2000);
     SetTimeout (Reconnect "p2" "Bo") (4 * 2000);
     SetTimeout (Reconnect "p2" "Bo") (5 * 2000)] ∧
  reconnectAttempts r.1 = 5 ∧
  peers r.1 !! "p2"%string = None.
Proof. vm_compute. repeat split. Qed.


(** C3, as stated, fails: the cap is not kept for each peer.  Bo is announced
    once and answers every offer, but no connection to Bo ever reaches
    [connected]: each one fails.  Cy's connection is the only one that is
    ever reported connected, and it comes back between Bo's failures, taking
    the counter to zero each time.  Six retries are armed for Bo, every one
    as attempt 1, two seconds out. *)
Lemma reconnection_cap_is_not_per_peer :
  let r := run plain bo_never_connects (new_WebRTCManager "m" "p1" "Al" 1 2).1 in
  filter (λ a, is_reconnect_to "p2" a) r.2
  = replicate 6 (SetTimeout (Reconnect "p2" "Bo") 2000) ∧
  filter (λ e, bool_decide ("p2"%string ∈ introduces e)) bo_never_connects
  = RecvUserJoined "p2" "Bo"
    :: replicate 6 (Fired (Reconnect "p2" "Bo") RosterError) ∧
  omap reports_connected bo_never_connects = replicate 7 1 ∧
  (cb_peerId <$> conns r.1)
  = ["p2"; "p3"; "p2"; "p2"; "p2"; "p2"; "p2"; "p2"]%string ∧
  (connectionState <$> conns r.1)
  = [conn_closed; connected; conn_closed; conn_closed; conn_closed;
     conn_closed; conn_closed; conn_new].
Proof. vm_compute. repeat split. Qed.





(** * Further properties *)

(** ** Answers and candidates *)

Lemma handleAnswer_shape B from to answer nm s :
  handleAnswer B from to answer nm s = (s, []) ∨
  ∃ pc c c', peers s !! from = Some pc ∧ conns s !! peer pc = Some c ∧
             signalingState c = have_local_offer ∧
             setRemoteDescription B c answer = Some c' ∧
             handleAnswer B from to answer nm s
             = (set_conns <[peer pc := c']> s, []).
Proof.
  unfold handleAnswer. case_bool_decide; [by left|].
  destruct (peers s !! from) as [pc|] eqn:Hpc; [|by left].
  destruct (conns s !! peer pc) as [c|] eqn:Hc; [|by left].
  case_bool_decide; [|by left].
  destruct (setRemoteDescription B c answer) as [c'|] eqn:Hr; [|by left].
  right. by exists pc, c, c'.
Qed.

Lemma handleIceCandidate_shape B from to candidate s :
  handleIceCandidate B from to candidate s = (s, []) ∨
  ∃ pc c c', peers s !! from = Some pc ∧ conns s !! peer pc = Some c ∧
             addIceCandidate B c candidate = Some c' ∧
             handleIceCandidate B from to candidate s
             = (set_conns <[peer pc := c']> s, []).
Proof.
  unfold handleIceCandidate. case_bool_decide; [by left|].
  destruct (peers s !! from) as [pc|] eqn:Hpc; [|by left].
  destruct (conns s !! peer pc) as [c|] eqn:Hc; [|by left].
  destruct (addIceCandidate B c candidate) as [c'|] eqn:Hr; [|by left].
  right. by exists pc, c, c'.
Qed.

Lemma one_connection_replaced s from pc c' :
  peers s !! from = Some pc →
  ∃ l, set_conns <[peer pc := c']> s = set_conns (λ _, l) s ∧
       length l = length (conns s) ∧
       ∀ h, (∀ pc0, peers s !! from = Some pc0 → peer pc0 ≠ h) →
            l !! h = conns s !! h.
Proof.
  intros Hpc. exists (<[peer pc := c']> (conns s)).
  split; [done|]. split; [by rewrite length_insert|].
  intros h Hh. apply list_lookup_insert_ne. by apply Hh.
Qed.

Lemma nothing_replaced s (from : string) :
  ∃ l, s = set_conns (λ _, l) s ∧ length l = length (conns s) ∧
       ∀ h, (∀ pc0, peers s !! from = Some pc0 → peer pc0 ≠ h) →
            l !! h = conns s !! h.
Proof. exists (conns s). by rewrite set_conns_same. Qed.

(** X1 — an Answer or an ICE candidate changes nothing but, at most, the
    connection object behind the sender's record: the registry and every
    other field of the manager stay as they are, no other connection object
    changes, and nothing is sent, armed or notified.  From a sender without a
    record the state is returned as it was; so it is for an Answer whose
    record is not waiting in [have-local-offer], and for an Answer or a
    candidate that the browser refuses: the record is kept in all these
    cases. *)
Theorem answers_and_candidates_touch_one_connection (B : Browser)
  (s : WebRTCManager) (from to nm candidate : string)
  (answer : RTCSessionDescriptionInit) :
  let ra := handleAnswer B from to answer nm s in
  let ri := handleIceCandidate B from to candidate s in
  ra.2 = [] ∧ ri.2 = [] ∧
  (∃ l, ra.1 = set_conns (λ _, l) s ∧ length l = length (conns s) ∧
        ∀ h, (∀ pc, peers s !! from = Some pc → peer pc ≠ h) →
             l !! h = conns s !! h) ∧
  (∃ l, ri.1 = set_conns (λ _, l) s ∧ length l = length (conns s) ∧
        ∀ h, (∀ pc, peers s !! from = Some pc → peer pc ≠ h) →
             l !! h = conns s !! h) ∧
  (peers s !! from = None → ra = (s, []) ∧ ri = (s, [])) ∧
  (∀ pc c, peers s !! from = Some pc → conns s !! peer pc = Some c →
     (signalingState c ≠ have_local_offer ∨
      setRemoteDescription B c answer = None → ra = (s, [])) ∧
     (addIceCandidate B c candidate = None → ri = (s, []))).
Proof.
  intros ra ri.
  destruct (handleAnswer_shape B from to answer nm s)
    as [Ha | (pa & ca & ca' & Hpa & Hca & Hsa & Hra & Ha)];
  destruct (handleIceCandidate_shape B from to candidate s)
    as [Hi | (pi & ci & ci' & Hpi & Hci & Hri & Hi)];
  unfold ra, ri; rewrite Ha, Hi; cbn [fst snd].
  all: split; [done|]; split; [done|].
  all: split; [first [by apply nothing_replaced
                     | by apply one_connection_replaced]|].
  all: split; [first [by apply nothing_replaced
                     | by apply one_connection_replaced]|].
  all: split; [intros Hnone; split; first [done | congruence]|].
  all: intros pc c Hpc Hc; split; [intros [Hst|Hno]|intros Hno];
    first [done | congruence].
Qed.

(** ** Peers that leave *)

Lemma handleUserLeft_eq pid s :
  handleUserLeft pid s
  = match peers s !! pid with
    | Some pc =>
        (set_peers (delete pid) (set_conns (alter close (peer pc)) s),
         if onPeerLeftCallback s then [NotifyPeerLeft pid] else [])
    | None => (s, [])
    end.
Proof.
  unfold handleUserLeft, seq, notifyPeerLeft, closePeer, modify, emit, skip.
  destruct (peers s !! pid) as [pc|]; [|done]. simpl.
  by destruct (onPeerLeftCallback s).
Qed.

Lemma handleUserLeft_peers pid s :
  peers (handleUserLeft pid s).1 = delete pid (peers s).
Proof.
  rewrite handleUserLeft_eq. destruct (peers s !! pid) eqn:E; [done|].
  cbn [fst]. by rewrite delete_id.
Qed.

(** a departure closes connections and does nothing else to them *)
Lemma handleUserLeft_conns pid s h :
  conns (handleUserLeft pid s).1 !! h = conns s !! h ∨
  conns (handleUserLeft pid s).1 !! h = close <$> conns s !! h.
Proof.
  rewrite handleUserLeft_eq. destruct (peers s !! pid) as [pc|]; [|by left].
  step_cbn. destruct (decide (h = peer pc)) as [->|Hne].
  - right. apply list_lookup_alter_eq.
  - left. by apply list_lookup_alter_ne.
Qed.

Lemma handlePresenceLeave_peers left : ∀ s pid,
  peers (handlePresenceLeave left s).1 !! pid
  = if bool_decide (pid ∈ presence_participantId <$> left) then None
    else peers s !! pid.
Proof.
  unfold handlePresenceLeave.
  induction left as [|p left IH]; intros s pid.
  - cbn. by rewrite bool_decide_eq_false_2 by set_solver.
  - rewrite forEach_cons, seq_state, IH, handleUserLeft_peers, fmap_cons.
    destruct (decide (pid = presence_participantId p)) as [->|Hne].
    + rewrite lookup_delete_eq.
      rewrite (bool_decide_eq_true_2 (_ ∈ _ :: _)) by left.
      by case_bool_decide.
    + rewrite lookup_delete_ne by done.
      repeat case_bool_decide; try done.
      * exfalso. match goal with H : ¬ _ |- _ => apply H end. by right.
      * match goal with H : pid ∈ _ :: _ |- _ =>
          apply elem_of_cons in H as [?|?]; done end.
Qed.

Lemma handlePresenceLeave_conns left : ∀ s h,
  conns (handlePresenceLeave left s).1 !! h = conns s !! h ∨
  conns (handlePresenceLeave left s).1 !! h = close <$> conns s !! h.
Proof.
  unfold handlePresenceLeave.
  induction left as [|p left IH]; intros s h; [by left|].
  rewrite forEach_cons, seq_state.
  destruct (IH (handleUserLeft (presence_participantId p) s).1 h) as [-> | ->];
    destruct (handleUserLeft_conns (presence_participantId p) s h) as [-> | ->];
    auto.
  right. destruct (conns s !! h); done.
Qed.

Lemma handlePresenceLeave_closes left : ∀ s pid pc,
  pid ∈ presence_participantId <$> left → peers s !! pid = Some pc →
  conns (handlePresenceLeave left s).1 !! peer pc
  = close <$> conns s !! peer pc.
Proof.
  induction left as [|p left IH]; intros s pid pc Hin Hpc.
  { by apply elem_of_nil in Hin. }
  unfold handlePresenceLeave. rewrite forEach_cons, seq_state.
  fold (handlePresenceLeave left (handleUserLeft (presence_participantId p) s).1).
  set (s1 := (handleUserLeft (presence_participantId p) s).1).
  destruct (decide (pid = presence_participantId p)) as [Heq|Hne].
  - assert (H1 : conns s1 !! peer pc = close <$> conns s !! peer pc).
    { unfold s1. rewrite handleUserLeft_eq, <- Heq, Hpc. step_cbn.
      apply list_lookup_alter_eq. }
    destruct (handlePresenceLeave_conns left s1 (peer pc)) as [-> | ->];
      rewrite H1; [done|]. by destruct (conns s !! peer pc).
  - rewrite fmap_cons in Hin. apply elem_of_cons in Hin as [?|Hin]; [done|].
    assert (Hpc1 : peers s1 !! pid = Some pc).
    { unfold s1. rewrite handleUserLeft_peers. by rewrite lookup_delete_ne. }
    rewrite (IH s1 pid pc Hin Hpc1).
    destruct (handleUserLeft_conns (presence_participantId p) s (peer pc))
      as [H | H]; fold s1 in H; rewrite H; [done|].
    by destruct (conns s !! peer pc).
Qed.

Lemma handlePresenceLeave_spares left : ∀ s pid pc,
  registry_sound s →
  pid ∉ presence_participantId <$> left → peers s !! pid = Some pc →
  conns (handlePresenceLeave left s).1 !! peer pc = conns s !! peer pc.
Proof.
  induction left as [|p left IH]; intros s pid pc Hsound Hnin Hpc; [done|].
  unfold handlePresenceLeave. rewrite forEach_cons, seq_state.
  fold (handlePresenceLeave left (handleUserLeft (presence_participantId p) s).1).
  rewrite fmap_cons in Hnin. apply not_elem_of_cons in Hnin as [Hne Hnin].
  set (s1 := (handleUserLeft (presence_participantId p) s).1).
  assert (Hpc1 : peers s1 !! pid = Some pc).
  { unfold s1. rewrite handleUserLeft_peers. by rewrite lookup_delete_ne. }
  rewrite (IH s1 pid pc (sound_handleUserLeft _ _ Hsound) Hnin Hpc1).
  unfold s1. rewrite handleUserLeft_eq.
  destruct (peers s !! presence_participantId p) as [pc'|] eqn:Hpc'; [|done].
  step_cbn. apply list_lookup_alter_ne. intros Heq.
  destruct (Hsound pid pc Hpc) as (_ & _ & Huniq).
  apply Hne. symmetry. by apply (Huniq _ pc').
Qed.

Lemma handlePresenceLeave_actions left : ∀ s,
  Forall (λ a, ∃ pid, a = NotifyPeerLeft pid ∧
                      pid ∈ presence_participantId <$> left ∧
                      is_Some (peers s !! pid))
    (handlePresenceLeave left s).2.
Proof.
  unfold handlePresenceLeave.
  induction left as [|p left IH]; intros s; [by apply Forall_nil|].
  rewrite forEach_cons, seq_actions. apply Forall_app. split.
  - rewrite handleUserLeft_eq.
    destruct (peers s !! presence_participantId p) as [pc|] eqn:Hpc;
      [|by apply Forall_nil].
    cbn [snd]. destruct (onPeerLeftCallback s); [|by apply Forall_nil].
    apply Forall_singleton. exists (presence_participantId p).
    split; [done|]. split; [rewrite fmap_cons; left | by rewrite Hpc].
  - eapply Forall_impl; [apply IH|]. intros a (pid & -> & Hin & Hsome).
    exists pid. split; [done|]. split; [rewrite fmap_cons; by right|].
    rewrite handleUserLeft_peers in Hsome.
    destruct (decide (pid = presence_participantId p)) as [->|Hne].
    + rewrite lookup_delete_eq in Hsome. by destruct Hsome.
    + by rewrite lookup_delete_ne in Hsome.
Qed.

(** X2 — a presence [leave] removes from the registry exactly the records of
    the participants it lists and closes their connections; a record of
    anybody else stays with its connection object untouched (the registry
    being sound); the only thing done besides is telling the peer-left
    observer about listed participants that had a record; and the same
    [leave] delivered again finds nothing to do. *)
Theorem presence_leave_removes_the_listed (s : WebRTCManager)
  (left : list PresenceEntry) :
  let gone := presence_participantId <$> left in
  let r := handlePresenceLeave left s in
  (∀ pid, peers r.1 !! pid
          = if bool_decide (pid ∈ gone) then None else peers s !! pid) ∧
  (∀ pid pc, pid ∈ gone → peers s !! pid = Some pc →
             conns r.1 !! peer pc = close <$> conns s !! peer pc) ∧
  (registry_sound s →
   ∀ pid pc, pid ∉ gone → peers s !! pid = Some pc →
             conns r.1 !! peer pc = conns s !! peer pc) ∧
  Forall (λ a, ∃ pid, a = NotifyPeerLeft pid ∧ pid ∈ gone ∧
                      is_Some (peers s !! pid)) r.2 ∧
  (onPeerLeftCallback s = false → r.2 = []) ∧
  handlePresenceLeave left r.1 = (r.1, []).
Proof.
  intros gone r. split; [apply handlePresenceLeave_peers|].
  split; [apply handlePresenceLeave_closes|].
  split; [intros Hsound pid pc; by apply handlePresenceLeave_spares|].
  split; [apply handlePresenceLeave_actions|]. split.
  - intros Hcb. unfold r, handlePresenceLeave. clear r.
    revert s Hcb. induction left as [|p left IH]; intros s Hcb; [done|].
    rewrite forEach_cons, seq_actions, IH.
    + rewrite handleUserLeft_eq.
      destruct (peers s !! presence_participantId p); [|done].
      cbn [snd]. by rewrite Hcb.
    + rewrite handleUserLeft_eq.
      by destruct (peers s !! presence_participantId p).
  - unfold handlePresenceLeave at 1. apply forEach_noop. intros p Hp.
    rewrite handleUserLeft_eq. unfold r.
    rewrite handlePresenceLeave_peers.
    rewrite bool_decide_eq_true_2; [done|].
    apply list_elem_of_fmap. by exists p.
Qed.

(** ** Disconnection and the grace period *)

(** X3 — a connection that reports [disconnected] is given five seconds: the
    handler arms one grace timer and touches neither the registry nor the
    retry counter.  If the timer finds the connection still [disconnected] it
    runs the failure procedure for the peer the connection was made for; if
    the connection has meanwhile reported any other state, or the peer's
    record was torn down through this connection, the timer does nothing. *)
Theorem disconnection_is_given_a_grace_period (s : WebRTCManager) (h : nat)
  (c : RTCPeerConnection) :
  conns s !! h = Some c →
  let r1 := onconnectionstatechange h disconnected s in
  r1.2 = [SetTimeout (GraceCheck h) 5000] ∧
  peers r1.1 = peers s ∧
  reconnectAttempts r1.1 = reconnectAttempts s ∧
  graceCheck h r1.1
    = handleConnectionFailure (cb_peerId c) (cb_name c) r1.1 ∧
  (∀ st, st ≠ disconnected →
     let r2 := onconnectionstatechange h st r1.1 in
     graceCheck h r2.1 = (r2.1, [])) ∧
  (∀ pc, peers s !! cb_peerId c = Some pc → peer pc = h →
     let r2 := handleUserLeft (cb_peerId c) r1.1 in
     graceCheck h r2.1 = (r2.1, [])).
Proof.
  intros Hc r1.
  assert (Hlt : h < length (conns s)) by (by eapply lookup_lt_Some).
  assert (Hr1 : r1 = (set_conns <[h := with_connectionState disconnected c]> s,
                      [SetTimeout (GraceCheck h) 5000])).
  { unfold r1, onconnectionstatechange. by rewrite Hc. }
  rewrite Hr1. cbn [fst snd].
  assert (Hc1 : conns (set_conns <[h := with_connectionState disconnected c]> s)
                  !! h = Some (with_connectionState disconnected c)).
  { step_cbn. by apply list_lookup_insert_eq. }
  split; [done|]. split; [done|]. split; [done|]. split; [|split].
  - unfold graceCheck. rewrite Hc1. cbn [connectionState with_connectionState].
    by rewrite bool_decide_eq_true_2.
  - intros st Hst.
    set (s1 := set_conns <[h := with_connectionState disconnected c]> s) in *.
    assert (Hdone : ∀ s2 c2, conns s2 !! h = Some c2 →
                      connectionState c2 ≠ disconnected →
                      graceCheck h s2 = (s2, [])).
    { intros s2 c2 H2 Hn. unfold graceCheck. rewrite H2.
      by rewrite bool_decide_eq_false_2. }
    assert (Hc2 : conns (set_conns
                    <[h := with_connectionState st
                             (with_connectionState disconnected c)]> s1) !! h
                  = Some (with_connectionState st
                            (with_connectionState disconnected c))).
    { unfold s1. step_cbn. apply list_lookup_insert_eq.
      by rewrite length_insert. }
    unfold onconnectionstatechange. rewrite Hc1.
    rewrite seq_state. cbn [modify fst].
    destruct st; try done; cbn [fst skip emit modify];
      try (eapply Hdone; [exact Hc2 | done]).
    (* failed: the failure procedure may close this very connection *)
    rewrite handleConnectionFailure_eq. cbn zeta.
    set (s2 := set_conns _ s1) in *.
    destruct (peers s2 !! cb_peerId _) as [pc|] eqn:Hpc;
      case_bool_decide; cbn [fst].
    all: try (eapply Hdone; [exact Hc2 | done]).
    all: destruct (decide (peer pc = h)) as [Heq|Hne].
    all: try (eapply (Hdone _ (close (with_connectionState failed
                                        (with_connectionState disconnected c))));
              [step_cbn; rewrite Heq, list_lookup_alter_eq;
               step_cbn_in Hc2; by rewrite Hc2 | done]).
    all: eapply Hdone; [step_cbn; rewrite list_lookup_alter_ne by done;
                        step_cbn_in Hc2; exact Hc2 | done].
  - intros pc Hpc Hh. rewrite handleUserLeft_eq.
    step_cbn. rewrite Hpc. cbn [fst].
    unfold graceCheck. step_cbn. rewrite Hh, list_lookup_alter_eq.
    step_cbn_in Hc1. rewrite Hc1. cbn [fmap option_fmap option_map].
    by rewrite bool_decide_eq_false_2.
Qed.

(** ** Connections the registry loses sight of *)

Lemma createPeerConnection_conns_old B pid nm i s h :
  h < length (conns s) →
  conns (createPeerConnection B pid nm i s).1 !! h = conns s !! h.
Proof.
  intros Hlt. unfold createPeerConnection, createPeerConnection_setup,
    createPeerConnection_offer.
  rewrite seq_state. step_cbn.
  destruct i; step_cbn; [|by rewrite lookup_app_l].
  rewrite lookup_app_r by done. rewrite Nat.sub_diag.
  cbn [lookup list_lookup].
  destruct (createOffer B _) as [o|]; [|step_cbn; by rewrite lookup_app_l].
  destruct (setLocalDescription B _ o) as [c'|];
    [|step_cbn; by rewrite lookup_app_l].
  step_cbn.
  rewrite list_lookup_insert_ne by lia. by rewrite lookup_app_l.
Qed.

Lemma createPeerConnection_length B pid nm i s :
  length (conns (createPeerConnection B pid nm i s).1) = S (length (conns s)).
Proof.
  unfold createPeerConnection, createPeerConnection_setup,
    createPeerConnection_offer.
  rewrite seq_state. step_cbn.
  destruct i; step_cbn; [|rewrite length_app; cbn; lia].
  rewrite lookup_app_r by done. rewrite Nat.sub_diag.
  cbn [lookup list_lookup].
  destruct (createOffer B _) as [o|]; [|step_cbn; rewrite length_app; cbn; lia].
  destruct (setLocalDescription B _ o) as [c'|];
    [|step_cbn; rewrite length_app; cbn; lia].
  step_cbn.
  rewrite length_insert, length_app. cbn. lia.
Qed.

Lemma createPeerConnection_peers B pid nm i s q :
  peers (createPeerConnection B pid nm i s).1 !! q
  = (if bool_decide (q = pid)
     then peers (createPeerConnection B pid nm i s).1 !! pid
     else peers s !! q) ∧
  (peers (createPeerConnection B pid nm i s).1 !! pid = None ∨
   peers (createPeerConnection B pid nm i s).1 !! pid
   = Some (mkPeer pid (length (conns s)) nm)).
Proof.
  unfold createPeerConnection, createPeerConnection_setup,
    createPeerConnection_offer.
  rewrite seq_state. step_cbn.
  assert (Hq : ∀ m : gmap string PeerConnection,
            (<[pid := mkPeer pid (length (conns s)) nm]> m) !! q
            = if bool_decide (q = pid)
              then Some (mkPeer pid (length (conns s)) nm) else m !! q).
  { intros m. case_bool_decide as E; [subst; apply lookup_insert_eq|].
    by apply lookup_insert_ne. }
  assert (Hd : ∀ m : gmap string PeerConnection,
            delete pid (<[pid := mkPeer pid (length (conns s)) nm]> m) !! q
            = if bool_decide (q = pid) then None else m !! q).
  { intros m. case_bool_decide as E; [subst; apply lookup_delete_eq|].
    rewrite lookup_delete_ne by done. by apply lookup_insert_ne. }
  destruct i.
  - step_cbn. rewrite lookup_app_r by done. rewrite Nat.sub_diag.
    cbn [lookup list_lookup].
    destruct (createOffer B _) as [o|].
    + destruct (setLocalDescription B _ o) as [c'|].
      * step_cbn. rewrite Hq, lookup_insert_eq.
        split; [by case_bool_decide | by right].
      * step_cbn. rewrite Hd, lookup_delete_eq.
        split; [by case_bool_decide | by left].
    + step_cbn. rewrite Hd, lookup_delete_eq.
      split; [by case_bool_decide | by left].
  - step_cbn. rewrite Hq, lookup_insert_eq.
    split; [by case_bool_decide | by right].
Qed.

(** X4 — [createPeerConnection] does not look for an earlier record.  Run for
    a peer that has one (as the reconnect timer does when the peer was found
    again before the timer fired), it files a new connection under the peer's
    id, or no record at all if the offer fails, and leaves the earlier
    connection object exactly as it was, in particular not closed; the
    registry being sound, no record refers to that connection any more.
    Records of other peers are not touched. *)
Theorem reconnect_replaces_record_without_closing (B : Browser)
  (s : WebRTCManager) (pid nm : string) (pc : PeerConnection)
  (c : RTCPeerConnection) :
  registry_sound s →
  peers s !! pid = Some pc →
  conns s !! peer pc = Some c →
  let r := fire B (Reconnect pid nm) RosterError s in
  conns r.1 !! peer pc = Some c ∧
  length (conns r.1) = S (length (conns s)) ∧
  (peers r.1 !! pid = None ∨
   peers r.1 !! pid = Some (mkPeer pid (length (conns s)) nm)) ∧
  (∀ q pc', peers r.1 !! q = Some pc' → peer pc' ≠ peer pc) ∧
  (∀ q, q ≠ pid → peers r.1 !! q = peers s !! q).
Proof.
  intros Hsound Hpc Hc r. unfold r. cbn [fire].
  destruct (Hsound pid pc Hpc) as (_ & Hlt & Huniq).
  split; [by rewrite createPeerConnection_conns_old|].
  split; [apply createPeerConnection_length|].
  destruct (createPeerConnection_peers B pid nm true s pid) as [_ Hnew].
  split; [exact Hnew|]. split.
  - intros q pc' Hq Heq.
    destruct (createPeerConnection_peers B pid nm true s q) as [Hq' _].
    rewrite Hq in Hq'. case_bool_decide as E.
    + destruct Hnew as [Hn|Hn]; rewrite Hn in Hq'; [done|].
      injection Hq' as ->. cbn in Heq. lia.
    + symmetry in Hq'. by apply E, (Huniq q pc').
  - intros q Hq.
    destruct (createPeerConnection_peers B pid nm true s q) as [Hq' _].
    by rewrite bool_decide_eq_false_2 in Hq'.
Qed.

(** X5 — the handlers installed on a connection name the peer, not the
    connection.  When a connection that is no longer the registered one for
    its peer reports [failed], the failure procedure closes and drops the
    record that is registered for that peer now, and the connection that
    failed is itself left open. *)
Theorem failure_of_replaced_connection_drops_current_record
  (s : WebRTCManager) (h : nat) (c c' : RTCPeerConnection)
  (pc : PeerConnection) :
  conns s !! h = Some c →
  peers s !! cb_peerId c = Some pc →
  peer pc ≠ h →
  conns s !! peer pc = Some c' →
  let r := onconnectionstatechange h failed s in
  peers r.1 !! cb_peerId c = None ∧
  conns r.1 !! peer pc = Some (close c') ∧
  conns r.1 !! h = Some (with_connectionState failed c) ∧
  (∀ q, q ≠ cb_peerId c → peers r.1 !! q = peers s !! q).
Proof.
  intros Hc Hpc Hne Hc' r. unfold r, onconnectionstatechange.
  rewrite Hc, seq_state. cbn [modify fst].
  rewrite handleConnectionFailure_eq. cbn zeta. step_cbn. rewrite Hpc.
  assert (Hlt : h < length (conns s)) by (by eapply lookup_lt_Some).
  case_bool_decide; step_cbn.
  all: rewrite lookup_delete_eq, list_lookup_alter_eq.
  all: rewrite list_lookup_insert_ne by done.
  all: rewrite Hc'.
  all: rewrite list_lookup_alter_ne by done.
  all: rewrite list_lookup_insert_eq by done.
  all: repeat split; try done.
  all: intros q Hq; by rewrite lookup_delete_ne.
Qed.

(** ** Negotiations the browser refuses *)

(** X6 — when the browser refuses a step of a negotiation on a connection
    that was just made, the record is taken out of the registry again and
    nothing is sent, but the connection object is not closed: it stays as it
    was made, in [stable].  This holds for an offer from a peer without a
    record whose description the browser rejects, and for the initiator whose
    [createOffer] is rejected. *)
Theorem refused_negotiation_leaves_connection_open (B : Browser)
  (s : WebRTCManager) (pid nm : string) (offer : RTCSessionDescriptionInit) :
  let c0 := attachTracks B (localStream s) (newRTCPeerConnection pid nm) in
  peers s !! pid = None →
  signalingState c0 = stable ∧
  (setRemoteDescription B c0 offer = None →
   handleOffer B pid (participantId s) offer nm s
   = (set_conns (λ l, l ++ [c0]) s, [])) ∧
  (createOffer B c0 = None →
   createPeerConnection B pid nm true s
   = (set_conns (λ l, l ++ [c0]) s, [])).
Proof.
  intros c0 Hnone.
  assert (Hst : signalingState c0 = stable).
  { unfold c0, attachTracks. by destruct (localStream s). }
  assert (Hback : set_peers (delete pid)
                    (set_peers <[pid := mkPeer pid (length (conns s)) nm]>
                       (set_conns (λ l, l ++ [c0]) s))
                  = set_conns (λ l, l ++ [c0]) s).
  { apply manager_ext; step_cbn; try reflexivity.
    rewrite delete_insert_eq. by apply delete_id. }
  split; [done|]. split.
  - intros Hrej. unfold handleOffer.
    rewrite bool_decide_eq_false_2 by (by intros ?).
    rewrite Hnone. unfold acceptOffer, createPeerConnection,
      createPeerConnection_setup.
    unfold seq at 2. step_cbn. unfold seq. step_cbn.
    rewrite lookup_insert_eq. unfold answerOffer. step_cbn.
    rewrite lookup_app_r by done. rewrite Nat.sub_diag.
    cbn [lookup list_lookup]. fold c0. rewrite Hst.
    rewrite bool_decide_eq_true_2 by done. cbn [orb]. rewrite Hrej.
    step_cbn. by rewrite Hback.
  - intros Hrej. unfold createPeerConnection, createPeerConnection_setup,
      createPeerConnection_offer.
    unfold seq. step_cbn.
    rewrite lookup_app_r by done. rewrite Nat.sub_diag.
    cbn [lookup list_lookup]. fold c0. rewrite Hrej.
    step_cbn. by rewrite Hback.
Qed.

(** ** One budget for every retry *)

(** X7 — the retry counter is one budget for the whole manager.  Along any
    sequence of events in which no connection reaches [connected] and
    [refreshConnection] is not called, the counter rises by exactly the
    number of retries armed, resubscriptions of the signalling channel and
    fresh attempts at peers counted together; so, whatever happened before,
    a manager arms at most five of them in such a stretch.  A channel error
    below the cap arms the resubscription 1000 ms times the new counter value
    out; at the cap neither a channel error nor the failure of a peer arms
    anything. *)
Theorem retries_share_one_budget (B : Browser) (meeting me myName : string)
  (hb poll : nat) (before es : list Event) :
  Forall (λ e, resets e = false) es →
  let s := (run B before (new_WebRTCManager meeting me myName hb poll).1).1 in
  let r := run B es s in
  reconnectAttempts r.1 = reconnectAttempts s + armed r.2 ∧
  armed r.2 ≤ 5 ∧
  (reconnectAttempts s < 5 →
   handleSystem "CHANNEL_ERROR" s
   = (set_reconnectAttempts (S (reconnectAttempts s)) s,
      [SetTimeout Resubscribe (S (reconnectAttempts s) * 1000)])) ∧
  (5 ≤ reconnectAttempts s →
   ∀ status pid nm,
     handleSystem status s = (s, []) ∧
     armed (handleConnectionFailure pid nm s).2 = 0 ∧
     reconnectAttempts (handleConnectionFailure pid nm s).1
     = reconnectAttempts s).
Proof.
  intros Hes s r.
  pose proof (paid_run B es s Hes) as Hr.
  pose proof (steady_run B _ before _
                (steady_refl (new_WebRTCManager meeting me myName hb poll).1))
    as Hs.
  fold s in Hs.
  pose proof (steady_run B _ es _ Hs) as (Hcap & _).
  unfold paid in Hr. fold r in Hr, Hcap.
  change (reconnectAttempts (new_WebRTCManager meeting me myName hb poll).1)
    with 0 in Hcap.
  unfold maxReconnectAttempts in Hcap.
  split; [exact Hr|]. split; [lia|]. split.
  - intros Hlt. rewrite handleSystem_eq. unfold maxReconnectAttempts.
    rewrite !bool_decide_eq_true_2 by done. cbn [andb].
    do 3 f_equal. lia.
  - intros Hge status pid nm. rewrite handleSystem_eq.
    rewrite handleConnectionFailure_eq. unfold maxReconnectAttempts.
    rewrite (bool_decide_eq_false_2 (reconnectAttempts s < 5)) by lia.
    rewrite andb_false_r. cbn zeta. split; [done|].
    destruct (peers s !! pid); [|done].
    by destruct (onPeerLeftCallback s).
Qed.

(** ** What leaves the registry alone *)

Ltac same_leaf :=
  repeat match goal with
    | H : same_registry _ _ |- _ => destruct H as [? ?]
    end;
  unfold same_registry; cbn [modify fst]; step_cbn;
  rewrite ?length_insert, ?length_alter; split; congruence.

Ltac same_go := inv_go ltac:(same_leaf) ltac:(eauto).

Lemma same_registry_substituteVideo s0 t h s :
  same_registry s0 s → same_registry s0 (substituteVideo t h s).1.
Proof. intros H. unfold substituteVideo. same_go. Qed.

Lemma same_registry_applyBackgroundBlur B s0 canvas s :
  same_registry s0 s → same_registry s0 (applyBackgroundBlur B canvas s).1.
Proof.
  intros H. unfold applyBackgroundBlur.
  inv_go ltac:(same_leaf) ltac:(eauto using same_registry_substituteVideo).
Qed.

Lemma same_registry_removeBackgroundBlur s0 cam s :
  same_registry s0 s → same_registry s0 (removeBackgroundBlur cam s).1.
Proof.
  intros H. unfold removeBackgroundBlur, stopTrack.
  inv_go ltac:(same_leaf) ltac:(eauto using same_registry_substituteVideo).
Qed.

(** X8 — only a join or a leave of a participant, an offer, a failure of a
    connection (reported, or found by the grace timer), the reconnect timer,
    [leaveMeeting] and [refreshConnection] can change who is in the registry:
    the handler of any other event returns a state with the same registry and
    the same number of connection objects.  That covers answers and
    candidates, hand raising, channel errors and resubscription, every other
    state change of a connection, incoming tracks, and all of the media
    surface (camera, screen share, blur, mute). *)
Theorem other_events_leave_the_registry_alone (B : Browser)
  (s : WebRTCManager) (e : Event) :
  may_change_registry e = false →
  peers (dispatch B e s).1 = peers s ∧
  length (conns (dispatch B e s).1) = length (conns s).
Proof.
  intros He.
  assert (H : same_registry s s) by done.
  change (same_registry s (dispatch B e s).1).
  destruct e; cbn [dispatch]; try discriminate;
    try match goal with |- context [fire _ ?k _] =>
          destruct k; try discriminate; cbn [fire] end;
    try match goal with
      | |- context [onconnectionstatechange _ ?st] =>
          destruct st; try discriminate
      end;
    unfold handleAnswer, handleIceCandidate, handleHandRaised,
      handleMediaStateChanged, handleSystem, setupSignaling, heartbeatTick,
      reannounce, onconnectionstatechange, oniceconnectionstatechange,
      onicecandidate, ontrack, onended, initializeMedia, toggleBackgroundBlur,
      startScreenShare, joinMeeting, toggleAudio, toggleVideo, raiseHand,
      onStream, onPeerLeft, onHandRaised;
    inv_go ltac:(same_leaf)
           ltac:(eauto using same_registry_substituteVideo,
                   same_registry_applyBackgroundBlur,
                   same_registry_removeBackgroundBlur).
Qed.

(** ** Discovery only adds *)

Lemma holds_record_handleUserJoined B pid pc c q nm s :
  holds_record pid pc c s → holds_record pid pc c (handleUserJoined B q nm s).1.
Proof.
  intros (Hpc & Hc & Hlt). unfold handleUserJoined.
  case_bool_decide; [done|]. case_bool_decide as Hknown; [done|].
  assert (Hne : pid ≠ q).
  { intros ->. apply Hknown. by rewrite Hpc. }
  destruct (createPeerConnection_peers B q nm true s pid) as [Hp _].
  rewrite bool_decide_eq_false_2 in Hp by done.
  split; [by rewrite Hp|]. split.
  - by rewrite createPeerConnection_conns_old.
  - rewrite createPeerConnection_length. lia.
Qed.

Lemma forEach_actions {A} (I : WebRTCManager → Prop) (Q : Action → Prop)
  (f : A → Step) l : ∀ s,
  I s → (∀ x s', I s' → I (f x s').1 ∧ Forall Q (f x s').2) →
  I (forEach f l s).1 ∧ Forall Q (forEach f l s).2.
Proof.
  induction l as [|x l IH]; intros s Hs Hf; [by split|].
  rewrite forEach_cons, seq_state, seq_actions.
  destruct (Hf x s Hs) as [H1 H2].
  destruct (IH (f x s).1 H1 Hf) as [H3 H4].
  split; [done|]. by apply Forall_app.
Qed.

Lemma handleUserJoined_offers B s0 q nm s :
  steady s0 s →
  steady s0 (handleUserJoined B q nm s).1 ∧
  Forall (offer_of s0) (handleUserJoined B q nm s).2.
Proof.
  intros H. split; [by apply steady_handleUserJoined|].
  destruct H as (_ & _ & Hid & Hnm & _).
  unfold handleUserJoined. repeat case_bool_decide; try by apply Forall_nil.
  unfold createPeerConnection, createPeerConnection_setup,
    createPeerConnection_offer. rewrite seq_actions. step_cbn.
  repeat case_match; step_cbn; try by apply Forall_nil.
  apply Forall_singleton. rewrite Hid, Hnm. by eexists _, _.
Qed.

(** X9 — learning of participants only ever adds to the registry.  Whatever a
    [user-joined] broadcast, a presence push or sync, or a roster poll
    reports, a record that is in the registry stays there as it is and its
    connection object is not touched; the only actions taken are the offers
    sent to newly found participants. *)
Theorem discovery_keeps_existing_records (B : Browser) (s : WebRTCManager)
  (e : Event) (pid : string) (pc : PeerConnection) :
  is_discovery e = true →
  peers s !! pid = Some pc →
  peer pc < length (conns s) →
  let r := dispatch B e s in
  peers r.1 !! pid = Some pc ∧
  conns r.1 !! peer pc = conns s !! peer pc ∧
  Forall (offer_of s) r.2.
Proof.
  intros He Hpc Hlt r.
  assert (H : holds_record pid pc (conns s !! peer pc) s) by done.
  assert (Hkeep : holds_record pid pc (conns s !! peer pc) r.1).
  { unfold r.
    destruct e; try discriminate; cbn [dispatch];
      try match goal with |- context [fire _ ?k _] =>
            destruct k; try discriminate; cbn [fire] end;
      unfold handlePresenceSync, handlePresenceJoin, checkForNewParticipants,
        pollRow;
      inv_go ltac:(fail) ltac:(eauto using holds_record_handleUserJoined). }
  destruct Hkeep as (H1 & H2 & _). split; [done|]. split; [done|].
  pose proof (steady_refl s) as Hst.
  assert (Hrow : ∀ q nm (b : bool) s',
            steady s s' →
            steady s ((if b then handleUserJoined B q nm s' else skip s')).1 ∧
            Forall (offer_of s)
              ((if b then handleUserJoined B q nm s' else skip s')).2).
  { intros q nm b s' Hs'. destruct b; [by apply handleUserJoined_offers|].
    by split. }
  unfold r.
  destruct e; try discriminate; cbn [dispatch];
    try match goal with |- context [fire _ ?k _] =>
          destruct k; try discriminate; cbn [fire] end.
  - by apply handleUserJoined_offers.
  - unfold handlePresenceSync.
    apply (forEach_actions (steady s)); [done|]. intros kv s1 Hs1.
    apply (forEach_actions (steady s)); [done|]. intros p s2 Hs2.
    apply Hrow. done.
  - unfold handlePresenceJoin.
    apply (forEach_actions (steady s)); [done|]. intros p s2 Hs2.
    apply Hrow. done.
  - unfold checkForNewParticipants. destruct r0 as [|[rows|]]; try by apply Forall_nil.
    apply (forEach_actions (steady s)); [done|]. intros p s2 Hs2.
    unfold pollRow. apply Hrow. done.
  - unfold checkForNewParticipants. destruct r0 as [|[rows|]]; try by apply Forall_nil.
    apply (forEach_actions (steady s)); [done|]. intros p s2 Hs2.
    unfold pollRow. apply Hrow. done.
Qed.

(** ** The handshake of a newcomer *)

Section Handshake.
Variable gen : RTCSdpType → RTCPeerConnection → string.
Local Abbreviation J := (jsep gen).

Lemma createPeerConnection_jsep s pid nm :
  createPeerConnection J pid nm true s
  = (has_offered gen s pid nm,
     [Send (Offer (participantId s) pid (its_offer gen s pid nm)
              (participantName s))]).
Proof.
  unfold createPeerConnection, createPeerConnection_setup,
    createPeerConnection_offer, has_offered, offering, its_offer.
  unfold seq. step_cbn.
  rewrite lookup_app_r by done. rewrite Nat.sub_diag. cbn [lookup list_lookup].
  cbn [jsep createOffer setLocalDescription].
  unfold jsep_createOffer, jsep_setLocalDescription.
  rewrite attachTracks_signalingState.
  cbn [newRTCPeerConnection signalingState sdp_type jsep_local_next mbind
       option_bind].
  step_cbn. f_equal.
  apply manager_ext; step_cbn; try reflexivity.
  rewrite insert_app_r_alt by done. rewrite Nat.sub_diag. reflexivity.
Qed.

Ltac wire_cbn :=
  cbn [hops hop mbind option_bind lookup list_lookup to_left to_right
       left_node right_node delete list_delete sent omap list_omap app
       fst snd].

Lemma joinMeeting_first s :
  isInitialized s = false →
  joinMeeting s
  = (set_isInitialized true s,
     [PresenceTrack (participantId s) (participantName s);
      Send (UserJoined (participantId s) (participantName s));
      SetTimeout InitialRosterCheck 1000]).
Proof. intros H. unfold joinMeeting. by rewrite H. Qed.

Variables n e : WebRTCManager.
Hypothesis distinct : participantId n ≠ participantId e.
Hypothesis e_new_to_n : peers n !! participantId e = None.
Hypothesis n_new_to_e : peers e !! participantId n = None.
Hypothesis first_join : isInitialized n = false.

Local Abbreviation n1 := (set_isInitialized true n).
Local Abbreviation o := (its_offer gen e (participantId n) (participantName n)).
Local Abbreviation a :=
  (its_answer gen n1 (participantId e) (participantName e) o).

Lemma e_offers :
  receive J (UserJoined (participantId n) (participantName n)) e
  = (has_offered gen e (participantId n) (participantName n),
     [Send (Offer (participantId e) (participantId n) o (participantName e))]).
Proof.
  cbn [receive]. rewrite handleUserJoined_unknown by done.
  apply createPeerConnection_jsep.
Qed.

Lemma n_answers :
  receive J (Offer (participantId e) (participantId n) o (participantName e)) n1
  = (has_answered gen n1 (participantId e) (participantName e) o,
     [Send (Answer (participantId n) (participantId e) a (participantName n))]).
Proof.
  cbn [receive]. unfold handleOffer.
  rewrite bool_decide_eq_false_2 by (by intros ?).
  step_cbn. rewrite e_new_to_n. by rewrite acceptOffer_jsep.
Qed.

Lemma e_takes_answer :
  receive J (Answer (participantId n) (participantId e) a (participantName n))
    (has_offered gen e (participantId n) (participantName n))
  = ((right_node (welcomed gen n e)), []).
Proof.
  cbn [receive].
  change (participantId e) with
    (participantId (has_offered gen e (participantId n) (participantName n)))
    at 1.
  rewrite (handleAnswer_jsep gen _ (participantId n) a _
             (mkPeer (participantId n) (length (conns e)) (participantName n))
             (offering gen e (participantId n) (participantName n))).
  - unfold welcomed. rewrite joinMeeting_first by done. done.
  - unfold has_offered. step_cbn. apply lookup_insert_eq.
  - unfold has_offered. step_cbn. rewrite lookup_app_r by done.
    by rewrite Nat.sub_diag.
  - done.
  - done.
Qed.

Lemma arrival_eq :
  arrival n e
  = mkPair n1 e [] [UserJoined (participantId n) (participantName n)].
Proof. unfold arrival. by rewrite joinMeeting_first. Qed.

Lemma welcomed_left :
  left_node (welcomed gen n e)
  = has_answered gen n1 (participantId e) (participantName e) o.
Proof. unfold welcomed. by rewrite joinMeeting_first. Qed.

Lemma from_arrival xs n' :
  hops J xs (arrival n e) = Some n' → quiet n' → n' = welcomed gen n e.
Proof.
  rewrite arrival_eq.
  destruct xs as [|[i|i] xs]; wire_cbn.
  { intros [= <-] [_ ?]. done. }
  { by destruct i. }
  destruct i as [|i]; wire_cbn; [|by destruct i].
  rewrite e_offers. wire_cbn.
  destruct xs as [|[i|i] xs]; wire_cbn.
  { intros [= <-] [? _]. done. }
  2: { by destruct i. }
  destruct i as [|i]; wire_cbn; [|by destruct i].
  rewrite n_answers. wire_cbn.
  destruct xs as [|[i|i] xs]; wire_cbn.
  { intros [= <-] [_ ?]. done. }
  { by destruct i. }
  destruct i as [|i]; wire_cbn; [|by destruct i].
  rewrite e_takes_answer. wire_cbn.
  destruct xs as [|[i|i] xs]; wire_cbn.
  - intros [= <-] _. unfold welcomed. rewrite joinMeeting_first by done. done.
  - by destruct i.
  - by destruct i.
Qed.

End Handshake.

(** ** Refreshing, and timers that outlive a leave *)

Lemma closeAll_length L : ∀ l, length (closeAll L l) = length l.
Proof.
  induction L as [|pc L IH]; intros l; [done|].
  unfold closeAll. cbn [foldl]. fold (closeAll L (alter close (peer pc) l)).
  by rewrite IH, length_alter.
Qed.

Lemma refreshConnection_eq s :
  refreshConnection s
  = (after_refresh s,
     [Unsubscribe Signaling; Subscribe Signaling; SetTimeout Reannounce 1000]).
Proof.
  unfold refreshConnection, setupSignaling, forEachPeer.
  unfold seq at 1. step_cbn. unfold seq at 1.
  rewrite forEach_closePeer. step_cbn. unfold seq. step_cbn.
  f_equal.
Qed.

(** X11 — [refreshConnection] starts over without telling anybody: it sets the
    retry counter to zero, closes the connection of every record and empties
    the registry, drops and renews the subscription of the signalling channel
    and arms the re-announcement one second out, and that is all it does: the
    peer-left observer is not called for any of the records dropped (the
    meeting room keeps showing what it showed), the two interval timers, the presence subscription, the local stream and the
    joined flag stay as they are.  The re-announcement tracks presence and
    broadcasts [user-joined] whether or not [joinMeeting] was ever called.
    Refreshing the state it leaves behind gives that state back. *)
Theorem refreshConnection_starts_over (B : Browser) (s : WebRTCManager)
  (ro : RosterResult) (room : Room) :
  let r := refreshConnection s in
  peers r.1 = ∅ ∧
  map_Forall (λ _ pc, conns r.1 !! peer pc = close <$> conns s !! peer pc)
    (peers s) ∧
  length (conns r.1) = length (conns s) ∧
  reconnectAttempts r.1 = 0 ∧
  r.2 = [Unsubscribe Signaling; Subscribe Signaling;
         SetTimeout Reannounce 1000] ∧
  shown r.2 room = room ∧
  signalingSubscribed r.1 = true ∧
  presenceSubscribed r.1 = presenceSubscribed s ∧
  activeIntervals r.1 = activeIntervals s ∧
  heartbeatInterval r.1 = heartbeatInterval s ∧
  participantCheckInterval r.1 = participantCheckInterval s ∧
  localStream r.1 = localStream s ∧
  isInitialized r.1 = isInitialized s ∧
  fire B Reannounce ro r.1
    = (r.1, [PresenceTrack (participantId s) (participantName s);
             Send (UserJoined (participantId s) (participantName s))]) ∧
  (refreshConnection r.1).1 = r.1.
Proof.
  intros r. unfold r. rewrite !refreshConnection_eq. cbn [fst snd].
  repeat split; try done.
  - intros pid pc Hpc. cbn [after_refresh conns]. rewrite closeAll_lookup.
    rewrite bool_decide_eq_true_2; [done|].
    apply list_elem_of_fmap. exists pc. split; [done|].
    apply list_elem_of_fmap. exists (pid, pc). split; [done|].
    by apply elem_of_map_to_list.
  - cbn [after_refresh conns]. apply closeAll_length.
Qed.

Lemma after_leave_conn s pid pc :
  peers s !! pid = Some pc →
  conns (after_leave s) !! peer pc = close <$> conns s !! peer pc.
Proof.
  intros Hpc. cbn [after_leave conns]. rewrite closeAll_lookup.
  rewrite bool_decide_eq_true_2; [done|].
  apply list_elem_of_fmap. exists pc. split; [done|].
  apply list_elem_of_fmap. exists (pid, pc). split; [done|].
  by apply elem_of_map_to_list.
Qed.

(** what one row of the roster leads to under [jsep gen] *)
Lemma pollRow_jsep gen s p :
  pollRow (jsep gen) p s
  = if bool_decide (participant_name p ≠ participantName s)
       && negb (bool_decide (is_Some (peers s !! participant_id p)))
       && negb (bool_decide (participant_id p = participantId s))
    then (has_offered gen s (participant_id p) (participant_name p),
          [Send (Offer (participantId s) (participant_id p)
                   (its_offer gen s (participant_id p) (participant_name p))
                   (participantName s))])
    else (s, []).
Proof.
  unfold pollRow, handleUserJoined.
  destruct (bool_decide (participant_name p ≠ participantName s)); [|done].
  destruct (bool_decide (is_Some (peers s !! participant_id p))) eqn:E;
    [done|]. cbn [negb andb].
  destruct (bool_decide (participant_id p = participantId s)); [done|].
  cbn [negb]. apply createPeerConnection_jsep.
Qed.

Lemma offered_to_has_offered gen s pid nm :
  offered_to pid (has_offered gen s pid nm).
Proof.
  exists (mkPeer pid (length (conns s)) nm), (offering gen s pid nm).
  unfold has_offered. step_cbn.
  split; [apply lookup_insert_eq|].
  split; [rewrite lookup_app_r by done; by rewrite Nat.sub_diag|].
  split; [rewrite length_app; cbn; lia|].
  split; [done|]. unfold offering. cbn. by destruct (localStream s).
Qed.

Lemma offered_to_pollRow gen pid p s :
  offered_to pid s → offered_to pid (pollRow (jsep gen) p s).1.
Proof.
  intros (pc & c & Hpc & Hc & Hlt & Hst & Hid). rewrite pollRow_jsep.
  destruct (bool_decide (participant_name p ≠ participantName s)); [|by exists pc, c].
  case_bool_decide as Hknown; [by exists pc, c|].
  destruct (bool_decide (participant_id p = participantId s)); [by exists pc, c|].
  cbn [negb andb fst].
  assert (Hne : participant_id p ≠ pid).
  { intros Heq. apply Hknown. rewrite Heq, Hpc. by eexists. }
  exists pc, c. unfold has_offered. step_cbn.
  split; [by rewrite lookup_insert_ne|].
  split; [by rewrite lookup_app_l|].
  split; [rewrite length_app; lia | done].
Qed.

Lemma pollRow_identity gen p s :
  participantId (pollRow (jsep gen) p s).1 = participantId s ∧
  participantName (pollRow (jsep gen) p s).1 = participantName s.
Proof. rewrite pollRow_jsep. by destruct (_ && _). Qed.

Lemma pollRow_elsewhere gen p q s :
  participant_id p ≠ q →
  peers (pollRow (jsep gen) p s).1 !! q = peers s !! q.
Proof.
  intros Hne. rewrite pollRow_jsep. destruct (_ && _); [|done].
  unfold has_offered. step_cbn. by rewrite lookup_insert_ne.
Qed.

(** the roster check reaches every row that does not carry the local name or
    id and is not in the registry *)
Lemma roster_check_reaches gen rows : ∀ s p,
  p ∈ rows →
  participant_name p ≠ participantName s →
  participant_id p ≠ participantId s →
  peers s !! participant_id p = None →
  let r := forEach (pollRow (jsep gen)) rows s in
  offered_to (participant_id p) r.1 ∧
  ∃ o, Send (Offer (participantId s) (participant_id p) o (participantName s))
       ∈ r.2.
Proof.
  induction rows as [|q rows IH]; intros s p Hin Hname Hid Hnew r;
    [by apply elem_of_nil in Hin|].
  unfold r. rewrite forEach_cons, seq_state, seq_actions.
  assert (Hkeep : ∀ s', offered_to (participant_id p) s' →
            offered_to (participant_id p) (forEach (pollRow (jsep gen)) rows s').1).
  { intros s' Hs'. apply (holds_forEach (offered_to (participant_id p))); [done|].
    intros y s''. apply offered_to_pollRow. }
  destruct (decide (participant_id q = participant_id p)) as [Heq|Hne].
  - (* this row names the participant: it is the one that is followed up,
       unless it carries the local name *)
    destruct (decide (participant_name q = participantName s)) as [Hq|Hq].
    + (* passed over; [p] itself comes later *)
      assert (Hskip : pollRow (jsep gen) q s = (s, [])).
      { rewrite pollRow_jsep. by rewrite bool_decide_eq_false_2 by (by intros ?). }
      rewrite Hskip. cbn [fst snd app].
      apply elem_of_cons in Hin as [->|Hin]; [done|].
      by apply IH.
    + assert (Hgo : pollRow (jsep gen) q s
                    = (has_offered gen s (participant_id q) (participant_name q),
                       [Send (Offer (participantId s) (participant_id q)
                                (its_offer gen s (participant_id q)
                                   (participant_name q))
                                (participantName s))])).
      { rewrite pollRow_jsep. rewrite bool_decide_eq_true_2 by done.
        rewrite Heq, Hnew.
        rewrite bool_decide_eq_false_2 by (by intros [? ?]).
        by rewrite bool_decide_eq_false_2. }
      rewrite Hgo. cbn [fst snd]. split.
      * apply Hkeep. rewrite <- Heq. apply offered_to_has_offered.
      * eexists. rewrite <- Heq. apply elem_of_app. left. by left.
  - apply elem_of_cons in Hin as [->|Hin]; [done|].
    destruct (pollRow_identity gen q s) as [Hi Hn].
    destruct (IH (pollRow (jsep gen) q s).1 p Hin) as [H1 [o H2]].
    + by rewrite Hn.
    + by rewrite Hi.
    + by rewrite pollRow_elsewhere.
    + split; [done|]. exists o. rewrite Hi, Hn in H2.
      apply elem_of_app. by right.
Qed.

Lemma after_leave_conn_unregistered s h :
  (∀ q pc, peers s !! q = Some pc → peer pc ≠ h) →
  conns (after_leave s) !! h = conns s !! h.
Proof.
  intros Hfree. cbn [after_leave conns]. rewrite closeAll_lookup.
  rewrite bool_decide_eq_false_2; [by destruct (conns s !! h)|].
  intros Hin. apply list_elem_of_fmap in Hin as (pc & -> & Hin).
  apply list_elem_of_fmap in Hin as ([q pc'] & -> & Hin).
  apply elem_of_map_to_list in Hin. by apply (Hfree q pc').
Qed.

(** X12 — [leaveMeeting] cancels the two interval timers and nothing else that
    was armed.  A grace timer that fires afterwards does nothing where its
    connection was in the registry at the leave, which closed it; where the
    connection was no longer in the registry, and so was left open, and is
    still [disconnected], the timer runs the reconnection procedure, which
    below the cap arms a retry.  A reconnect timer armed before the leave
    still makes a connection, files it in the emptied registry and sends an
    offer, and the roster check armed by [joinMeeting] still makes a
    connection and sends an offer to every participant in the roster that
    carries neither the local name nor the local id. *)
Theorem timers_outlive_leaveMeeting
  (gen : RTCSdpType → RTCPeerConnection → string) (s : WebRTCManager)
  (pid nm : string) (rows : list Participant) :
  let J := jsep gen in
  let gone := (leaveMeeting s).1 in
  let r := fire J (Reconnect pid nm) RosterError gone in
  let rr := fire J InitialRosterCheck (RosterData (Some rows)) gone in
  peers gone = ∅ ∧
  filter is_setTimeout (leaveMeeting s).2 = [] ∧
  map_Forall (λ _ pc, fire J (GraceCheck (peer pc)) RosterError gone
                      = (gone, [])) (peers s) ∧
  (∀ h c,
     conns s !! h = Some c →
     (∀ q pc, peers s !! q = Some pc → peer pc ≠ h) →
     fire J (GraceCheck h) RosterError gone
     = if bool_decide (connectionState c = disconnected)
          && bool_decide (reconnectAttempts s < 5)
       then (set_reconnectAttempts (S (reconnectAttempts s)) gone,
             [SetTimeout (Reconnect (cb_peerId c) (cb_name c))
                (2000 * S (reconnectAttempts s))])
       else (gone, [])) ∧
  r.2 = [Send (Offer (participantId s) pid (its_offer gen gone pid nm)
                 (participantName s))] ∧
  peers r.1 !! pid = Some (mkPeer pid (length (conns s)) nm) ∧
  (∃ c, conns r.1 !! length (conns s) = Some c ∧
        signalingState c = have_local_offer) ∧
  (∀ p, p ∈ rows →
     participant_name p ≠ participantName s →
     participant_id p ≠ participantId s →
     (∃ pc c, peers rr.1 !! participant_id p = Some pc ∧
              conns rr.1 !! peer pc = Some c ∧
              signalingState c = have_local_offer ∧
              cb_peerId c = participant_id p) ∧
     ∃ o, Send (Offer (participantId s) (participant_id p) o
                  (participantName s)) ∈ rr.2).
Proof.
  intros J gone r rr. unfold rr, r, gone, J. clear rr r gone J.
  rewrite !leaveMeeting_eq. cbn [fst snd fire].
  assert (Hlen : length (conns (after_leave s)) = length (conns s)).
  { cbn [after_leave conns]. apply closeAll_length. }
  split; [done|]. split.
  { unfold leave_actions.
    by destruct (heartbeatInterval s), (participantCheckInterval s). }
  split.
  { intros q pc Hpc. cbn beta. unfold graceCheck.
    rewrite (after_leave_conn s q pc Hpc).
    destruct (conns s !! peer pc) as [c|]; [|done].
    cbn [fmap option_fmap option_map]. by rewrite bool_decide_eq_false_2. }
  split.
  { intros h c Hc Hfree. unfold graceCheck.
    rewrite (after_leave_conn_unregistered s h Hfree), Hc.
    destruct (bool_decide (connectionState c = disconnected)); [|done].
    rewrite handleConnectionFailure_eq. cbn [andb].
    change (peers (after_leave s)) with (∅ : gmap string PeerConnection).
    rewrite lookup_empty. cbn zeta. unfold maxReconnectAttempts.
    change (reconnectAttempts (after_leave s)) with (reconnectAttempts s).
    by destruct (bool_decide (reconnectAttempts s < 5)). }
  rewrite createPeerConnection_jsep. cbn [fst snd].
  split; [done|]. split.
  { unfold has_offered. step_cbn. rewrite Hlen. apply lookup_insert_eq. }
  split.
  { exists (offering gen (after_leave s) pid nm). split; [|reflexivity].
    unfold has_offered. step_cbn.
    rewrite lookup_app_r by (by rewrite Hlen). by rewrite Hlen, Nat.sub_diag. }
  intros p Hin Hname Hid. unfold checkForNewParticipants.
  destruct (roster_check_reaches gen rows (after_leave s) p Hin Hname Hid)
    as [(pc & c & H1 & H2 & _ & H3 & H4) Hoffer]; [done|].
  split; [by exists pc, c | exact Hoffer].
Qed.

(** ** From one manager to another, and on to the room *)

(** X13 — leaving is seen by the others.  The only signalling message of
    [leaveMeeting] is the leave notice; a manager that holds a record for the
    leaver and receives it closes that connection, drops the record and calls
    the peer-left observer once, upon which the meeting room takes away the
    leaver's tile and raised hand and nothing else; the same notice arriving
    again does nothing. *)
Theorem leave_notice_clears_the_leaver (B : Browser) (sA sB : WebRTCManager)
  (pc : PeerConnection) (room : Room) :
  peers sB !! participantId sA = Some pc →
  onPeerLeftCallback sB = true →
  let notice := sent (leaveMeeting sA).2 in
  let r := deliver B notice sB in
  let room' := shown r.2 room in
  notice = [UserLeft (participantId sA)] ∧
  peers r.1 = delete (participantId sA) (peers sB) ∧
  conns r.1 = alter close (peer pc) (conns sB) ∧
  r.2 = [NotifyPeerLeft (participantId sA)] ∧
  remoteStreams room' = delete (participantId sA) (remoteStreams room) ∧
  handRaisedParticipants room'
    = handRaisedParticipants room ∖ {[participantId sA]} ∧
  deliver B notice r.1 = (r.1, []).
Proof.
  intros Hpc Hcb notice r room'.
  assert (Hn : notice = [UserLeft (participantId sA)]).
  { unfold notice. rewrite leaveMeeting_actions. unfold leave_actions.
    by destruct (heartbeatInterval sA), (participantCheckInterval sA). }
  assert (Hr : r = (set_peers (delete (participantId sA))
                      (set_conns (alter close (peer pc)) sB),
                    [NotifyPeerLeft (participantId sA)])).
  { unfold r, deliver. rewrite Hn, forEach_singleton. cbn [receive].
    by rewrite handleUserLeft_eq, Hpc, Hcb. }
  unfold room'. rewrite Hr. cbn [fst snd].
  repeat split; try done.
  unfold deliver. rewrite Hn, forEach_singleton. cbn [receive].
  rewrite handleUserLeft_eq. step_cbn. by rewrite lookup_delete_eq.
Qed.

(** X14 — a raised hand reaches the other rooms and not one's own.
    [raiseHand] changes nothing locally and broadcasts one message; reflected
    to its sender the message is ignored; a manager with another id hands it
    to the hand-raised observer as it came, and the meeting room then shows
    the sender's hand exactly if it was raised, its tiles staying as they
    are. *)
Theorem raised_hand_reaches_the_other_rooms (B : Browser)
  (sA sB : WebRTCManager) (raised : bool) (room : Room) :
  participantId sA ≠ participantId sB →
  onHandRaisedCallback sB = true →
  let hand := sent (raiseHand raised sA).2 in
  let r := deliver B hand sB in
  let room' := shown r.2 room in
  (raiseHand raised sA).1 = sA ∧
  hand = [HandRaised (participantId sA) (participantName sA) raised] ∧
  deliver B hand sA = (sA, []) ∧
  r.1 = sB ∧
  r.2 = [NotifyHandRaised (participantId sA) (participantName sA) raised] ∧
  (participantId sA ∈ handRaisedParticipants room' ↔ raised = true) ∧
  (∀ q, q ≠ participantId sA →
        q ∈ handRaisedParticipants room' ↔ q ∈ handRaisedParticipants room) ∧
  remoteStreams room' = remoteStreams room.
Proof.
  intros Hne Hcb hand r room'.
  assert (Hr : r = (sB, [NotifyHandRaised (participantId sA)
                            (participantName sA) raised])).
  { unfold r, deliver, hand. cbn [raiseHand emit snd sent omap list_omap].
    rewrite forEach_singleton. cbn [receive]. unfold handleHandRaised.
    rewrite bool_decide_eq_true_2 by done. by rewrite Hcb. }
  unfold room'. rewrite Hr. cbn [fst snd shown foldl notify].
  split; [done|]. split; [done|]. split.
  { unfold deliver, hand. cbn [raiseHand emit snd sent omap list_omap].
    rewrite forEach_singleton. cbn [receive]. unfold handleHandRaised.
    by rewrite bool_decide_eq_false_2 by (by intros ?). }
  split; [done|]. split; [done|].
  unfold room_onHandRaised. cbn [handRaisedParticipants remoteStreams].
  destruct raised; (split; [|split; [|done]]).
  - split; [done|]. intros _. by apply elem_of_union_r, elem_of_singleton.
  - intros q Hq. split.
    + intros [Hin|Hin%elem_of_singleton]%elem_of_union; done.
    + intros Hin. by apply elem_of_union_l.
  - split; [|discriminate]. intros [_ Hn]%elem_of_difference.
    exfalso. by apply Hn, elem_of_singleton.
  - intros q Hq. split.
    + by intros [Hin _]%elem_of_difference.
    + intros Hin. apply elem_of_difference. split; [done|].
      by rewrite elem_of_singleton.
Qed.

(** X15 — a local ICE candidate finds the peer's connection.  A candidate the
    browser gathers on a connection is broadcast addressed to the peer the
    connection was made for (the end-of-candidates signal is not sent); the
    addressee, if it holds a record for the sender, hands the candidate to
    that record's connection and keeps the result unless the browser refuses
    it; an addressee without such a record lets it drop, as does any other
    participant. *)
Theorem local_candidate_reaches_the_peer (B : Browser) (sA sB : WebRTCManager)
  (h : nat) (c : RTCPeerConnection) (candidate : string) :
  conns sA !! h = Some c →
  cb_peerId c = participantId sB →
  let out := onicecandidate h (Some candidate) sA in
  out = (sA, [Send (IceCandidate (participantId sA) (participantId sB)
                      candidate)]) ∧
  onicecandidate h None sA = (sA, []) ∧
  (∀ pc cB, peers sB !! participantId sA = Some pc →
     conns sB !! peer pc = Some cB →
     deliver B (sent out.2) sB
     = match addIceCandidate B cB candidate with
       | Some c' => (set_conns <[peer pc := c']> sB, [])
       | None => (sB, [])
       end) ∧
  (peers sB !! participantId sA = None →
   deliver B (sent out.2) sB = (sB, [])) ∧
  (∀ sC, participantId sC ≠ participantId sB →
         deliver B (sent out.2) sC = (sC, [])).
Proof.
  intros Hc Hto out.
  assert (Hout : out = (sA, [Send (IceCandidate (participantId sA)
                                     (participantId sB) candidate)])).
  { unfold out, onicecandidate. by rewrite Hc, Hto. }
  rewrite Hout. cbn [fst snd sent omap list_omap]. unfold deliver.
  split; [done|]. split; [unfold onicecandidate; by rewrite Hc|].
  split; [|split].
  - intros pc cB Hpc HcB. rewrite forEach_singleton. cbn [receive].
    unfold handleIceCandidate.
    rewrite bool_decide_eq_false_2 by (by intros ?).
    rewrite Hpc, HcB. by destruct (addIceCandidate B cB candidate).
  - intros Hnone. rewrite forEach_singleton. cbn [receive].
    unfold handleIceCandidate.
    rewrite bool_decide_eq_false_2 by (by intros ?). by rewrite Hnone.
  - intros sC HC. rewrite forEach_singleton. cbn [receive].
    unfold handleIceCandidate. rewrite bool_decide_eq_true_2; [done|].
    by intros ?.
Qed.

(** ** Mute and camera switches *)

Lemma set_enabled_here enabled ts d t :
  t ∈ ts → track_id t ∉ set_enabled enabled ts d ↔ enabled = true.
Proof.
  intros Hin.
  assert (Hid : track_id t ∈ (list_to_set (track_id <$> ts) : gset nat)).
  { apply elem_of_list_to_set, list_elem_of_fmap. by exists t. }
  unfold set_enabled. destruct enabled.
  - split; [done|]. intros _ [_ Hn]%elem_of_difference. by apply Hn.
  - split; [|discriminate]. intros Hn. exfalso. apply Hn.
    by apply elem_of_union_r.
Qed.

Lemma set_enabled_elsewhere enabled ts d i :
  i ∉ track_id <$> ts → i ∈ set_enabled enabled ts d ↔ i ∈ d.
Proof.
  intros Hnin.
  assert (Hid : i ∉ (list_to_set (track_id <$> ts) : gset nat)).
  { by rewrite elem_of_list_to_set. }
  unfold set_enabled. destruct enabled.
  - split; [by intros [? _]%elem_of_difference|].
    intros Hin. by apply elem_of_difference.
  - split; [by intros [?|?]%elem_of_union|].
    intros Hin. by apply elem_of_union_l.
Qed.

Lemma set_enabled_last_wins enabled again ts d :
  set_enabled enabled ts (set_enabled again ts d) = set_enabled enabled ts d.
Proof.
  unfold set_enabled. generalize (list_to_set (track_id <$> ts) : gset nat).
  intros A. apply set_eq. intros i.
  destruct (decide (i ∈ A)); destruct enabled, again;
    repeat (rewrite elem_of_difference || rewrite elem_of_union); tauto.
Qed.

(** X16 — [toggleAudio] sets the [enabled] flag of every audio track of the
    local stream to its argument and leaves the flag of every other track
    alone; it broadcasts one media-state message whose audio flag is the
    argument itself and whose video flag tells whether some video track of
    the stream is enabled; of two calls the later one decides.  [toggleVideo]
    does the same with the roles of audio and video exchanged.  Without a
    local stream both do nothing and send nothing. *)
Theorem mute_and_camera_switches (s : WebRTCManager) (enabled again : bool) :
  let ra := toggleAudio enabled s in
  let rv := toggleVideo enabled s in
  (localStream s = None → ra = (s, []) ∧ rv = (s, [])) ∧
  (∀ ts, localStream s = Some ts →
     (∀ t, t ∈ audio_tracks ts →
           track_id t ∉ disabledTracks ra.1 ↔ enabled = true) ∧
     (∀ i, i ∉ track_id <$> audio_tracks ts →
           i ∈ disabledTracks ra.1 ↔ i ∈ disabledTracks s) ∧
     ra.2 = [Send (MediaStateChanged (participantId s) enabled
                     (some_enabled (video_tracks ts) (disabledTracks ra.1)))] ∧
     (toggleAudio enabled (toggleAudio again s).1).1 = ra.1 ∧
     (∀ t, t ∈ video_tracks ts →
           track_id t ∉ disabledTracks rv.1 ↔ enabled = true) ∧
     (∀ i, i ∉ track_id <$> video_tracks ts →
           i ∈ disabledTracks rv.1 ↔ i ∈ disabledTracks s) ∧
     rv.2 = [Send (MediaStateChanged (participantId s)
                     (some_enabled (audio_tracks ts) (disabledTracks rv.1))
                     enabled)] ∧
     (toggleVideo enabled (toggleVideo again s).1).1 = rv.1).
Proof.
  intros ra rv. split.
  { intros Hnone. unfold ra, rv, toggleAudio, toggleVideo. by rewrite Hnone. }
  intros ts Hts. unfold ra, rv, toggleAudio, toggleVideo. rewrite Hts.
  step_cbn. rewrite Hts.
  split; [intros t Ht; by apply set_enabled_here|].
  split; [intros i Hi; by apply set_enabled_elsewhere|].
  split; [done|]. split.
  { step_cbn. apply manager_ext; step_cbn; try reflexivity.
    apply set_enabled_last_wins. }
  split; [intros t Ht; by apply set_enabled_here|].
  split; [intros i Hi; by apply set_enabled_elsewhere|].
  split; [done|].
  step_cbn. apply manager_ext; step_cbn; try reflexivity.
  apply set_enabled_last_wins.
Qed.

(** ** New media and connections that exist *)

Lemma replaceTrack_idemp i t c :
  replaceTrack i t (replaceTrack i t c) = replaceTrack i t c.
Proof.
  unfold replaceTrack. destruct (decide (signalingState c = sig_closed)) as [E|E].
  - by rewrite decide_True.
  - cbn [with_senders signalingState]. rewrite decide_False by done.
    unfold with_senders.
    cbn [senders signalingState connectionState
         iceConnectionState localDescription remoteDescription
         remoteCandidates iceRestarts cb_peerId cb_name].
    f_equal. rewrite list_alter_alter_eq. by apply list_alter_ext.
Qed.

Lemma replaceTrack_carries i v c x :
  signalingState c ≠ sig_closed → senders c !! i = Some x →
  ∃ y, senders (replaceTrack i (Some v) c) !! i = Some y ∧
       sender_track y = Some v ∧
       maxBitrate y = maxBitrate x ∧ maxFramerate y = maxFramerate x.
Proof.
  intros Hopen Hx. unfold replaceTrack. rewrite decide_False by done.
  cbn [with_senders senders]. rewrite list_lookup_alter_eq, Hx.
  by eexists.
Qed.

(** one sweep over the records puts [v] on the video sender of every
    connection it visits *)
Lemma sweep_conn v h i L : ∀ s c,
  conns s !! h = Some c → find_video_sender (senders c) = Some i →
  kind v = Video → signalingState c ≠ sig_closed →
  conns (forEach (λ pc, substituteVideo (Some v) (peer pc)) L s).1 !! h
  = Some (if bool_decide (0 < visits h L) then replaceTrack i (Some v) c
          else c).
Proof.
  induction L as [|pc L IH]; intros s c Hc Hi Hv Hopen; [done|].
  rewrite forEach_cons, seq_state.
  unfold visits. rewrite filter_cons. fold (visits h L).
  destruct (decide (peer pc = h)) as [Heq|Hne].
  - rewrite Heq. cbn [length].
    rewrite (bool_decide_eq_true_2 (0 < S _)) by lia.
    assert (Hs1 : conns (substituteVideo (Some v) h s).1 !! h
                  = Some (replaceTrack i (Some v) c)).
    { unfold substituteVideo. rewrite Hc, Hi. step_cbn.
      apply list_lookup_insert_eq. by eapply lookup_lt_Some. }
    assert (Hi1 : find_video_sender (senders (replaceTrack i (Some v) c))
                  = Some i).
    { unfold replaceTrack. rewrite decide_False by done. cbn.
      by apply (find_video_sender_alter _ _ _ maxBitrate maxFramerate). }
    assert (Hopen1 : signalingState (replaceTrack i (Some v) c) ≠ sig_closed).
    { unfold replaceTrack. by rewrite decide_False by done. }
    rewrite (IH _ _ Hs1 Hi1 Hv Hopen1), replaceTrack_idemp.
    by case_bool_decide.
  - destruct (substituteVideo_elsewhere (Some v) h (peer pc) s) as [_ H2];
      [done|].
    rewrite (IH _ c); [done| by rewrite H2 | done..].
Qed.

(** X17 — new media is not put on connections that exist.  With background
    blur off, [initializeMedia] replaces the manager's local stream and does
    nothing else: no connection object changes and no track is substituted.
    So when a screen share was started and the room ends it by asking for the
    camera again, the local stream is the new camera stream while the video
    sender of every registered connection still carries the screen's track,
    with the caps it had. *)
Theorem new_media_is_not_put_on_connections (B : Browser) (s : WebRTCManager)
  (screen cam : list MediaStreamTrack) (v : MediaStreamTrack)
  (video audio : bool) (canvas : nat) (pid : string) (pc : PeerConnection)
  (c : RTCPeerConnection) (i : nat) (x : RTCRtpSender) :
  registry_sound s →
  backgroundBlurEnabled s = false →
  head (video_tracks screen) = Some v →
  peers s !! pid = Some pc →
  conns s !! peer pc = Some c →
  signalingState c ≠ sig_closed →
  find_video_sender (senders c) = Some i →
  senders c !! i = Some x →
  let r1 := startScreenShare (Some screen) s in
  let r2 := initializeMedia B video audio (Some cam) canvas r1.1 in
  initializeMedia B video audio (Some cam) canvas s
    = (set_localStream (Some cam) s, []) ∧
  r2.2 = [] ∧
  localStream r2.1 = Some cam ∧
  conns r2.1 = conns r1.1 ∧
  ∃ c' y, conns r2.1 !! peer pc = Some c' ∧ senders c' !! i = Some y ∧
          sender_track y = Some v ∧
          maxBitrate y = maxBitrate x ∧ maxFramerate y = maxFramerate x.
Proof.
  intros Hsound Hblur Hv Hpc Hc Hopen Hi Hx r1 r2.
  destruct (Hsound pid pc Hpc) as (_ & _ & Huniq).
  pose proof (head_video_tracks_kind _ _ Hv) as Hkv.
  pose proof (visits_own_connection (peers s) pid pc Hpc Huniq) as Hvisit.
  assert (Hplain : ∀ s', backgroundBlurEnabled s' = false →
            initializeMedia B video audio (Some cam) canvas s'
            = (set_localStream (Some cam) s', [])).
  { intros s' Hb. unfold initializeMedia, seq. step_cbn. by rewrite Hb. }
  destruct (sweep_only_conns (Some v) (map_to_list (peers s)).*2 s)
    as [l1 Hl1].
  assert (Hr1 : r1.1 = set_screenTracks (λ a, a ∪ {[track_id v]})
                         (set_conns (λ _, l1) s)).
  { unfold r1, startScreenShare. rewrite Hv, seq_state.
    unfold forEachPeer. by rewrite Hl1. }
  assert (Hc1 : conns r1.1 !! peer pc = Some (replaceTrack i (Some v) c)).
  { unfold r1, startScreenShare. rewrite Hv, seq_state.
    cbn [modify fst]. step_cbn. unfold forEachPeer.
    rewrite (sweep_conn v (peer pc) i _ s c Hc Hi Hkv Hopen), Hvisit.
    by rewrite bool_decide_eq_true_2 by lia. }
  assert (Hr2 : r2 = (set_localStream (Some cam) r1.1, [])).
  { unfold r2. apply Hplain. by rewrite Hr1. }
  split; [by apply Hplain|]. rewrite Hr2. cbn [fst snd].
  split; [done|]. split; [done|]. split; [done|].
  destruct (replaceTrack_carries i v c x Hopen Hx) as (y & Hy & Hrest).
  exists (replaceTrack i (Some v) c), y. step_cbn. by rewrite Hc1.
Qed.

(** ** Background blur and the tracks of the local stream *)

Lemma sweep_state t s :
  ∃ l, (forEachPeer (λ pc, substituteVideo t (peer pc)) s).1
       = set_conns (λ _, l) s.
Proof. unfold forEachPeer. apply sweep_only_conns. Qed.

Lemma head_video_tracks l v :
  head (video_tracks l) = Some v → ∃ rest, video_tracks l = v :: rest.
Proof. destruct (video_tracks l) as [|x rest]; [done|]. intros [= ->]. eauto. Qed.

Lemma applyBackgroundBlur_state B canvas s ts v :
  hasTrackProcessor B = true → localStream s = Some ts →
  head (video_tracks ts) = Some v →
  ∃ l, (applyBackgroundBlur B canvas s).1
       = set_localStream
           (Some (add_track (mkTrack canvas Video) (remove_track v ts)))
           (set_conns (λ _, l) s).
Proof.
  intros HB Hts Hv. destruct (head_video_tracks _ _ Hv) as [rest Hrest].
  unfold applyBackgroundBlur. rewrite HB, Hts, Hrest. cbn [negb].
  rewrite seq_state.
  destruct (sweep_state (Some (mkTrack canvas Video)) s) as [l Hl].
  exists l. by rewrite Hl.
Qed.

Lemma removeBackgroundBlur_state newStream s ts old v' :
  localStream s = Some ts → head (video_tracks ts) = Some old →
  head (video_tracks newStream) = Some v' →
  ∃ l, (removeBackgroundBlur (Some newStream) s).1
       = set_localStream (Some (add_track v' (remove_track old ts)))
           (set_stoppedTracks
              (λ a, a ∪ list_to_set (track_id <$> video_tracks ts))
              (set_conns (λ _, l) s)).
Proof.
  intros Hts Hold Hv'. unfold removeBackgroundBlur. rewrite Hv'.
  rewrite seq_state.
  destruct (sweep_state (Some v') s) as [l Hl]. exists l. rewrite Hl.
  step_cbn. rewrite Hts, seq_state, forEach_stopTrack. step_cbn.
  by rewrite Hold.
Qed.

Lemma audio_tracks_add_video x l :
  kind x = Video → audio_tracks (add_track x l) = audio_tracks l.
Proof.
  intros Hx. unfold add_track, audio_tracks. case_bool_decide; [done|].
  rewrite filter_app, filter_cons, decide_False by (rewrite Hx; done).
  by rewrite filter_nil, app_nil_r.
Qed.

Lemma audio_tracks_remove_video x l :
  kind x = Video → audio_tracks (remove_track x l) = audio_tracks l.
Proof.
  intros Hx. unfold remove_track, audio_tracks.
  induction l as [|t l IH]; [done|].
  rewrite !filter_cons.
  destruct (decide (t ≠ x)) as [Hne|Heq].
  - rewrite filter_cons. destruct (decide (kind t = Audio)); by rewrite IH.
  - apply dec_stable in Heq. subst t.
    by rewrite decide_False by (rewrite Hx; done).
Qed.

Lemma elem_of_add_track x y l :
  x ∈ add_track y l ↔ x ∈ l ∨ x = y.
Proof.
  unfold add_track. case_bool_decide as E.
  - split; [by left|]. intros [?| ->]; done.
  - split.
    + intros [?|?%list_elem_of_singleton]%elem_of_app; [by left | by right].
    + intros [?| ->]; apply elem_of_app; [by left|].
      right. by apply list_elem_of_singleton.
Qed.

Lemma elem_of_remove_track x y l :
  x ∈ remove_track y l ↔ x ≠ y ∧ x ∈ l.
Proof. exact (list_elem_of_filter (λ t, t ≠ y) l x). Qed.

(** X18 — switching background blur on and off again leaves the first camera
    track running.  Switching it on takes the camera track out of the local
    stream and puts the track of the canvas in its place, without stopping
    the camera; switching it off stops the video tracks the local stream then
    has, the canvas track among them, and puts the video track of a newly
    captured stream in: the camera track captured first is no longer in the
    local stream and has not been stopped by either call.  Of the newly
    captured stream only the video track is used: the audio tracks of the
    local stream are the ones it had before. *)
Theorem blur_round_trip_leaves_camera_running (B : Browser) (s : WebRTCManager)
  (ts newStream : list MediaStreamTrack) (v v' : MediaStreamTrack)
  (canvas canvas' : nat) (cam : option (list MediaStreamTrack)) :
  hasTrackProcessor B = true →
  localStream s = Some ts →
  head (video_tracks ts) = Some v →
  (∀ t, t ∈ ts → track_id t = track_id v → t = v) →
  canvas ∉ track_id <$> ts →
  head (video_tracks newStream) = Some v' →
  v' ≠ v →
  let processed := mkTrack canvas Video in
  let r1 := toggleBackgroundBlur B true canvas cam s in
  let r2 := toggleBackgroundBlur B false canvas' (Some newStream) r1.1 in
  localStream r1.1 = Some (remove_track v ts ++ [processed]) ∧
  stoppedTracks r1.1 = stoppedTracks s ∧
  backgroundBlurEnabled r1.1 = true ∧
  backgroundBlurEnabled r2.1 = false ∧
  stoppedTracks r2.1
    = stoppedTracks s
      ∪ list_to_set
          (track_id <$> video_tracks (remove_track v ts ++ [processed])) ∧
  canvas ∈ stoppedTracks r2.1 ∧
  (track_id v ∉ stoppedTracks s → track_id v ∉ stoppedTracks r2.1) ∧
  ∃ ts2, localStream r2.1 = Some ts2 ∧ (v ∉ ts2) ∧ (v' ∈ ts2) ∧
         audio_tracks ts2 = audio_tracks ts.
Proof.
  intros HB Hts Hv Huniq Hfresh Hv' Hne processed r1 r2.
  pose proof (head_video_tracks_kind _ _ Hv) as Hkv.
  pose proof (head_video_tracks_kind _ _ Hv') as Hkv'.
  assert (Hvin : v ∈ ts).
  { apply head_Some_elem_of in Hv. unfold video_tracks in Hv.
    by apply list_elem_of_filter in Hv as [_ ?]. }
  assert (Hpnew : processed ∉ ts).
  { intros Hin. apply Hfresh. apply list_elem_of_fmap. by exists processed. }
  set (ts1 := remove_track v ts ++ [processed]).
  assert (Hadd : add_track processed (remove_track v ts) = ts1).
  { unfold add_track. rewrite bool_decide_eq_false_2; [done|].
    intros [_ Hin]%elem_of_remove_track. done. }
  (* switching on *)
  assert (Hvideo : 0 < length (video_tracks ts)).
  { destruct (head_video_tracks _ _ Hv) as [rest ->]. cbn. lia. }
  assert (Hr1 : ∃ l, r1.1 = set_localStream (Some ts1)
                               (set_conns (λ _, l)
                                  (set_backgroundBlurEnabled true s))).
  { unfold r1, toggleBackgroundBlur. rewrite seq_state. cbn [modify fst].
    step_cbn. rewrite Hts. rewrite bool_decide_eq_true_2 by done.
    destruct (applyBackgroundBlur_state B canvas
                (set_backgroundBlurEnabled true s) ts v HB Hts Hv) as [l Hl].
    exists l. change (mkTrack canvas Video) with processed in Hl.
    by rewrite Hl, Hadd. }
  destruct Hr1 as [l1 Hr1].
  (* switching off *)
  assert (Hp1 : processed ∈ video_tracks ts1).
  { unfold video_tracks, ts1. apply list_elem_of_filter. split; [done|].
    apply elem_of_app. right. by apply list_elem_of_singleton. }
  destruct (video_tracks ts1) as [|old rest1] eqn:Hvt1.
  { by apply elem_of_nil in Hp1. }
  assert (Hold : head (video_tracks ts1) = Some old) by (by rewrite Hvt1).
  pose proof (head_video_tracks_kind _ _ Hold) as Hkold.
  assert (Hr2 : ∃ l, r2.1 = set_localStream
                               (Some (add_track v' (remove_track old ts1)))
                               (set_stoppedTracks
                                  (λ a, a ∪ list_to_set
                                              (track_id <$> video_tracks ts1))
                                  (set_conns (λ _, l)
                                     (set_backgroundBlurEnabled false r1.1)))).
  { unfold r2, toggleBackgroundBlur. rewrite seq_state. cbn [modify fst].
    rewrite Hr1. step_cbn.
    rewrite bool_decide_eq_true_2 by (rewrite Hvt1; cbn; lia).
    destruct (removeBackgroundBlur_state newStream
                (set_backgroundBlurEnabled false
                   (set_localStream (Some ts1)
                      (set_conns (λ _, l1) (set_backgroundBlurEnabled true s))))
                ts1 old v' eq_refl Hold Hv') as [l Hl].
    exists l. by rewrite Hl. }
  destruct Hr2 as [l2 Hr2].
  rewrite Hr2, Hr1. step_cbn.
  split; [done|]. split; [done|]. split; [done|]. split; [done|].
  split; [by rewrite Hvt1|]. split; [|split].
  - apply elem_of_union_r, elem_of_list_to_set, list_elem_of_fmap.
    exists processed. split; [done|]. by rewrite Hvt1.
  - intros Hns [Hin|Hin]%elem_of_union; [done|].
    apply elem_of_list_to_set, list_elem_of_fmap in Hin as (t & Hid & Hin).
    unfold video_tracks in Hin.
    apply list_elem_of_filter in Hin as [_ Hin]. unfold ts1 in Hin.
    apply elem_of_app in Hin as [Hin|Hin].
    + apply elem_of_remove_track in Hin as [Htv Hin].
      apply Htv. by apply Huniq.
    + apply list_elem_of_singleton in Hin. subst t.
      apply Hfresh. apply list_elem_of_fmap. exists v. by split.
  - eexists. split; [done|]. split; [|split].
    + intros [Hin| ->]%elem_of_add_track; [|done].
      apply elem_of_remove_track in Hin as [_ Hin]. unfold ts1 in Hin.
      apply elem_of_app in Hin as [Hin|Hin].
      * by apply elem_of_remove_track in Hin as [? _].
      * apply list_elem_of_singleton in Hin. by subst v.
    + apply elem_of_add_track. by right.
    + rewrite audio_tracks_add_video, audio_tracks_remove_video by done.
      unfold ts1, audio_tracks. rewrite filter_app.
      fold (audio_tracks (remove_track v ts)).
      rewrite audio_tracks_remove_video by done.
      by rewrite filter_cons, decide_False, filter_nil, app_nil_r.
Qed.

(** ** Offers on a record that exists *)

(** X19 — an offer for a record whose connection is [stable] or
    [have-remote-offer] is negotiated on that connection: no connection
    object is made, and the records and connection objects of other peers
    are not touched.  The answer goes to the offerer exactly when the browser
    accepts the offer, produces an answer and applies it; if one of the three
    steps fails nothing is sent and the record is deleted, its connection
    being left as the last step that succeeded returned it: the manager does
    not close it. *)
Theorem offer_on_existing_record_is_answered_in_place (B : Browser)
  (s : WebRTCManager) (from nm : string) (offer : RTCSessionDescriptionInit)
  (pc : PeerConnection) (c : RTCPeerConnection) :
  peers s !! from = Some pc →
  conns s !! peer pc = Some c →
  signalingState c = stable ∨ signalingState c = have_remote_offer →
  let r := handleOffer B from (participantId s) offer nm s in
  length (conns r.1) = length (conns s) ∧
  (∀ q, q ≠ from → peers r.1 !! q = peers s !! q) ∧
  (∀ h, h ≠ peer pc → conns r.1 !! h = conns s !! h) ∧
  match setRemoteDescription B c offer with
  | None => r = (set_peers (delete from) s, [])
  | Some c1 =>
      match createAnswer B c1 with
      | None => r = (set_peers (delete from) (set_conns <[peer pc := c1]> s), [])
      | Some ans =>
          match setLocalDescription B c1 ans with
          | None =>
              r = (set_peers (delete from) (set_conns <[peer pc := c1]> s), [])
          | Some c2 =>
              r = (set_conns <[peer pc := c2]> s,
                   [Send (Answer (participantId s) from ans
                            (participantName s))])
          end
      end
  end.
Proof.
  intros Hpc Hc Hst r. unfold r.
  rewrite (in_state_offer_is_answered B s from offer nm pc c Hpc Hc Hst).
  destruct (setRemoteDescription B c offer) as [c1|].
  2: { repeat split; try done. intros q Hq. by apply lookup_delete_ne. }
  destruct (createAnswer B c1) as [ans|].
  2: { cbn [fst]. step_cbn. rewrite length_insert. repeat split; try done.
       - intros q Hq. by apply lookup_delete_ne.
       - intros h Hh. by apply list_lookup_insert_ne. }
  destruct (setLocalDescription B c1 ans) as [c2|];
    cbn [fst]; step_cbn; rewrite length_insert; repeat split; try done.
  - intros h Hh. by apply list_lookup_insert_ne.
  - intros q Hq. by apply lookup_delete_ne.
  - intros h Hh. by apply list_lookup_insert_ne.
Qed.

(** ** The senders of a new connection *)

Lemma find_video_sender_capped B ts :
  find_video_sender (capped_sender B <$> ts) = None ↔ video_tracks ts = [].
Proof.
  unfold video_tracks. induction ts as [|t ts IH]; [done|].
  rewrite fmap_cons, filter_cons. cbn [find_video_sender].
  assert (Hv : is_video_sender (capped_sender B t)
               = bool_decide (kind t = Video)).
  { unfold capped_sender, is_video_sender.
    destruct (kind t) eqn:E, (hasEncodings B); cbn; by rewrite E. }
  rewrite Hv. destruct (decide (kind t = Video)) as [E|E].
  - rewrite bool_decide_eq_true_2 by done. done.
  - rewrite bool_decide_eq_false_2 by done.
    destruct (find_video_sender (capped_sender B <$> ts)); cbn.
    + split; [done|]. intros H. apply IH in H. done.
    + split; [|done]. intros _. by apply IH.
Qed.

(** X20 — a connection is given its senders when it is made, one for each
    track the local stream has at that moment, in the stream's order: a video
    track capped at 2.5 Mbit/s and 30 frames per second, an audio track at
    128 kbit/s, or no cap at all where the browser reports no encodings.  The
    connection made for an incoming offer is filed under the offerer's id, is
    [stable], and carries that id and name in its handlers; it has a video
    sender exactly if the local stream had a video track, and none at all if
    there was no local stream. *)
Theorem new_connection_sends_the_local_tracks (B : Browser)
  (s : WebRTCManager) (pid nm : string) :
  let r := createPeerConnection B pid nm false s in
  let tracks := default [] (localStream s) in
  r.2 = [] ∧
  peers r.1 !! pid = Some (mkPeer pid (length (conns s)) nm) ∧
  ∃ c, conns r.1 !! length (conns s) = Some c ∧
       signalingState c = stable ∧ cb_peerId c = pid ∧ cb_name c = nm ∧
       length (senders c) = length tracks ∧
       (∀ j t, tracks !! j = Some t →
          ∃ x, senders c !! j = Some x ∧ sender_track x = Some t ∧
               maxBitrate x
               = (if hasEncodings B
                  then Some (match kind t with
                             | Video => 2500000 | Audio => 128000
                             end)%Z
                  else None) ∧
               maxFramerate x
               = (if hasEncodings B
                  then match kind t with
                       | Video => Some 30%Z | Audio => None
                       end
                  else None)) ∧
       (find_video_sender (senders c) = None ↔ video_tracks tracks = []).
Proof.
  intros r tracks. unfold r, createPeerConnection, createPeerConnection_setup.
  unfold seq. step_cbn.
  split; [done|]. split; [apply lookup_insert_eq|].
  exists (attachTracks B (localStream s) (newRTCPeerConnection pid nm)).
  split; [rewrite lookup_app_r by done; by rewrite Nat.sub_diag|].
  unfold tracks, attachTracks. destruct (localStream s) as [ts|]; cbn.
  - rewrite length_fmap. repeat split; try done.
    + intros j t Hj. exists (capped_sender B t).
      rewrite list_lookup_fmap, Hj. split; [done|].
      unfold capped_sender. by destruct (kind t), (hasEncodings B).
    + apply find_video_sender_capped.
    + apply find_video_sender_capped.
  - repeat split; done.
Qed.

(** ** The registry in every state a manager can reach *)

(** X21 — whatever happens to a manager, whatever the browser does and in
    whatever order, its registry stays sound: every record is filed under its
    own [peerId], refers to a connection object that exists, and no two
    records refer to the same connection object; and the manager's identity
    (participant id, display name, meeting id) is the one it was constructed
    with. *)
Theorem registry_is_sound_in_every_state (B : Browser) (es : list Event)
  (meeting me myName : string) (hb poll : nat) :
  let s := (run B es (new_WebRTCManager meeting me myName hb poll).1).1 in
  registry_sound s ∧
  participantId s = me ∧ participantName s = myName ∧ meetingId s = meeting.
Proof.
  intros s. split; [apply sound_run, registry_sound_new|].
  pose proof (steady_run B _ es _
                (steady_refl (new_WebRTCManager meeting me myName hb poll).1))
    as (_ & _ & Hid & Hnm & Hm).
  done.
Qed.

(** ** Registered connections are open *)

Lemma kept_refl c : kept c c.
Proof. done. Qed.

Lemma kept_trans c1 c2 c3 : kept c1 c2 → kept c2 c3 → kept c1 c3.
Proof.
  intros (H1 & H2 & H3) (H4 & H5 & H6). split; [auto|]. split; congruence.
Qed.

Lemma holds_seq_here (P : WebRTCManager → Prop) (f g : Step) s :
  P (f s).1 → (∀ s', P s' → P (g s').1) → P ((f ;; g) s).1.
Proof. intros Hf Hg. rewrite seq_state. by apply Hg. Qed.

Lemma healthy_fields s s' :
  registry_healthy s → peers s' = peers s → conns s' = conns s →
  registry_healthy s'.
Proof.
  intros [Hs Hl] Hp Hc. split.
  - intros pid pc. rewrite Hp, Hc. apply Hs.
  - intros pid pc c. rewrite Hp, Hc. apply Hl.
Qed.

Lemma healthy_conns s h c c' :
  registry_healthy s → conns s !! h = Some c → kept c c' →
  registry_healthy (set_conns <[h := c']> s).
Proof.
  intros [Hs Hl] Hc (Hopen & Hid & Hnm). split.
  - apply registry_sound_conns; [done | by rewrite length_insert].
  - intros pid pc x Hpc Hx. step_cbn_in Hpc. step_cbn_in Hx.
    assert (Hlt : h < length (conns s)) by (by eapply lookup_lt_Some).
    destruct (decide (peer pc = h)) as [Heq|Hne].
    + rewrite Heq, list_lookup_insert_eq in Hx by done. injection Hx as <-.
      rewrite <- Heq in Hc. destruct (Hl pid pc c Hpc Hc) as (H1 & H2 & H3).
      split; [auto|]. split; congruence.
    + rewrite list_lookup_insert_ne in Hx by done. by apply (Hl pid pc x).
Qed.

Lemma healthy_delete s pid :
  registry_healthy s → registry_healthy (set_peers (delete pid) s).
Proof.
  intros [Hs Hl]. split; [by apply registry_sound_delete|].
  intros q pc c Hpc Hc. step_cbn_in Hpc. step_cbn_in Hc.
  apply lookup_delete_Some in Hpc as [_ Hpc]. by apply (Hl q pc c).
Qed.

Lemma healthy_close_delete s pid pc :
  registry_healthy s → peers s !! pid = Some pc →
  registry_healthy
    (set_peers (delete pid) (set_conns (alter close (peer pc)) s)).
Proof.
  intros [Hs Hl] Hpc. split.
  - apply registry_sound_delete, registry_sound_conns;
      [done | by rewrite length_alter].
  - intros q pc' c Hq Hc. step_cbn_in Hq. step_cbn_in Hc.
    apply lookup_delete_Some in Hq as [Hne Hq].
    destruct (Hs pid pc Hpc) as (_ & _ & Huniq).
    rewrite list_lookup_alter_ne in Hc; [by apply (Hl q pc' c)|].
    intros Heq. apply Hne. symmetry. by apply (Huniq q pc').
Qed.

Lemma healthy_clear s f : registry_healthy (set_peers (λ _, ∅) (set_conns f s)).
Proof. split; intros pid pc; step_cbn; by rewrite lookup_empty. Qed.

Lemma healthy_setup B s pid nm :
  registry_healthy s →
  registry_healthy
    (set_peers <[pid := mkPeer pid (length (conns s)) nm]>
       (set_conns
          (λ l, l ++ [attachTracks B (localStream s)
                        (newRTCPeerConnection pid nm)]) s)).
Proof.
  intros [Hs Hl]. split; [by apply registry_sound_setup|].
  intros q pc c Hq Hc. step_cbn_in Hq. step_cbn_in Hc.
  apply lookup_insert_Some in Hq as [[<- <-]|[Hne Hq]].
  - cbn [peer] in Hc. rewrite lookup_app_r in Hc by done.
    rewrite Nat.sub_diag in Hc. injection Hc as <-.
    unfold attachTracks. by destruct (localStream s).
  - destruct (Hs q pc Hq) as (_ & Hlt & _).
    rewrite lookup_app_l in Hc by done. by apply (Hl q pc c).
Qed.

Section Healthy.
Variable B : Browser.
Hypothesis B_behaves : well_behaved B.

Lemma kept_local c d c' : setLocalDescription B c d = Some c' → kept c c'.
Proof. intros H. by eapply (proj1 (B_behaves c c')). Qed.

Lemma kept_remote c d c' : setRemoteDescription B c d = Some c' → kept c c'.
Proof. intros H. by eapply (proj1 (proj2 (B_behaves c c'))). Qed.

Lemma kept_candidate c cand c' : addIceCandidate B c cand = Some c' → kept c c'.
Proof. intros H. by eapply (proj2 (proj2 (B_behaves c c'))). Qed.

Lemma kept_replaceTrack i t c : kept c (replaceTrack i t c).
Proof. unfold replaceTrack. by case_decide. Qed.

Ltac kept_tac :=
  first
    [ eassumption
    | apply kept_refl
    | apply kept_replaceTrack
    | eapply kept_local; eassumption
    | eapply kept_remote; eassumption
    | eapply kept_candidate; eassumption
    | eapply kept_trans; [eapply kept_remote; eassumption
                         | eapply kept_local; eassumption]
    | by case_bool_decide
    | done ].

Ltac healthy_leaf :=
  cbn [modify fst];
  first
    [ assumption
    | apply healthy_setup; assumption
    | apply healthy_delete; assumption
    | apply healthy_clear
    | eapply healthy_conns; [assumption | eassumption | kept_tac]
    | eapply healthy_fields; [eassumption | reflexivity | reflexivity] ].

Ltac healthy_go known :=
  cbv beta;
  lazymatch goal with
  | |- ?P ((seq ?f ?g ?s).1) =>
      apply (holds_seq_here P f g);
      [healthy_go known | intros ? ?; healthy_go known]
  | |- ?P ((forEach ?f ?l ?s).1) =>
      apply (holds_forEach P f l);
      [assumption | intros ? ? ?; healthy_go known]
  | |- ?P ((forEachPeer ?f ?s).1) =>
      apply (holds_forEachPeer P f);
      [assumption | intros ? ? ?; healthy_go known]
  | |- _ ((skip ?s).1) => assumption
  | |- _ ((emit _ ?s).1) => assumption
  | |- _ ((modify _ ?s).1) => healthy_leaf
  | |- context [match ?x with _ => _ end] =>
      destruct x eqn:?; healthy_go known
  | _ => solve [known]
  end.

Lemma healthy_createPeerConnection p n i s :
  registry_healthy s → registry_healthy (createPeerConnection B p n i s).1.
Proof.
  intros H. unfold createPeerConnection, createPeerConnection_setup,
    createPeerConnection_offer. healthy_go ltac:(eauto).
Qed.

Lemma healthy_handleUserJoined p n s :
  registry_healthy s → registry_healthy (handleUserJoined B p n s).1.
Proof.
  intros H. unfold handleUserJoined.
  healthy_go ltac:(eauto using healthy_createPeerConnection).
Qed.

Lemma healthy_handleUserLeft p s :
  registry_healthy s → registry_healthy (handleUserLeft p s).1.
Proof.
  intros H. rewrite handleUserLeft_eq.
  destruct (peers s !! p) as [pc|] eqn:Hpc; [|done].
  by apply healthy_close_delete.
Qed.

Lemma healthy_handleConnectionFailure p n s :
  registry_healthy s → registry_healthy (handleConnectionFailure p n s).1.
Proof.
  intros H. rewrite handleConnectionFailure_eq. cbn zeta.
  assert (H1 : registry_healthy
                 match peers s !! p with
                 | Some pc => set_peers (delete p)
                                (set_conns (alter close (peer pc)) s)
                 | None => s
                 end).
  { destruct (peers s !! p) as [pc|] eqn:Hpc; [|done].
    by apply healthy_close_delete. }
  case_bool_decide; cbn [fst]; [|done].
  eapply healthy_fields; [exact H1 | |]; by destruct (peers s !! p).
Qed.

Lemma healthy_answerOffer from o h s :
  registry_healthy s → registry_healthy (answerOffer B from o h s).1.
Proof. intros H. unfold answerOffer. healthy_go ltac:(eauto). Qed.

Lemma healthy_acceptOffer from o n s :
  registry_healthy s → registry_healthy (acceptOffer B from o n s).1.
Proof.
  intros H. unfold acceptOffer.
  healthy_go ltac:(eauto using healthy_createPeerConnection,
                     healthy_answerOffer).
Qed.

Lemma healthy_handleOffer from to o n s :
  registry_healthy s → registry_healthy (handleOffer B from to o n s).1.
Proof.
  intros H. unfold handleOffer.
  case_bool_decide; [done|].
  destruct (peers s !! from) as [pc|] eqn:Hpc;
    [|by apply healthy_acceptOffer].
  destruct (has_signalingState have_local_offer (peer pc) s);
    [|by apply healthy_answerOffer].
  destruct (js_lt (participantId s) from); [done|].
  rewrite !seq_state. apply healthy_acceptOffer.
  by apply healthy_close_delete.
Qed.

Lemma healthy_substituteVideo t h s :
  registry_healthy s → registry_healthy (substituteVideo t h s).1.
Proof. intros H. unfold substituteVideo. healthy_go ltac:(eauto). Qed.

Lemma healthy_applyBackgroundBlur c s :
  registry_healthy s → registry_healthy (applyBackgroundBlur B c s).1.
Proof.
  intros H. unfold applyBackgroundBlur.
  healthy_go ltac:(eauto using healthy_substituteVideo).
Qed.

Lemma healthy_removeBackgroundBlur c s :
  registry_healthy s → registry_healthy (removeBackgroundBlur c s).1.
Proof.
  intros H. unfold removeBackgroundBlur, stopTrack.
  healthy_go ltac:(eauto using healthy_substituteVideo).
Qed.

Lemma healthy_leaveMeeting s : registry_healthy (leaveMeeting s).1.
Proof.
  rewrite leaveMeeting_state.
  split; intros pid pc; cbn [after_leave peers]; by rewrite lookup_empty.
Qed.

Lemma healthy_refreshConnection s : registry_healthy (refreshConnection s).1.
Proof.
  rewrite refreshConnection_eq.
  split; intros pid pc; cbn [fst after_refresh peers]; by rewrite lookup_empty.
Qed.

Lemma healthy_dispatch e s :
  registry_healthy s → registry_healthy (dispatch B e s).1.
Proof.
  intros H. destruct e; cbn [dispatch];
    try match goal with |- context [fire _ ?k _] => destruct k; cbn [fire] end;
    try apply healthy_handleOffer; try apply healthy_leaveMeeting;
    try apply healthy_refreshConnection;
    try (apply healthy_handleUserJoined; assumption);
    try (apply healthy_handleUserLeft; assumption);
    try (apply healthy_createPeerConnection; assumption);
    try assumption;
    unfold handleAnswer, handleIceCandidate, handleHandRaised,
      handleMediaStateChanged, handleSystem, setupSignaling,
      handlePresenceSync, handlePresenceJoin,
      handlePresenceLeave, checkForNewParticipants, pollRow,
      heartbeatTick, graceCheck, reannounce,
      onconnectionstatechange, oniceconnectionstatechange, onicecandidate,
      ontrack, onended, initializeMedia, toggleBackgroundBlur,
      startScreenShare, joinMeeting, toggleAudio, toggleVideo, raiseHand,
      onStream, onPeerLeft, onHandRaised;
    healthy_go ltac:(eauto using healthy_handleUserJoined,
                       healthy_handleUserLeft, healthy_handleConnectionFailure,
                       healthy_substituteVideo, healthy_applyBackgroundBlur,
                       healthy_removeBackgroundBlur).
Qed.

Lemma healthy_run es s :
  registry_healthy s → registry_healthy (run B es s).1.
Proof.
  intros H. unfold run. apply holds_forEach; [done|].
  intros e s'. apply healthy_dispatch.
Qed.
End Healthy.

Lemma jsep_well_behaved gen : well_behaved (jsep gen).
Proof.
  intros c c'. cbn [jsep setLocalDescription setRemoteDescription
                    addIceCandidate].
  unfold jsep_setLocalDescription, jsep_setRemoteDescription,
    jsep_addIceCandidate.
  split; [|split].
  - intros d H. destruct (jsep_local_next _ _) as [st|] eqn:E; [|done].
    cbn in H. injection H as <-. split; [|done]. intros _. cbn.
    unfold jsep_local_next in E. repeat case_match; congruence.
  - intros d H. destruct (jsep_remote_next _ _) as [st|] eqn:E; [|done].
    cbn in H. injection H as <-. split; [|done]. intros _. cbn.
    unfold jsep_remote_next in E. repeat case_match; congruence.
  - intros cand H. case_decide; [done|].
    destruct (remoteDescription c); [|done]. by injection H as <-.
Qed.

(** X22 — the registry never holds a connection the manager has closed.
    Provided the browser, when it negotiates on a connection, neither closes
    it nor touches its handlers, in every state a manager can reach each
    record of the registry refers to a connection object that exists, is not
    closed, and has handlers installed for that record's peer id and name:
    wherever the manager closes a connection it also drops the record, and it
    files a record only for a connection it has just made for that peer. *)
Theorem registered_connections_are_open (B : Browser) (es : list Event)
  (meeting me myName : string) (hb poll : nat) :
  well_behaved B →
  let s := (run B es (new_WebRTCManager meeting me myName hb poll).1).1 in
  ∀ pid pc, peers s !! pid = Some pc →
    ∃ c, conns s !! peer pc = Some c ∧
         signalingState c ≠ sig_closed ∧
         cb_peerId c = pid ∧ cb_name c = name pc.
Proof.
  intros HB s pid pc Hpc.
  assert (H : registry_healthy s).
  { apply healthy_run; [done|]. split; [apply registry_sound_new|].
    intros q pc'. cbn. by rewrite lookup_empty. }
  destruct H as [Hs Hl]. destruct (Hs pid pc Hpc) as (_ & Hlt & _).
  destruct (lookup_lt_is_Some_2 _ _ Hlt) as [c Hc].
  exists c. split; [done|]. by apply (Hl pid pc c).
Qed.

(** ** Tiles *)

(** X23 — the meeting room shows a tile for a peer from the first track of the
    peer's connection until the peer's departure or the failure of the
    connection is handled.  A track arriving on a registered connection calls
    the stream observer with the peer id and name the connection was made
    for, and the room files the tile under that id; the departure of the peer
    and the failure procedure both call the peer-left observer, and the room
    takes the tile and the peer's raised hand away.  A track that arrives
    while no stream observer is registered is not passed on. *)
Theorem tiles_follow_tracks_and_departures (s : WebRTCManager)
  (pid nm : string) (pc : PeerConnection) (c : RTCPeerConnection)
  (room : Room) :
  peers s !! pid = Some pc →
  conns s !! peer pc = Some c →
  cb_peerId c = pid →
  onPeerLeftCallback s = true →
  let seen := ontrack (peer pc) s in
  let room1 := shown seen.2 room in
  let left := handleUserLeft pid s in
  let lost := handleConnectionFailure pid nm s in
  seen.1 = s ∧
  seen.2 = (if onStreamCallback s then [NotifyStream pid (cb_name c)] else []) ∧
  (onStreamCallback s = true →
   remoteStreams room1 = <[pid := cb_name c]> (remoteStreams room) ∧
   handRaisedParticipants room1 = handRaisedParticipants room) ∧
  remoteStreams (shown left.2 room1) !! pid = None ∧
  remoteStreams (shown lost.2 room1) !! pid = None ∧
  (pid ∉ handRaisedParticipants (shown left.2 room1)) ∧
  (pid ∉ handRaisedParticipants (shown lost.2 room1)) ∧
  (∀ q, q ≠ pid →
     remoteStreams (shown left.2 room1) !! q = remoteStreams room1 !! q ∧
     remoteStreams (shown lost.2 room1) !! q = remoteStreams room1 !! q).
Proof.
  intros Hpc Hc Hid Hcb seen room1 left lost.
  assert (Hseen : seen = (s, if onStreamCallback s
                             then [NotifyStream pid (cb_name c)] else [])).
  { unfold seen, ontrack. rewrite Hc, Hid. by destruct (onStreamCallback s). }
  assert (Hleft : left.2 = [NotifyPeerLeft pid]).
  { unfold left. by rewrite handleUserLeft_eq, Hpc, Hcb. }
  assert (Hlost : ∃ rest, lost.2 = NotifyPeerLeft pid :: rest ∧
                          ∀ room0, shown rest room0 = room0).
  { unfold lost. rewrite handleConnectionFailure_eq. cbn zeta.
    rewrite Hpc, Hcb. case_bool_decide; cbn [snd app]; eexists; split; done. }
  destruct Hlost as (rest & Hlost & Hrest).
  assert (Hgone : ∀ acts, acts = [NotifyPeerLeft pid] ∨
                          acts = NotifyPeerLeft pid :: rest →
            shown acts room1 = room_onPeerLeft pid room1).
  { intros acts [-> | ->]; [done|]. cbn [shown foldl notify].
    apply (Hrest (room_onPeerLeft pid room1)). }
  rewrite (Hgone left.2) by (by left). rewrite (Hgone lost.2) by (by right).
  unfold room1. rewrite Hseen. cbn [fst snd].
  split; [done|]. split; [done|]. split.
  { intros Hon. by rewrite Hon. }
  cbn [room_onPeerLeft remoteStreams handRaisedParticipants].
  rewrite lookup_delete_eq.
  assert (Hnot : ∀ X : gset string, pid ∉ X ∖ {[pid]}).
  { intros X [_ Hn]%elem_of_difference. by apply Hn, elem_of_singleton. }
  repeat split; try done; try apply Hnot.
  all: by apply lookup_delete_ne.
Qed.

Lemma tiles_follow_tracks_and_departures_witness :
  peers al_watching !! "p2"%string = Some (mkPeer "p2" 0 "Bo") ∧
  conns al_watching !! 0 = Some first_offer ∧
  (ontrack 0 al_watching).2 = [NotifyStream "p2" "Bo"].
Proof.
  assert (Hpc : peers al_watching !! "p2"%string
                = Some (mkPeer "p2" 0 "Bo")) by reflexivity.
  assert (Hc : conns al_watching !! peer (mkPeer "p2" 0 "Bo")
               = Some first_offer) by reflexivity.
  destruct (tiles_follow_tracks_and_departures al_watching "p2" "Bo"
              (mkPeer "p2" 0 "Bo") first_offer room_with_bo Hpc Hc eq_refl
              eq_refl) as (_ & H & _).
  split; [exact Hpc|]. split; [exact Hc | exact H].
Defined.

(** ** One's own id *)

Lemma answering_cb_peerId_any gen s from nm offer :
  cb_peerId (answering gen s from nm offer) = from.
Proof. unfold answering. cbn. by destruct (localStream s). Qed.

(** X24 — only the join paths check for the manager's own id.  A
    [user-joined] broadcast, a presence push and a presence sync that carry
    the local participant id are passed over; the offer handler looks at the
    addressee alone, so an offer that names the local id as its sender too is
    taken like any other: a connection is made, filed in the registry under
    the manager's own id, and the answer is sent addressed to that id. *)
Theorem only_joins_are_checked_for_own_id
  (gen : RTCSdpType → RTCPeerConnection → string) (s : WebRTCManager)
  (offer : RTCSessionDescriptionInit) (nm key : string) :
  sdp_type offer = sdp_offer →
  peers s !! participantId s = None →
  let J := jsep gen in
  let me := participantId s in
  let r := handleOffer J me me offer nm s in
  handleUserJoined J me nm s = (s, []) ∧
  handlePresenceJoin J [mkPresence me nm] s = (s, []) ∧
  handlePresenceSync J [(key, [mkPresence me nm])] s = (s, []) ∧
  peers r.1 !! me = Some (mkPeer me (length (conns s)) nm) ∧
  (∃ c, conns r.1 !! length (conns s) = Some c ∧
        cb_peerId c = me ∧ signalingState c = stable ∧
        remoteDescription c = Some offer) ∧
  r.2 = [Send (Answer me me (its_answer gen s me nm offer)
                 (participantName s))].
Proof.
  intros Ht Hnone J me r.
  split; [apply handleUserJoined_self|]. split; [|split].
  - unfold handlePresenceJoin. rewrite forEach_singleton. cbn.
    by rewrite bool_decide_eq_false_2 by (by intros ?).
  - unfold handlePresenceSync. rewrite forEach_singleton. cbn [snd].
    rewrite forEach_singleton. cbn.
    by rewrite bool_decide_eq_false_2 by (by intros ?).
  - assert (Hr : r = acceptOffer J me offer nm s).
    { unfold r, handleOffer. rewrite bool_decide_eq_false_2 by (by intros ?).
      unfold me. by rewrite Hnone. }
    rewrite Hr. unfold J. rewrite acceptOffer_jsep by done. cbn [fst snd].
    step_cbn. split; [apply lookup_insert_eq|]. split; [|done].
    exists (answering gen s me nm offer).
    split; [rewrite lookup_app_r by done; by rewrite Nat.sub_diag|].
    split; [apply answering_cb_peerId_any|]. done.
Qed.

Lemma only_joins_are_checked_for_own_id_witness :
  let s := (new_WebRTCManager "m" "p1" "Al" 1 2).1 in
  peers s !! participantId s = None ∧
  peers (handleOffer plain "p1" "p1" (mkSdp sdp_offer "") "Al" s).1
    !! "p1"%string = Some (mkPeer "p1" 0 "Al").
Proof.
  intros s.
  assert (Hnone : peers s !! participantId s = None) by reflexivity.
  destruct (only_joins_are_checked_for_own_id (λ _ _, ""%string) s
              (mkSdp sdp_offer "") "Al" "k" eq_refl Hnone)
    as (_ & _ & _ & H & _).
  split; [exact Hnone | exact H].
Defined.

(** ** Sweeps, one after the other *)

Lemma replaceTrack_again i t1 t2 c :
  replaceTrack i t2 (replaceTrack i t1 c) = replaceTrack i t2 c.
Proof.
  unfold replaceTrack. destruct (decide (signalingState c = sig_closed)) as [E|E].
  - by rewrite decide_True.
  - cbn [with_senders signalingState]. rewrite decide_False by done.
    unfold with_senders.
    cbn [senders signalingState connectionState
         iceConnectionState localDescription remoteDescription
         remoteCandidates iceRestarts cb_peerId cb_name].
    f_equal. rewrite list_alter_alter_eq. by apply list_alter_ext.
Qed.

Lemma ready_replaceTrack i v c :
  ready i c → kind v = Video → ready i (replaceTrack i (Some v) c).
Proof.
  intros [Hi Hopen] Hv. unfold ready, replaceTrack.
  rewrite decide_False by done. split; [|done]. cbn.
  by apply (find_video_sender_alter _ _ _ maxBitrate maxFramerate).
Qed.

(** a sweep over the registry puts [v] on the video sender of the connection
    of every record, and changes nothing but connection objects *)
Lemma sweep_registry v s pid pc c i :
  registry_sound s → peers s !! pid = Some pc → conns s !! peer pc = Some c →
  ready i c → kind v = Video →
  ∃ l, (forEachPeer (λ pc, substituteVideo (Some v) (peer pc)) s).1
       = set_conns (λ _, l) s ∧
       l !! peer pc = Some (replaceTrack i (Some v) c) ∧
       length l = length (conns s).
Proof.
  intros Hsound Hpc Hc [Hi Hopen] Hv.
  destruct (Hsound pid pc Hpc) as (_ & _ & Huniq).
  pose proof (visits_own_connection (peers s) pid pc Hpc Huniq) as Hvisit.
  destruct (sweep_state (Some v) s) as [l Hl]. exists l.
  split; [done|].
  pose proof (sweep_conn v (peer pc) i (map_to_list (peers s)).*2 s c Hc Hi
                Hv Hopen) as H.
  fold (forEachPeer (λ pc, substituteVideo (Some v) (peer pc)) s) in H.
  rewrite Hl, Hvisit in H. step_cbn_in H.
  rewrite bool_decide_eq_true_2 in H by lia. split; [done|].
  destruct (media_only_forEachPeer
              (λ pc, substituteVideo (Some v) (peer pc))
              (λ pc, media_only_substituteVideo (Some v) (peer pc)) s)
    as [[_ Hall] _].
  rewrite Hl in Hall. step_cbn_in Hall.
  symmetry. by eapply Forall2_length.
Qed.

Lemma registry_sound_swept s l :
  registry_sound s → length l = length (conns s) →
  registry_sound (set_conns (λ _, l) s).
Proof. intros H Hl. by apply registry_sound_conns. Qed.

(** X25 — the end of an earlier screen share puts the camera back even while a
    later share is going on.  Each share installs its own [onended] handler
    on its own track; when two shares were started one after the other and
    the track of the first ends, the handler substitutes the camera track on
    every registered connection with a video sender, although the second
    share's track is still live and was the one being sent. *)
Theorem end_of_earlier_share_interrupts_later_one (s : WebRTCManager)
  (first second ts : list MediaStreamTrack) (v1 v2 camera : MediaStreamTrack)
  (pid : string) (pc : PeerConnection) (c : RTCPeerConnection) (i : nat) :
  registry_sound s →
  localStream s = Some ts →
  head (video_tracks ts) = Some camera →
  head (video_tracks first) = Some v1 →
  head (video_tracks second) = Some v2 →
  peers s !! pid = Some pc →
  conns s !! peer pc = Some c →
  find_video_sender (senders c) = Some i →
  signalingState c ≠ sig_closed →
  let r1 := startScreenShare (Some first) s in
  let r2 := startScreenShare (Some second) r1.1 in
  let r3 := onended (track_id v1) r2.1 in
  conns r2.1 !! peer pc = Some (replaceTrack i (Some v2) c) ∧
  conns r3.1 !! peer pc = Some (replaceTrack i (Some camera) c) ∧
  track_id v2 ∈ screenTracks r3.1 ∧
  substitutions (peer pc) r3.2 = 1.
Proof.
  intros Hsound Hts Hcam Hv1 Hv2 Hpc Hc Hi Hopen r1 r2 r3.
  pose proof (head_video_tracks_kind _ _ Hcam) as Hkc.
  pose proof (head_video_tracks_kind _ _ Hv1) as Hk1.
  pose proof (head_video_tracks_kind _ _ Hv2) as Hk2.
  assert (Hready : ready i c) by done.
  (* the first share *)
  destruct (sweep_registry v1 s pid pc c i Hsound Hpc Hc Hready Hk1)
    as (l1 & Hs1 & Hl1 & Hlen1).
  assert (Hr1 : r1.1 = set_screenTracks (λ a, a ∪ {[track_id v1]})
                         (set_conns (λ _, l1) s)).
  { unfold r1, startScreenShare. rewrite Hv1, seq_state. by rewrite Hs1. }
  set (s1 := set_screenTracks (λ a, a ∪ {[track_id v1]})
               (set_conns (λ _, l1) s)) in *.
  assert (Hsound1 : registry_sound s1).
  { intros q pc' Hq. destruct (Hsound q pc' Hq) as (H1 & H2 & H3).
    split; [done|]. split; [|exact H3]. unfold s1. step_cbn. by rewrite Hlen1. }
  (* the second share *)
  destruct (sweep_registry v2 s1 pid pc (replaceTrack i (Some v1) c) i
              Hsound1 Hpc Hl1 (ready_replaceTrack i v1 c Hready Hk1) Hk2)
    as (l2 & Hs2 & Hl2 & Hlen2).
  rewrite replaceTrack_again in Hl2.
  assert (Hr2 : r2.1 = set_screenTracks (λ a, a ∪ {[track_id v2]})
                         (set_conns (λ _, l2) s1)).
  { unfold r2, startScreenShare. rewrite Hr1, Hv2, seq_state. by rewrite Hs2. }
  set (s2 := set_screenTracks (λ a, a ∪ {[track_id v2]})
               (set_conns (λ _, l2) s1)) in *.
  assert (Hsound2 : registry_sound s2).
  { intros q pc' Hq. destruct (Hsound1 q pc' Hq) as (H1 & H2 & H3).
    split; [done|]. split; [|exact H3]. unfold s2. step_cbn.
    rewrite Hlen2. exact H2. }
  (* the first share's track ends *)
  assert (Hr3 : r3 = forEachPeer
                       (λ pc, substituteVideo (Some camera) (peer pc)) s2).
  { unfold r3, onended. rewrite Hr2.
    rewrite bool_decide_eq_true_2.
    - change (localStream s2) with (localStream s). by rewrite Hts, Hcam.
    - unfold s2, s1. step_cbn. apply elem_of_union_l, elem_of_union_r.
      by apply elem_of_singleton. }
  assert (Hready2 : ready i (replaceTrack i (Some v2) c))
    by (by apply ready_replaceTrack).
  destruct (sweep_registry camera s2 pid pc (replaceTrack i (Some v2) c) i
              Hsound2 Hpc Hl2 Hready2 Hkc) as (l3 & Hs3 & Hl3 & _).
  rewrite replaceTrack_again in Hl3.
  split; [by rewrite Hr2|]. rewrite Hr3, Hs3. step_cbn.
  split; [done|]. split.
  { apply elem_of_union_r. by apply elem_of_singleton. }
  destruct (Hsound2 pid pc Hpc) as (_ & _ & Huniq).
  destruct (sweep_substitutions camera (peer pc) (map_to_list (peers s2)).*2 s2)
    as [Hn _]; [by exists (replaceTrack i (Some v2) c), i; destruct Hready2
               | done |].
  unfold forEachPeer. rewrite Hn.
  by apply (visits_own_connection (peers s2) pid pc).
Qed.

(** X26 — with background blur switched on, new media does reach the
    connections, as the track of the canvas.  [initializeMedia] asked for
    video then takes the camera track out of the new local stream, puts the
    canvas track in, and substitutes the canvas track on the video sender of
    every registered connection; asked for audio alone it leaves the stream
    and the connections as they are. *)
Theorem blur_is_applied_to_new_media (B : Browser) (s : WebRTCManager)
  (stream : list MediaStreamTrack) (v : MediaStreamTrack) (audio : bool)
  (canvas : nat) (pid : string) (pc : PeerConnection) (c : RTCPeerConnection)
  (i : nat) :
  hasTrackProcessor B = true →
  backgroundBlurEnabled s = true →
  registry_sound s →
  head (video_tracks stream) = Some v →
  canvas ∉ track_id <$> stream →
  peers s !! pid = Some pc →
  conns s !! peer pc = Some c →
  find_video_sender (senders c) = Some i →
  signalingState c ≠ sig_closed →
  let processed := mkTrack canvas Video in
  let r := initializeMedia B true audio (Some stream) canvas s in
  localStream r.1 = Some (remove_track v stream ++ [processed]) ∧
  conns r.1 !! peer pc = Some (replaceTrack i (Some processed) c) ∧
  substitutions (peer pc) r.2 = 1 ∧
  filter is_send r.2 = [] ∧
  initializeMedia B false audio (Some stream) canvas s
    = (set_localStream (Some stream) s, []).
Proof.
  intros HB Hblur Hsound Hv Hfresh Hpc Hc Hi Hopen processed r.
  destruct (head_video_tracks _ _ Hv) as [rest Hrest].
  assert (Hpnew : processed ∉ remove_track v stream).
  { intros [_ Hin]%elem_of_remove_track. apply Hfresh.
    apply list_elem_of_fmap. by exists processed. }
  set (s0 := set_localStream (Some stream) s).
  assert (Hsound0 : registry_sound s0) by exact Hsound.
  assert (Hr : r = (forEachPeer
                      (λ pc, substituteVideo (Some processed) (peer pc)) ;;
                    modify (set_localStream
                              (Some (add_track processed
                                       (remove_track v stream))))) s0).
  { unfold r, initializeMedia. unfold seq at 1. step_cbn. rewrite Hblur.
    cbn [andb]. unfold applyBackgroundBlur. rewrite HB. cbn [negb].
    step_cbn. rewrite Hrest. fold s0.
    by destruct ((_ ;; _) s0). }
  destruct (sweep_registry processed s0 pid pc c i Hsound0 Hpc Hc
              (conj Hi Hopen) eq_refl) as (l & Hs & Hl & _).
  destruct (Hsound0 pid pc Hpc) as (_ & _ & Huniq).
  destruct (sweep_substitutions processed (peer pc)
              (map_to_list (peers s0)).*2 s0) as [Hn _];
    [by exists c, i | done |].
  fold (forEachPeer (λ pc, substituteVideo (Some processed) (peer pc)) s0) in Hn.
  rewrite (visits_own_connection (peers s0) pid pc Hpc Huniq) in Hn.
  destruct (media_only_forEachPeer
              (λ pc, substituteVideo (Some processed) (peer pc))
              (λ pc, media_only_substituteVideo (Some processed) (peer pc)) s0)
    as [_ Hsend].
  rewrite Hr, seq_state, seq_actions, Hs. cbn [modify fst snd]. step_cbn.
  rewrite app_nil_r.
  split.
  { unfold add_track. by rewrite bool_decide_eq_false_2. }
  split; [done|]. split; [done|]. split; [done|].
  unfold initializeMedia, seq. step_cbn. rewrite Hblur. done.
Qed.

(** ** The further properties at work on small meetings *)

(** Al's second connection to Bo was replaced when the retry came round and
    stayed open; it drops out, Al leaves, and its grace timer comes due: the
    leave has not closed it, and a further retry is armed *)
Example grace_timer_after_leave :
  let r := run plain
             [ConnectionStateChange 1 disconnected; CallLeaveMeeting;
              Fired (GraceCheck 1) RosterError]
             al_after_retry in
  peers al_after_retry !! "p2"%string = Some (mkPeer "p2" 2 "Bo") ∧
  filter is_setTimeout r.2
  = [SetTimeout (GraceCheck 1) 5000; SetTimeout (Reconnect "p2" "Bo") 4000] ∧
  (signalingState <$> conns r.1) = [sig_closed; have_local_offer; sig_closed].
Proof. vm_compute. repeat split. Qed.

Lemma presence_leave_removes_the_listed_witness :
  registry_sound al_with_two ∧
  peers (handlePresenceLeave [mkPresence "p2" "Bo"] al_with_two).1
    !! "p2"%string = None ∧
  conns (handlePresenceLeave [mkPresence "p2" "Bo"] al_with_two).1 !! 1
  = conns al_with_two !! 1.
Proof.
  assert (Hs : registry_sound al_with_two) by apply registry_sound_run.
  destruct (presence_leave_removes_the_listed al_with_two
              [mkPresence "p2" "Bo"]) as (H1 & _ & H3 & _).
  split; [exact Hs|]. split.
  - exact (H1 "p2"%string).
  - refine (H3 Hs "p3"%string (mkPeer "p3" 1 "Cy") _ eq_refl).
    vm_compute. intros H. inversion H as [|? ? ? H']; inversion H'.
Defined.

Lemma disconnection_is_given_a_grace_period_witness :
  conns al_offering !! 0 = Some first_offer ∧
  (onconnectionstatechange 0 disconnected al_offering).2
  = [SetTimeout (GraceCheck 0) 5000].
Proof.
  assert (H : conns al_offering !! 0 = Some first_offer) by reflexivity.
  split; [exact H|].
  exact (proj1 (disconnection_is_given_a_grace_period al_offering 0
                  first_offer H)).
Defined.

Lemma reconnect_replaces_record_without_closing_witness :
  peers al_found_bo_again !! "p2"%string = Some (mkPeer "p2" 1 "Bo") ∧
  conns al_found_bo_again !! 1 = Some first_offer ∧
  conns al_after_retry !! 1 = Some first_offer ∧
  length (conns al_after_retry) = 3.
Proof.
  assert (Hs : registry_sound al_found_bo_again) by apply registry_sound_run.
  assert (Hpc : peers al_found_bo_again !! "p2"%string
                = Some (mkPeer "p2" 1 "Bo")) by reflexivity.
  assert (Hc : conns al_found_bo_again !! peer (mkPeer "p2" 1 "Bo")
               = Some first_offer) by reflexivity.
  destruct (reconnect_replaces_record_without_closing plain al_found_bo_again
              "p2" "Bo" (mkPeer "p2" 1 "Bo") first_offer Hs Hpc Hc)
    as (H1 & H2 & _).
  split; [exact Hpc|]. split; [exact Hc|]. split; [exact H1 | exact H2].
Defined.

Lemma failure_of_replaced_connection_drops_current_record_witness :
  conns al_after_retry !! 1 = Some first_offer ∧
  peers al_after_retry !! "p2"%string = Some (mkPeer "p2" 2 "Bo") ∧
  peers (onconnectionstatechange 1 failed al_after_retry).1 !! "p2"%string
  = None ∧
  conns (onconnectionstatechange 1 failed al_after_retry).1 !! 2
  = Some (close first_offer).
Proof.
  assert (Hc : conns al_after_retry !! 1 = Some first_offer) by reflexivity.
  assert (Hpc : peers al_after_retry !! cb_peerId first_offer
                = Some (mkPeer "p2" 2 "Bo")) by reflexivity.
  assert (Hne : peer (mkPeer "p2" 2 "Bo") ≠ 1) by (cbn; lia).
  assert (Hc' : conns al_after_retry !! peer (mkPeer "p2" 2 "Bo")
                = Some first_offer) by reflexivity.
  destruct (failure_of_replaced_connection_drops_current_record
              al_after_retry 1 first_offer first_offer (mkPeer "p2" 2 "Bo")
              Hc Hpc Hne Hc') as (H1 & H2 & _).
  split; [exact Hc|]. split; [exact Hpc|]. split; [exact H1 | exact H2].
Defined.

Lemma refused_negotiation_leaves_connection_open_witness :
  let s := (new_WebRTCManager "m" "p1" "Al" 1 2).1 in
  peers s !! "p2"%string = None ∧
  handleOffer plain "p2" "p1" (mkSdp sdp_answer "") "Bo" s
  = (set_conns (λ l, l ++ [newRTCPeerConnection "p2" "Bo"]) s, []).
Proof.
  intros s.
  assert (Hnone : peers s !! "p2"%string = None) by reflexivity.
  destruct (refused_negotiation_leaves_connection_open plain s "p2" "Bo"
              (mkSdp sdp_answer "") Hnone) as (_ & H & _).
  split; [exact Hnone|]. exact (H eq_refl).
Defined.

Lemma retries_share_one_budget_witness :
  let before := [RecvUserJoined "p2" "Bo";
                 ConnectionStateChange 0 connected] in
  let es := [ConnectionStateChange 0 failed; ChannelSystem "CHANNEL_ERROR"] in
  let s := (run plain before (new_WebRTCManager "m" "p1" "Al" 1 2).1).1 in
  let r := run plain es s in
  Forall (λ e, resets e = false) es ∧
  reconnectAttempts r.1 = reconnectAttempts s + armed r.2 ∧ armed r.2 ≤ 5.
Proof.
  intros before es s r.
  assert (Hes : Forall (λ e, resets e = false) es).
  { repeat constructor. }
  destruct (retries_share_one_budget plain "m" "p1" "Al" 1 2 before es Hes)
    as (H1 & H2 & _).
  split; [exact Hes|]. split; [exact H1 | exact H2].
Defined.

Lemma other_events_leave_the_registry_alone_witness :
  may_change_registry (CallToggleAudio false) = false ∧
  peers (dispatch plain (CallToggleAudio false) al_with_camera).1
  = peers al_with_camera.
Proof.
  assert (H : may_change_registry (CallToggleAudio false) = false)
    by reflexivity.
  split; [exact H|].
  exact (proj1 (other_events_leave_the_registry_alone plain al_with_camera
                  (CallToggleAudio false) H)).
Defined.

Lemma discovery_keeps_existing_records_witness :
  let e := PollTick (RosterData (Some [mkParticipant "p3" "Cy"])) in
  is_discovery e = true ∧
  peers al_offering !! "p2"%string = Some (mkPeer "p2" 0 "Bo") ∧
  peers (dispatch plain e al_offering).1 !! "p2"%string
  = Some (mkPeer "p2" 0 "Bo").
Proof.
  intros e.
  assert (He : is_discovery e = true) by reflexivity.
  assert (Hpc : peers al_offering !! "p2"%string = Some (mkPeer "p2" 0 "Bo"))
    by reflexivity.
  assert (Hlt : peer (mkPeer "p2" 0 "Bo") < length (conns al_offering))
    by (vm_compute; lia).
  split; [exact He|]. split; [exact Hpc|].
  exact (proj1 (discovery_keeps_existing_records plain al_offering e "p2"
                  (mkPeer "p2" 0 "Bo") He Hpc Hlt)).
Defined.


Lemma leave_notice_clears_the_leaver_witness :
  peers al_watching !! participantId bo_offering = Some (mkPeer "p2" 0 "Bo") ∧
  onPeerLeftCallback al_watching = true ∧
  remoteStreams
    (shown (deliver plain (sent (leaveMeeting bo_offering).2) al_watching).2
       room_with_bo)
  = delete (participantId bo_offering) (remoteStreams room_with_bo).
Proof.
  assert (Hpc : peers al_watching !! participantId bo_offering
                = Some (mkPeer "p2" 0 "Bo")) by reflexivity.
  assert (Hcb : onPeerLeftCallback al_watching = true) by reflexivity.
  destruct (leave_notice_clears_the_leaver plain bo_offering al_watching
              (mkPeer "p2" 0 "Bo") room_with_bo Hpc Hcb)
    as (_ & _ & _ & _ & H & _).
  split; [exact Hpc|]. split; [exact Hcb | exact H].
Defined.

Lemma raised_hand_reaches_the_other_rooms_witness :
  participantId bo_offering ≠ participantId al_watching ∧
  onHandRaisedCallback al_watching = true ∧
  (deliver plain (sent (raiseHand true bo_offering).2) al_watching).2
  = [NotifyHandRaised "p2" "Bo" true].
Proof.
  assert (Hne : participantId bo_offering ≠ participantId al_watching)
    by (vm_compute; discriminate).
  assert (Hcb : onHandRaisedCallback al_watching = true) by reflexivity.
  destruct (raised_hand_reaches_the_other_rooms plain bo_offering al_watching
              true room_with_bo Hne Hcb) as (_ & _ & _ & _ & H & _).
  split; [exact Hne|]. split; [exact Hcb | exact H].
Defined.

Lemma local_candidate_reaches_the_peer_witness :
  conns al_offering !! 0 = Some first_offer ∧
  cb_peerId first_offer = participantId bo_offering ∧
  onicecandidate 0 (Some "candidate:1"%string) al_offering
  = (al_offering, [Send (IceCandidate "p1" "p2" "candidate:1")]).
Proof.
  assert (Hc : conns al_offering !! 0 = Some first_offer) by reflexivity.
  assert (Hto : cb_peerId first_offer = participantId bo_offering)
    by reflexivity.
  split; [exact Hc|]. split; [exact Hto|].
  exact (proj1 (local_candidate_reaches_the_peer plain al_offering bo_offering
                  0 first_offer "candidate:1" Hc Hto)).
Defined.

Lemma mute_and_camera_switches_witness :
  localStream al_with_camera = Some [mkTrack 1 Video; mkTrack 2 Audio] ∧
  (toggleAudio false al_with_camera).2
  = [Send (MediaStateChanged "p1" false true)] ∧
  (2 ∉ disabledTracks (toggleAudio false al_with_camera).1 ↔ false = true).
Proof.
  assert (Hts : localStream al_with_camera
                = Some [mkTrack 1 Video; mkTrack 2 Audio]) by reflexivity.
  destruct (mute_and_camera_switches al_with_camera false true) as [_ H].
  destruct (H _ Hts) as (H1 & _ & H3 & _).
  split; [exact Hts|]. split; [exact H3|].
  refine (H1 (mkTrack 2 Audio) _).
  vm_compute. left.
Defined.

Lemma new_media_is_not_put_on_connections_witness :
  let s := al_with_camera in
  let r1 := startScreenShare (Some [mkTrack 9 Video]) s in
  let r2 := initializeMedia plain true true
              (Some [mkTrack 3 Video; mkTrack 4 Audio]) 7 r1.1 in
  peers s !! "p2"%string = Some (mkPeer "p2" 0 "Bo") ∧
  localStream r2.1 = Some [mkTrack 3 Video; mkTrack 4 Audio] ∧
  ∃ c' y, conns r2.1 !! 0 = Some c' ∧ senders c' !! 0 = Some y ∧
          sender_track y = Some (mkTrack 9 Video).
Proof.
  intros s r1 r2.
  assert (Hs : registry_sound s) by apply registry_sound_run.
  assert (Hpc : peers s !! "p2"%string = Some (mkPeer "p2" 0 "Bo"))
    by reflexivity.
  destruct (conns s !! peer (mkPeer "p2" 0 "Bo")) as [c|] eqn:Hc;
    [|vm_compute in Hc; discriminate].
  assert (Hopen : signalingState c ≠ sig_closed).
  { vm_compute in Hc. injection Hc as <-. discriminate. }
  assert (Hi : find_video_sender (senders c) = Some 0).
  { vm_compute in Hc. injection Hc as <-. reflexivity. }
  destruct (senders c !! 0) as [x|] eqn:Hx.
  2: { vm_compute in Hc. injection Hc as <-. discriminate. }
  destruct (new_media_is_not_put_on_connections plain s [mkTrack 9 Video]
              [mkTrack 3 Video; mkTrack 4 Audio] (mkTrack 9 Video) true true 7
              "p2" (mkPeer "p2" 0 "Bo") c 0 x Hs eq_refl eq_refl Hpc Hc Hopen
              Hi Hx) as (_ & _ & H3 & _ & c' & y & H5 & H6 & H7 & _).
  split; [exact Hpc|]. split; [exact H3|]. exists c', y.
  split; [exact H5|]. split; [exact H6 | exact H7].
Defined.

Lemma blur_round_trip_leaves_camera_running_witness :
  let s := al_with_camera in
  let r1 := toggleBackgroundBlur plain true 7 None s in
  let r2 := toggleBackgroundBlur plain false 8
              (Some [mkTrack 3 Video; mkTrack 4 Audio]) r1.1 in
  localStream s = Some [mkTrack 1 Video; mkTrack 2 Audio] ∧
  localStream r1.1 = Some [mkTrack 2 Audio; mkTrack 7 Video] ∧
  7 ∈ stoppedTracks r2.1 ∧
  (1 ∉ stoppedTracks s → 1 ∉ stoppedTracks r2.1).
Proof.
  intros s r1 r2.
  assert (Hts : localStream s = Some [mkTrack 1 Video; mkTrack 2 Audio])
    by reflexivity.
  assert (Huniq : ∀ t, t ∈ [mkTrack 1 Video; mkTrack 2 Audio] →
                       track_id t = track_id (mkTrack 1 Video) →
                       t = mkTrack 1 Video).
  { intros t Ht Hid. apply elem_of_cons in Ht as [->|Ht]; [done|].
    apply list_elem_of_singleton in Ht. subst t. discriminate. }
  assert (Hfresh : 7 ∉ track_id <$> [mkTrack 1 Video; mkTrack 2 Audio]).
  { intros H. apply elem_of_cons in H as [H|H]; [discriminate|].
    apply list_elem_of_singleton in H. discriminate. }
  assert (Hne : mkTrack 3 Video ≠ mkTrack 1 Video) by discriminate.
  destruct (blur_round_trip_leaves_camera_running plain s
              [mkTrack 1 Video; mkTrack 2 Audio]
              [mkTrack 3 Video; mkTrack 4 Audio] (mkTrack 1 Video)
              (mkTrack 3 Video) 7 8 None eq_refl Hts eq_refl Huniq Hfresh
              eq_refl Hne) as (H1 & _ & _ & _ & _ & H6 & H7 & _).
  split; [exact Hts|]. split; [exact H1|]. split; [exact H6 | exact H7].
Defined.

Lemma offer_on_existing_record_is_answered_in_place_witness :
  peers al_connected !! "p2"%string = Some (mkPeer "p2" 0 "Bo") ∧
  length (conns (handleOffer plain "p2" (participantId al_connected)
                   (mkSdp sdp_offer "again") "Bo" al_connected).1)
  = length (conns al_connected).
Proof.
  assert (Hpc : peers al_connected !! "p2"%string
                = Some (mkPeer "p2" 0 "Bo")) by reflexivity.
  destruct (conns al_connected !! peer (mkPeer "p2" 0 "Bo")) as [c|] eqn:Hc;
    [|vm_compute in Hc; discriminate].
  assert (Hst : signalingState c = stable ∨
                signalingState c = have_remote_offer).
  { left. vm_compute in Hc. injection Hc as <-. reflexivity. }
  split; [exact Hpc|].
  exact (proj1 (offer_on_existing_record_is_answered_in_place plain
                  al_connected "p2" "Bo" (mkSdp sdp_offer "again")
                  (mkPeer "p2" 0 "Bo") c Hpc Hc Hst)).
Defined.

Lemma registered_connections_are_open_witness :
  well_behaved plain ∧
  ∃ c, conns al_offering !! 0 = Some c ∧ signalingState c ≠ sig_closed ∧
       cb_peerId c = "p2"%string ∧ cb_name c = "Bo"%string.
Proof.
  assert (HB : well_behaved plain) by apply jsep_well_behaved.
  split; [exact HB|].
  exact (registered_connections_are_open plain [RecvUserJoined "p2" "Bo"]
           "m" "p1" "Al" 1 2 HB "p2"%string (mkPeer "p2" 0 "Bo") eq_refl).
Defined.

Lemma end_of_earlier_share_interrupts_later_one_witness :
  let s := al_with_camera in
  let r1 := startScreenShare (Some [mkTrack 8 Video]) s in
  let r2 := startScreenShare (Some [mkTrack 9 Video]) r1.1 in
  let r3 := onended 8 r2.1 in
  peers s !! "p2"%string = Some (mkPeer "p2" 0 "Bo") ∧
  9 ∈ screenTracks r3.1 ∧
  substitutions 0 r3.2 = 1.
Proof.
  intros s r1 r2 r3.
  assert (Hs : registry_sound s) by apply registry_sound_run.
  assert (Hpc : peers s !! "p2"%string = Some (mkPeer "p2" 0 "Bo"))
    by reflexivity.
  destruct (conns s !! peer (mkPeer "p2" 0 "Bo")) as [c|] eqn:Hc;
    [|vm_compute in Hc; discriminate].
  assert (Hopen : signalingState c ≠ sig_closed).
  { vm_compute in Hc. injection Hc as <-. discriminate. }
  assert (Hi : find_video_sender (senders c) = Some 0).
  { vm_compute in Hc. injection Hc as <-. reflexivity. }
  destruct (end_of_earlier_share_interrupts_later_one s [mkTrack 8 Video]
              [mkTrack 9 Video] [mkTrack 1 Video; mkTrack 2 Audio]
              (mkTrack 8 Video) (mkTrack 9 Video) (mkTrack 1 Video) "p2"
              (mkPeer "p2" 0 "Bo") c 0 Hs eq_refl eq_refl eq_refl eq_refl
              Hpc Hc Hi Hopen) as (_ & _ & H3 & H4).
  split; [exact Hpc|]. split; [exact H3 | exact H4].
Defined.

Lemma blur_is_applied_to_new_media_witness :
  let s := set_backgroundBlurEnabled true al_with_camera in
  let r := initializeMedia plain true true
             (Some [mkTrack 3 Video; mkTrack 4 Audio]) 7 s in
  peers s !! "p2"%string = Some (mkPeer "p2" 0 "Bo") ∧
  localStream r.1 = Some [mkTrack 4 Audio; mkTrack 7 Video] ∧
  substitutions 0 r.2 = 1.
Proof.
  intros s r.
  assert (Hs : registry_sound s).
  { change (registry_sound al_with_camera). apply registry_sound_run. }
  assert (Hpc : peers s !! "p2"%string = Some (mkPeer "p2" 0 "Bo"))
    by reflexivity.
  destruct (conns s !! peer (mkPeer "p2" 0 "Bo")) as [c|] eqn:Hc;
    [|vm_compute in Hc; discriminate].
  assert (Hopen : signalingState c ≠ sig_closed).
  { vm_compute in Hc. injection Hc as <-. discriminate. }
  assert (Hi : find_video_sender (senders c) = Some 0).
  { vm_compute in Hc. injection Hc as <-. reflexivity. }
  assert (Hfresh : 7 ∉ track_id <$> [mkTrack 3 Video; mkTrack 4 Audio]).
  { intros H. apply elem_of_cons in H as [H|H]; [discriminate|].
    apply list_elem_of_singleton in H. discriminate. }
  destruct (blur_is_applied_to_new_media plain s
              [mkTrack 3 Video; mkTrack 4 Audio] (mkTrack 3 Video) true 7
              "p2" (mkPeer "p2" 0 "Bo") c 0 eq_refl eq_refl Hs eq_refl Hfresh
              Hpc Hc Hi Hopen) as (H1 & _ & H3 & _).
  split; [exact Hpc|]. split; [exact H1 | exact H3].
Defined.
